(** * The submodule workflow CLI: reconciliation, feature branches, PR lookup

    A shallow embedding of
      - [src/utils/git.js]                ([gitHelpers], [githubHelpers]),
      - [src/commands/sync-submodules.js] ([syncSubmodule], [syncSubmodules]),
      - [src/commands/new-feature.js]     ([createFeatureBranch], [newFeature]).

    The commands are sequences of calls to libraries the repository does not
    contain (simple-git, fs, inquirer, execa running [gh], the clock).  Each
    such call is a constructor of [Call]; a command is a tree of calls
    ([Prog]) whose continuations receive either the value the call resolved
    with or the error it rejected with.  A [Handler] gives the calls a
    meaning over some world; [run] threads the world through a program and
    records what was called, whether it resolved, and what was printed.

    Properties are stated for every handler and world; a small simulated
    checkout ([Sim]) supplies the concrete runs. *)

From Stdlib Require Import String Ascii List Bool Arith Lia.
Import ListNotations.
Open Scope list_scope.
Open Scope string_scope.

(** ** JavaScript string and array methods used by the sources

    A string is the sequence of its UTF-8 bytes. *)
Module Js.

Definition bytes (l : list nat) : string :=
  string_of_list_ascii (map ascii_of_nat l).

(** [Array.prototype.includes] on an array of strings. *)
Definition includes (x : string) (l : list string) : bool :=
  existsb (String.eqb x) l.

(** [s.startsWith(p)], returning what follows the prefix. *)
Fixpoint strip_prefix (p s : string) : option string :=
  match p with
  | EmptyString => Some s
  | String a p' =>
      match s with
      | EmptyString => None
      | String b s' => if Ascii.eqb a b then strip_prefix p' s' else None
      end
  end.

(** White space and line terminators of ECMAScript ([String.prototype.trim],
    [\s]): TAB LF VT FF CR SP, then U+00A0, U+1680, U+2000..U+200A, U+2028,
    U+2029, U+202F, U+205F, U+3000 and U+FEFF in UTF-8. *)
Definition whitespace : list string :=
  map bytes
    [ [9]; [10]; [11]; [12]; [13]; [32]; [194; 160]; [225; 154; 128];
      [226; 128; 128]; [226; 128; 129]; [226; 128; 130]; [226; 128; 131];
      [226; 128; 132]; [226; 128; 133]; [226; 128; 134]; [226; 128; 135];
      [226; 128; 136]; [226; 128; 137]; [226; 128; 138]; [226; 128; 168];
      [226; 128; 169]; [226; 128; 175]; [226; 129; 159]; [227; 128; 128];
      [239; 187; 191] ].

Definition rev_string (s : string) : string :=
  string_of_list_ascii (rev (list_ascii_of_string s)).

(** Drops one leading token of [tokens], if [s] starts with one. *)
Fixpoint drop_token (tokens : list string) (s : string) : option string :=
  match tokens with
  | [] => None
  | t :: ts =>
      match strip_prefix t s with
      | Some rest => Some rest
      | None => drop_token ts s
      end
  end.

Fixpoint drop_tokens (fuel : nat) (tokens : list string) (s : string) : string :=
  match fuel with
  | O => s
  | S n =>
      match drop_token tokens s with
      | Some rest => drop_tokens n tokens rest
      | None => s
      end
  end.

Definition trimStart (s : string) : string :=
  drop_tokens (String.length s) whitespace s.

Definition trimEnd (s : string) : string :=
  rev_string
    (drop_tokens (String.length s) (map rev_string whitespace) (rev_string s)).

(** [s.trim()] *)
Definition trim (s : string) : string := trimEnd (trimStart s).

(** [s.replace(pat, rep)] for a string pattern: the first occurrence only
    (the sources pass replacements without [$] patterns). *)
Fixpoint replace (pat rep s : string) : string :=
  match strip_prefix pat s with
  | Some rest => rep ++ rest
  | None =>
      match s with
      | EmptyString => EmptyString
      | String c s' => String c (replace pat rep s')
      end
  end.

(** [s.split(sep)] for a one-character separator. *)
Fixpoint split (sep : ascii) (s : string) : list string :=
  match s with
  | EmptyString => [EmptyString]
  | String c s' =>
      if Ascii.eqb c sep then EmptyString :: split sep s'
      else match split sep s' with
           | [] => [String c EmptyString]
           | hd :: tl => String c hd :: tl
           end
  end.

(** [l.join(sep)] *)
Definition join (sep : string) (l : list string) : string :=
  String.concat sep l.

(** Truthiness of a string value. *)
Definition truthy (s : string) : bool :=
  negb (String.eqb s "").

Definition dquote : string := bytes [34].

Definition LF : ascii := ascii_of_nat 10.
Definition lf : string := String LF EmptyString.

Definition is_digit (c : ascii) : bool :=
  let n := nat_of_ascii c in ((48 <=? n) && (n <=? 57))%nat.

(** The longest prefix of digits, and of characters that are not white
    space ([\d+], [[^\s]+] once the match has started). *)
Fixpoint take_digits (s : string) : string :=
  match s with
  | EmptyString => EmptyString
  | String c s' => if is_digit c then String c (take_digits s') else EmptyString
  end.

Fixpoint take_non_space (s : string) : string :=
  match drop_token whitespace s with
  | Some _ => EmptyString
  | None =>
      match s with
      | EmptyString => EmptyString
      | String c s' => String c (take_non_space s')
      end
  end.

(** [s.match(/#(\d+)/)?.[1]]: the digits after the first [#] that is
    followed by a digit. *)
Fixpoint match_hash_number (s : string) : option string :=
  match s with
  | EmptyString => None
  | String c s' =>
      if Ascii.eqb c "#" then
        match take_digits s' with
        | EmptyString => match_hash_number s'
        | ds => Some ds
        end
      else match_hash_number s'
  end.

(** [s.match(/https:\/\/[^\s]+/)?.[0]] *)
Fixpoint match_https_url (s : string) : option string :=
  match strip_prefix "https://" s with
  | Some rest =>
      match take_non_space rest with
      | EmptyString =>
          match s with
          | EmptyString => None
          | String _ s' => match_https_url s'
          end
      | body => Some ("https://" ++ body)
      end
  | None =>
      match s with
      | EmptyString => None
      | String _ s' => match_https_url s'
      end
  end.

End Js.

Arguments Js.trim : simpl never.
Arguments Js.replace : simpl never.
Arguments Js.split : simpl never.
Arguments Js.includes : simpl never.
Arguments Js.truthy : simpl never.

(** ** The calls the sources make on their libraries *)

(** The error a rejected promise or a [throw] carries: its message. *)
Definition Error := string.

Inductive Result (A : Type) : Type :=
| Ok (a : A)
| Err (e : Error).
Arguments Ok {A} a.
Arguments Err {A} e.

(** What [simpleGit(dir).status()] resolves with, as far as the sources read
    it: [status.current] (a branch name, or [null]) and [status.isClean()]. *)
Record StatusResult : Type := mkStatus {
  current : option string;
  isClean : bool
}.

(** An entry of the link registry, [{name, path, url}]. *)
Record Submodule : Type := mkSubmodule {
  sm_name : string;
  sm_path : string;
  sm_url : string
}.

Inductive Call : Type :=
| FsAccess (path : string)                       (* fs.access(path) *)
| FsReaddir (path : string)                      (* fs.readdir(path) *)
| ReadRegistry                                   (* .gitmodules, read and scanned *)
| GitStatus (dir : string)                       (* simpleGit(dir).status() *)
| GitRaw (dir : string) (args : list string)     (* .raw(args) *)
| GitBranch (dir : string) (args : list string)  (* .branch(args), its .all *)
| GitBranchLocal (dir : string)                  (* .branchLocal(), its .all *)
| GitFetch (dir remote : string)                 (* .fetch(remote) *)
| GitPull (dir : string) (from : option (string * string))
                                                 (* .pull(remote, branch) / .pull() *)
| GitCheckout (dir branch : string)              (* .checkout(branch) *)
| GitCheckoutLocalBranch (dir branch : string)   (* .checkoutLocalBranch(name) *)
| GitPush (dir : string) (setUpstream : bool) (remote : string)
          (branch : option string)               (* .push(['-u', r, b]) / .push(r, b) *)
| GitAdd (dir files : string)                    (* .add(files) *)
| GitCommit (dir message : string)               (* .commit(message) *)
| GitStash (dir : string) (args : list string)   (* .stash(args) / .stash() *)
| GitSubmoduleInit                               (* git.submoduleInit() *)
| Confirm (message : string)                     (* inquirer confirm prompt *)
| NowISO                                         (* new Date().toISOString() *)
| Gh (dir : string) (args : list string)         (* execa('gh', args, {cwd}) *)
| CommitsAhead (dir base branch : string).       (* see [createLinkPR] *)

(** The type of the value each call resolves with. *)
Definition resp (c : Call) : Type :=
  match c with
  | FsAccess _ => unit
  | FsReaddir _ => list string
  | ReadRegistry => list Submodule
  | GitStatus _ => StatusResult
  | GitRaw _ _ => string
  | GitBranch _ _ => list string
  | GitBranchLocal _ => list string
  | GitFetch _ _ => unit
  | GitPull _ _ => unit
  | GitCheckout _ _ => unit
  | GitCheckoutLocalBranch _ _ => unit
  | GitPush _ _ _ _ => unit
  | GitAdd _ _ => unit
  | GitCommit _ _ => unit
  | GitStash _ _ => unit
  | GitSubmoduleInit => unit
  | Confirm _ => bool
  | NowISO => string
  | Gh _ _ => string
  | CommitsAhead _ _ _ => nat
  end.

(** Calls that only inspect files and repositories: file tests, status and
    branch listings, the two [raw] queries the sources issue, [gh pr list].
    The other git and [gh] calls may change a working tree, an index, a
    stash, the branches or the remote; the prompt and the clock consume an
    answer and a reading. *)
Definition read_only (c : Call) : bool :=
  match c with
  | FsAccess _ | FsReaddir _ | ReadRegistry | GitStatus _
  | GitBranch _ _ | GitBranchLocal _
  | CommitsAhead _ _ _ => true
  | GitRaw _ args =>
      match args with
      | [a; _] => String.eqb a "symbolic-ref"
      | _ => false
      end
      || match args with
         | [a; b] => String.eqb a "submodule" && String.eqb b "status"
         | _ => false
         end
  | Gh _ args =>
      match args with
      | a :: b :: _ => String.eqb a "pr" && String.eqb b "list"
      | _ => false
      end
  | _ => false
  end.

(** Console output: which logger printed, and the message it was given
    (colours and icon prefixes added by [log] are not part of the message). *)
Inductive Level : Type :=
| LSection | LItem | LInfo | LWarning | LError | LSuccess
| LSpin | LSpinSucceed | LSpinFail | LConsole.

Definition Line : Type := (Level * string)%type.

(** ** Programs *)

Inductive Prog (A : Type) : Type :=
| Ret (a : A)                                   (* return a *)
| Throw (e : Error)                             (* throw / rejected promise *)
| Exit (code : nat)                             (* process.exit(code) *)
| Out (l : Line) (k : Prog A)                   (* print, then go on *)
| Do (c : Call) (k : Result (resp c) -> Prog A) (* await a call *).
Arguments Ret {A} a.
Arguments Throw {A} e.
Arguments Exit {A} code.
Arguments Out {A} l k.
Arguments Do {A} c k.

Fixpoint bind {A B : Type} (p : Prog A) (f : A -> Prog B) : Prog B :=
  match p with
  | Ret a => f a
  | Throw e => Throw e
  | Exit n => Exit n
  | Out l k => Out l (bind k f)
  | Do c k => Do c (fun r => bind (k r) f)
  end.

(** [try { p } catch (e) { h e }]; [process.exit] is not caught. *)
Fixpoint try_catch {A : Type} (p : Prog A) (h : Error -> Prog A) : Prog A :=
  match p with
  | Ret a => Ret a
  | Throw e => h e
  | Exit n => Exit n
  | Out l k => Out l (try_catch k h)
  | Do c k => Do c (fun r => try_catch (k r) h)
  end.

(** [await c]: the value, or the rejection rethrown. *)
Definition call (c : Call) : Prog (resp c) :=
  Do c (fun r => match r with Ok v => Ret v | Err e => Throw e end).

Definition say (lvl : Level) (msg : string) : Prog unit :=
  Out (lvl, msg) (Ret tt).

Declare Scope prog_scope.
Delimit Scope prog_scope with prog.
Notation "x <- p ;; k" := (bind p (fun x => k))
  (at level 61, p at next level, right associativity) : prog_scope.
Notation "p ;; k" := (bind p (fun _ => k))
  (at level 61, right associativity) : prog_scope.
Open Scope prog_scope.

(** ** Running a program against a handler *)

Inductive Outcome (A : Type) : Type :=
| Returned (a : A)
| Thrown (e : Error)
| Exited (code : nat).
Arguments Returned {A} a.
Arguments Thrown {A} e.
Arguments Exited {A} code.

(** What a run leaves behind: each call with whether it resolved, and each
    line printed. *)
Inductive Event : Type :=
| EvCall (c : Call) (resolved : bool)
| EvOut (l : Line).

Definition is_ok {A : Type} (r : Result A) : bool :=
  match r with Ok _ => true | Err _ => false end.

Section Run.
Variable W : Type.

Definition Handler : Type := forall c : Call, W -> Result (resp c) * W.

Record Run (A : Type) : Type := mkRun {
  outcome : Outcome A;
  final : W;
  trace : list Event
}.
Arguments mkRun {A}.
Arguments outcome {A}.
Arguments final {A}.
Arguments trace {A}.

Definition after {A : Type} (e : Event) (r : Run A) : Run A :=
  mkRun (outcome r) (final r) (e :: trace r).

Definition after_all {A : Type} (es : list Event) (r : Run A) : Run A :=
  mkRun (outcome r) (final r) (es ++ trace r)%list.

Variable h : Handler.

Fixpoint run {A : Type} (p : Prog A) (w : W) : Run A :=
  match p with
  | Ret a => mkRun (Returned a) w []
  | Throw e => mkRun (Thrown e) w []
  | Exit n => mkRun (Exited n) w []
  | Out l k => after (EvOut l) (run k w)
  | Do c k =>
      after (EvCall c (is_ok (fst (h c w))))
            (run (k (fst (h c w))) (snd (h c w)))
  end.

(** A handler whose inspecting calls leave the world as it is. *)
Definition inspects_only : Prop :=
  forall c w, read_only c = true -> snd (h c w) = w.

End Run.
Arguments mkRun {W A}.
Arguments outcome {W A}.
Arguments final {W A}.
Arguments trace {W A}.
Arguments after {W A}.
Arguments after_all {W A}.
Arguments run {W} h {A}.
Arguments inspects_only {W}.

Fixpoint calls (t : list Event) : list Call :=
  match t with
  | [] => []
  | EvCall c _ :: t' => c :: calls t'
  | EvOut _ :: t' => calls t'
  end.

(** The calls that were rejected. *)
Fixpoint rejected (t : list Event) : list Call :=
  match t with
  | [] => []
  | EvCall c false :: t' => c :: rejected t'
  | _ :: t' => rejected t'
  end.

Fixpoint outs (t : list Event) : list Line :=
  match t with
  | [] => []
  | EvCall _ _ :: t' => outs t'
  | EvOut l :: t' => l :: outs t'
  end.

(** ** utils/colors.js: the icons that end up inside messages *)
Module Icons.
Definition sync : string := "🔄".
Definition check : string := "✓".
Definition cross : string := "✗".
End Icons.

(** A pull request as the sources hand it around: [{number, url}].  The
    number is a JSON number when it comes from [gh pr list --json], the
    digits captured from [gh pr create]'s output otherwise, and either
    field may be [undefined]. *)
Inductive PRNumber : Type :=
| PRJson (n : nat)
| PRDigits (digits : string)
| PRUndefined.

Record PullRequest : Type := mkPR {
  pr_number : PRNumber;
  pr_url : option string
}.

(** [path.join] and [JSON.parse] belong to the platform; the commands are
    stated over any implementation of them.  [json_parse] yields [Err] for a
    [SyntaxError], [Ok None] for the JSON value [null]. *)
Section Commands.
Variable path_join : string -> string -> string.
Variable json_parse : string -> Result (option PullRequest).

(** [gitHelpers] has no member [git] (the module exports [git] next to
    it), so [gitHelpers.git] is [undefined] and reading a method off it
    throws before any call is made. *)
Definition gitHelpers_git {A : Type} (method : string) : Prog A :=
  Throw ("TypeError: Cannot read properties of undefined (reading '"
         ++ method ++ "')").

(** *** gitHelpers *)

Definition isGitRepo (dir : string) : Prog bool :=
  try_catch (_ <- call (GitStatus dir);; Ret true) (fun _ => Ret false).

Definition isSubmodule (dir : string) : Prog bool :=
  try_catch (_ <- call (FsAccess (path_join dir ".git"));; Ret true)
            (fun _ => Ret false).

(** [status.current || null] *)
Definition or_null (v : option string) : option string :=
  match v with
  | Some s => if Js.truthy s then Some s else None
  | None => None
  end.

Definition getCurrentBranch (dir : string) : Prog (option string) :=
  status <- call (GitStatus dir);;
  Ret (or_null (current status)).

Definition getDefaultBranch (dir : string) : Prog string :=
  try_catch
    (result <- call (GitRaw dir ["symbolic-ref"; "refs/remotes/origin/HEAD"]);;
     Ret (Js.replace "refs/remotes/origin/" "" (Js.trim result)))
    (fun _ =>
       branches <- call (GitBranch dir []);;
       if Js.includes "origin/main" branches then Ret "main"
       else if Js.includes "origin/master" branches then Ret "master"
       else Ret "main").

Definition hasUncommittedChanges (dir : string) : Prog bool :=
  status <- call (GitStatus dir);;
  Ret (negb (isClean status)).

(** The read and scan of [.gitmodules] is one call; whatever goes wrong in
    it is caught and gives the empty list. *)
Definition getSubmodules : Prog (list Submodule) :=
  try_catch (call ReadRegistry) (fun _ => Ret []).

Definition fetch (dir remote : string) : Prog unit :=
  call (GitFetch dir remote).

(** [branch] is a string or [null]; the empty string is falsy too. *)
Definition pull (dir remote : string) (branch : option string) : Prog unit :=
  match or_null branch with
  | Some b => call (GitPull dir (Some (remote, b)))
  | None => call (GitPull dir None)
  end.

Definition createBranch (branchName dir : string) : Prog unit :=
  call (GitCheckoutLocalBranch dir branchName).

Definition checkout (branch dir : string) : Prog unit :=
  call (GitCheckout dir branch).

Definition push (dir : string) (setUpstream : bool) (branch : option string)
  : Prog unit :=
  currentBranch <- match or_null branch with
                   | Some b => Ret (Some b)
                   | None => getCurrentBranch dir
                   end;;
  call (GitPush dir setUpstream "origin" currentBranch).

Definition add (files dir : string) : Prog unit :=
  call (GitAdd dir files).

Definition commit (message dir : string) : Prog unit :=
  call (GitCommit dir message).

Definition getRemoteBranches (dir : string) : Prog (list string) :=
  branches <- call (GitBranch dir ["-r"]);;
  Ret (map (Js.replace "origin/" "") branches).

Definition getLocalBranches (dir : string) : Prog (list string) :=
  call (GitBranchLocal dir).

Definition branchExists (branchName dir : string) : Prog bool :=
  branches <- getLocalBranches dir;;
  Ret (Js.includes branchName branches).

Definition remoteBranchExists (branchName dir : string) : Prog bool :=
  branches <- getRemoteBranches dir;;
  Ret (Js.includes branchName branches).

Definition stash (message : option string) (dir : string) : Prog unit :=
  match or_null message with
  | Some m => call (GitStash dir ["push"; "-m"; m])
  | None => call (GitStash dir [])
  end.

Definition initSubmodules : Prog unit :=
  call GitSubmoduleInit.

(** [result.split('\n').filter(line => line.trim())] *)
Definition statusLines (result : string) : list string :=
  filter (fun line => Js.truthy (Js.trim line)) (Js.split Js.LF result).

Definition getSubmoduleStatus : Prog (list string) :=
  result <- call (GitRaw "." ["submodule"; "status"]);;
  Ret (statusLines result).

(** *** githubHelpers *)

Definition createPR (title body : string) (base : option string)
           (draft : bool) (dir : string) : Prog PullRequest :=
  let args := ["pr"; "create"; "--title"; title; "--body"; body] in
  let args := match or_null base with
              | Some b => (args ++ ["--base"; b])%list
              | None => args
              end in
  let args := if draft then (args ++ ["--draft"])%list else args in
  stdout <- call (Gh dir args);;
  let prNumber := match Js.match_hash_number stdout with
                  | Some ds => PRDigits ds
                  | None => PRUndefined
                  end in
  let prUrl := Js.match_https_url stdout in
  Ret (mkPR prNumber prUrl).

Definition pr_list_args (branch : string) : list string :=
  ["pr"; "list"; "--head"; branch; "--json"; "number,url"; "--jq"; ".[0]"].

Definition getPRForBranch (branch dir : string) : Prog (option PullRequest) :=
  try_catch
    (stdout <- call (Gh dir (pr_list_args branch));;
     if Js.truthy stdout then
       match json_parse stdout with
       | Ok v => Ret v
       | Err e => Throw e
       end
     else Ret None)
    (fun _ => Ret None).

(** *** commands/sync-submodules.js *)

Definition show_branch (b : option string) (ifNull : string) : string :=
  match b with Some s => s | None => ifNull end.

(** [currentBranch && currentBranch !== 'HEAD'] *)
Definition on_branch (currentBranch : option string) : option string :=
  match currentBranch with
  | Some b => if String.eqb b "HEAD" then None else Some b
  | None => None
  end.

Definition stash_message (timestamp : string) : string :=
  "Auto-stash before sync " ++ timestamp.

(** [syncSubmodule] from its comment "Get current branch" to its end: what
    runs once the check for uncommitted changes has let the repository
    through. *)
Definition syncBranch (submodulePath submoduleName : string) : Prog bool :=
  currentBranch <- getCurrentBranch submodulePath;;
  say LItem ("Current branch: " ++ show_branch currentBranch "detached");;
  say LSpin "Fetching latest changes...";;
  fetched <- try_catch
               (fetch submodulePath "origin";;
                say LSpinSucceed "Fetched latest changes";;
                Ret true)
               (fun _ => say LSpinFail "Failed to fetch changes";; Ret false);;
  if negb fetched then Ret false else
  pulled <-
    match on_branch currentBranch with
    | Some branch =>
        say LSpin ("Pulling latest from " ++ branch ++ "...");;
        try_catch
          (pull submodulePath "origin" (Some branch);;
           say LSpinSucceed ("Pulled latest from " ++ branch);;
           Ret true)
          (fun _ => say LSpinFail ("Failed to pull from " ++ branch);;
                    Ret false)
    | None =>
        defaultBranch <- getDefaultBranch submodulePath;;
        say LSpin ("Checking out " ++ defaultBranch ++ "...");;
        try_catch
          (checkout defaultBranch submodulePath;;
           pull submodulePath "origin" (Some defaultBranch);;
           say LSpinSucceed ("Checked out and pulled " ++ defaultBranch);;
           Ret true)
          (fun _ => say LSpinFail ("Failed to checkout " ++ defaultBranch);;
                    Ret false)
    end;;
  if negb pulled then Ret false else
  say LSuccess ("Successfully synced " ++ submoduleName);;
  Ret true.

(** [syncSubmodule(submodulePath, submoduleName, forceUpdate)].  The inner
    [option]: [Some v] when the block returned [v] from the function,
    [None] when control falls through to what follows. *)
Definition syncSubmodule (submodulePath submoduleName : string)
           (forceUpdate : bool) : Prog bool :=
  say LSection ("Syncing submodule: " ++ submoduleName);;
  say LItem ("Path: " ++ submodulePath);;
  found <- try_catch (call (FsAccess submodulePath);; Ret true)
                     (fun _ => Ret false);;
  if negb found then
    say LError ("Submodule directory not found: " ++ submodulePath);;
    Ret false
  else
  hasChanges <- hasUncommittedChanges submodulePath;;
  returned <-
    (if hasChanges then
       say LWarning ("Uncommitted changes detected in " ++ submoduleName);;
       if negb forceUpdate then
         say LWarning "Use --force to sync anyway, or commit your changes first";;
         say LWarning ("Skipping " ++ submoduleName ++ "...");;
         Ret (Some false)
       else
         say LSpin "Force update enabled, stashing changes...";;
         try_catch
           (now <- call NowISO;;
            stash (Some (stash_message now)) submodulePath;;
            say LSpinSucceed "Changes stashed";;
            Ret None)
           (fun _ => say LSpinFail "Failed to stash changes";;
                     Ret (Some false))
     else Ret None);;
  match returned with
  | Some v => Ret v
  | None => syncBranch submodulePath submoduleName
  end.

(** An element of [results]: [{ name, path, success }]. *)
Record SyncResult : Type := mkResult {
  res_name : string;
  res_path : string;
  res_success : bool
}.

(** [for (const submodule of submodules) { ...; results.push(...) }] *)
Fixpoint syncEach (force : bool) (submodules : list Submodule)
         (results : list SyncResult) : Prog (list SyncResult) :=
  match submodules with
  | [] => Ret results
  | submodule :: rest =>
      success <- syncSubmodule (sm_path submodule) (sm_name submodule) force;;
      syncEach force rest
        (results ++ [mkResult (sm_name submodule) (sm_path submodule) success])%list
  end.

Definition commitMessage (submoduleStatus : list string) : string :=
  "chore: update submodule references to latest commits" ++ Js.lf ++ Js.lf
  ++ Js.join Js.lf submoduleStatus.

(** The [try] block under "Update submodule references in parent repo",
    with its [catch]. *)
Definition updateParent : Prog unit :=
  try_catch
    (add "." ".";;
     hasChanges <- hasUncommittedChanges ".";;
     if hasChanges then
       say LInfo "Changes detected in parent repo:";;
       status <- gitHelpers_git "status";;
       say LConsole status;;
       commitChanges <- call (Confirm "Commit submodule updates to parent repo?");;
       if commitChanges then
         submoduleStatus <- getSubmoduleStatus;;
         commit (commitMessage submoduleStatus) ".";;
         say LSuccess "Committed submodule updates to parent repo"
       else
         say LWarning "Submodule updates staged but not committed"
     else
       say LSuccess "No submodule reference updates needed")
    (fun error => say LError "Failed to update parent repo";;
                  say LConsole error).

Definition summaryLine (result : SyncResult) : Line :=
  if res_success result
  then (LItem, Icons.check ++ " " ++ res_name result)
  else (LItem, Icons.cross ++ " " ++ res_name result ++ " (failed)").

Fixpoint sayAll (lines : list Line) : Prog unit :=
  match lines with
  | [] => Ret tt
  | l :: rest => Out l (sayAll rest)
  end.

Definition showSummary (results : list SyncResult) : Prog unit :=
  say LSection "Summary";;
  sayAll (map summaryLine results).

Definition showStatus : Prog unit :=
  try_catch
    (status <- getSubmoduleStatus;;
     say LConsole "";;
     say LInfo "Current submodule status:";;
     sayAll (map (fun line => (LConsole, "  " ++ line)) status))
    (fun _ => Ret tt).

(** [syncSubmodules] from "Sync each submodule" to its end. *)
Definition syncRegistered (force : bool) (submodules : list Submodule)
  : Prog unit :=
  results <- syncEach force submodules [];;
  say LSection "Updating submodule references in parent repo";;
  updateParent;;
  showSummary results;;
  showStatus;;
  say LSuccess ("ðŸŽ‰ Submodule sync complete!");;
  say LSection "Next Steps";;
  say LItem "If you made changes, push to parent repo: git push origin main";;
  say LItem "To start a new feature: npm run new-feature <service> <feature>".

(** [syncSubmodules({ force })] *)
Definition syncSubmodules (force : bool) : Prog unit :=
  say LConsole (Icons.sync ++ " Syncing Git Submodules");;
  say LConsole "==============================";;
  (if force
   then say LWarning "Force update enabled - will stash uncommitted changes"
   else Ret tt);;
  try_catch (call (FsAccess ".gitmodules"))
    (fun _ => say LError ".gitmodules not found. Please run from project root.";;
              Exit 1);;
  say LSection "Syncing submodule URLs";;
  say LSpin "Syncing submodule configuration...";;
  try_catch
    (_ <- @gitHelpers_git string "raw";;
     say LSpinSucceed "Synced submodule URLs")
    (fun error => say LSpinFail "Failed to sync submodule URLs";;
                  say LConsole error);;
  say LSpin "Initializing submodules...";;
  try_catch
    (initSubmodules;;
     say LSpinSucceed "Initialized submodules")
    (fun error => say LSpinFail "Failed to initialize submodules";;
                  say LConsole error);;
  submodules <- getSubmodules;;
  match submodules with
  | [] => say LWarning "No submodules found"
  | _ => syncRegistered force submodules
  end.

(** *** commands/new-feature.js *)

Fixpoint keepSubmodules (servicesDir services : list string)
  : Prog (list string) :=
  match servicesDir with
  | [] => Ret services
  | service :: rest =>
      isSub <- isSubmodule (path_join "services" service);;
      keepSubmodules rest
        (if isSub then (services ++ [service])%list else services)
  end.

Definition getAvailableServices : Prog (list string) :=
  try_catch
    (servicesDir <- call (FsReaddir "services");;
     keepSubmodules servicesDir [])
    (fun _ => Ret []).

Definition listServices (availableServices : list string) : Prog unit :=
  say LInfo "Available services:";;
  sayAll (map (fun service => (LItem, service)) availableServices).

(** [currentBranch !== defaultBranch], the left side possibly [null]. *)
Definition differs (currentBranch : option string) (defaultBranch : string)
  : bool :=
  match currentBranch with
  | Some b => negb (String.eqb b defaultBranch)
  | None => true
  end.

Definition feature_branch (featureName : string) : string :=
  "feature/" ++ featureName.

Definition nextSteps (serviceName servicePath featureBranch : string)
  : Prog unit :=
  say LSuccess ("ðŸŽ‰ Feature branch setup complete!");;
  say LSection "What's next:";;
  say LItem ("Make your changes in: " ++ servicePath);;
  say LItem ("Commit your changes: cd " ++ servicePath
             ++ " && git add . && git commit -m " ++ Js.dquote
             ++ "feat: your changes" ++ Js.dquote);;
  say LItem ("Push feature branch: cd " ++ servicePath
             ++ " && git push -u origin " ++ featureBranch);;
  say LItem ("Create PR: npm run create-pr " ++ serviceName);;
  say LItem "After PR merge: npm run parent-pr";;
  say LSection "Helpful commands:";;
  say LItem ("Check status: cd " ++ servicePath ++ " && git status");;
  say LItem ("List branches: cd " ++ servicePath ++ " && git branch -a");;
  say LItem ("Switch branches: cd " ++ servicePath
             ++ " && git checkout <branch-name>").

(** The decision on the feature branch, from "Check if feature branch
    already exists" to the end of its [if]: [true] when control goes on to
    the success message, [false] when the function returned [false]. *)
Definition enterFeatureBranch (servicePath featureBranch : string)
  : Prog bool :=
  branchExists <- branchExists featureBranch servicePath;;
  remoteBranchExists <- remoteBranchExists featureBranch servicePath;;
  if branchExists then
    say LWarning ("Feature branch '" ++ featureBranch
                  ++ "' already exists locally");;
    switchToBranch <- call (Confirm "Do you want to switch to it?");;
    if switchToBranch then
      try_catch
        (checkout featureBranch servicePath;;
         say LSuccess ("Switched to existing branch: " ++ featureBranch);;
         Ret true)
        (fun _ => say LError ("Failed to switch to " ++ featureBranch);;
                  Ret false)
    else
      say LInfo "Staying on current branch";;
      Ret false
  else if remoteBranchExists then
    say LWarning ("Feature branch '" ++ featureBranch
                  ++ "' exists on remote");;
    say LSpin "Checking out remote branch...";;
    try_catch
      (_ <- @gitHelpers_git unit "checkoutBranch";;
       say LSpinSucceed ("Checked out remote branch: " ++ featureBranch);;
       Ret true)
      (fun _ => say LSpinFail "Failed to checkout remote branch";;
                Ret false)
  else
    say LSpin ("Creating new feature branch: " ++ featureBranch);;
    try_catch
      (createBranch featureBranch servicePath;;
       say LSpinSucceed ("Created and switched to: " ++ featureBranch);;
       Ret true)
      (fun _ => say LSpinFail "Failed to create feature branch";;
                Ret false).

(** [createFeatureBranch] from "Check if feature branch already exists" to
    its end. *)
Definition finishFeature (serviceName servicePath featureBranch : string)
  : Prog bool :=
  entered <- enterFeatureBranch servicePath featureBranch;;
  if negb entered then Ret false else
  nextSteps serviceName servicePath featureBranch;;
  Ret true.

(** [createFeatureBranch] from "Get current and default branches" on: what
    runs once the working tree was found clean. *)
Definition branchFromDefault (serviceName featureName servicePath : string)
  : Prog bool :=
  currentBranch <- getCurrentBranch servicePath;;
  defaultBranch <- getDefaultBranch servicePath;;
  say LSpinSucceed "Status check complete";;
  say LItem ("Current branch: " ++ show_branch currentBranch "null");;
  say LItem ("Default branch: " ++ defaultBranch);;
  say LSpin "Fetching latest changes...";;
  fetched <- try_catch
               (fetch servicePath "origin";;
                say LSpinSucceed "Fetched latest changes";;
                Ret true)
               (fun _ => say LSpinFail "Failed to fetch changes";; Ret false);;
  if negb fetched then Ret false else
  switched <-
    (if differs currentBranch defaultBranch then
       say LSpin ("Switching to " ++ defaultBranch ++ "...");;
       try_catch
         (checkout defaultBranch servicePath;;
          say LSpinSucceed ("Switched to " ++ defaultBranch);;
          Ret true)
         (fun _ => say LSpinFail ("Failed to switch to " ++ defaultBranch);;
                   Ret false)
     else Ret true);;
  if negb switched then Ret false else
  say LSpin "Pulling latest changes...";;
  pulled <- try_catch
              (pull servicePath "origin" (Some defaultBranch);;
               say LSpinSucceed "Pulled latest changes";;
               Ret true)
              (fun _ => say LSpinFail "Failed to pull latest changes";;
                        Ret false);;
  if negb pulled then Ret false else
  let featureBranch := feature_branch featureName in
  finishFeature serviceName servicePath featureBranch.

(** [createFeatureBranch(serviceName, featureName)] *)
Definition createFeatureBranch (serviceName featureName : string)
  : Prog bool :=
  let servicePath := path_join "services" serviceName in
  say LSection "Creating New Feature Branch";;
  say LItem ("Service: " ++ serviceName);;
  say LItem ("Feature: " ++ featureName);;
  say LItem ("Path: " ++ servicePath);;
  found <- try_catch (call (FsAccess servicePath);; Ret true)
                     (fun _ => Ret false);;
  if negb found then
    say LError ("Service '" ++ serviceName ++ "' not found");;
    availableServices <- getAvailableServices;;
    (match availableServices with
     | [] => Ret tt
     | _ => listServices availableServices
     end);;
    Ret false
  else
  isRepo <- isGitRepo servicePath;;
  if negb isRepo then
    say LError ("'" ++ serviceName ++ "' is not a git repository");;
    say LInfo "Make sure it's properly initialized as a submodule";;
    Ret false
  else
  say LSpin "Checking current status...";;
  hasChanges <- hasUncommittedChanges servicePath;;
  if hasChanges then
    say LSpinFail "Uncommitted changes detected";;
    say LError "Please commit or stash your changes first";;
    try_catch
      (status <- gitHelpers_git "status";;
       say LConsole status)
      (fun _ => Ret tt);;
    Ret false
  else
  branchFromDefault serviceName featureName servicePath.

(** [newFeature(serviceName, featureName)]; a missing argument is the
    empty string. *)
Definition newFeature (serviceName featureName : string) : Prog bool :=
  if negb (Js.truthy serviceName) || negb (Js.truthy featureName) then
    say LError "Invalid arguments";;
    say LConsole "Usage: npm run new-feature <service-name> <feature-name>";;
    say LConsole "";;
    availableServices <- getAvailableServices;;
    (match availableServices with
     | [] => say LWarning "No services directory found"
     | _ => listServices availableServices
     end);;
    Ret false
  else createFeatureBranch serviceName featureName.

(** *** The link-PR operation *)

(** Modelled from the spec: the two preconditions of [createLinkPR] (spec
    section 4.3), as the errors it ends with when one does not hold. *)
Inductive LinkError : Type :=
| NoFeatureBranch      (* detached, or the default branch is checked out *)
| NothingToPropose.    (* no commit that is not on the default branch *)

Variable link_body : string -> string -> string.

(** Modelled from the spec: the title "service name : feature name", the
    feature name being the branch name without "feature/". *)
Definition link_title (serviceName branch : string) : string :=
  serviceName ++ " : " ++ Js.replace "feature/" "" branch.

(** Modelled from the spec: [createLinkPR] lives in
    commands/create-submodule-pr.js, which is not among the sources.  The
    spec (section 4.3): the repository must have a branch other than
    default checked out, with at least one commit not on default; push the
    branch to origin, setting the upstream; query for an existing open PR
    with this branch as head and, if found, return it unchanged; otherwise
    compose a title (service name : feature name, from the branch name)
    and a body and request creation, honouring [draft].  The helpers it
    calls ([getCurrentBranch], [getDefaultBranch], [push],
    [getPRForBranch], [createPR]) are the ones of utils/git.js above; the
    count of commits ahead of default is the call [CommitsAhead], the
    wording of the body is [link_body]. *)
Definition createLinkPR (serviceName : string) (draft : bool)
  : Prog (LinkError + PullRequest) :=
  let dir := path_join "services" serviceName in
  currentBranch <- getCurrentBranch dir;;
  defaultBranch <- getDefaultBranch dir;;
  match on_branch currentBranch with
  | None => Ret (inl NoFeatureBranch)
  | Some branch =>
      if String.eqb branch defaultBranch then Ret (inl NoFeatureBranch) else
      ahead <- call (CommitsAhead dir defaultBranch branch);;
      if Nat.eqb ahead 0 then Ret (inl NothingToPropose) else
      push dir true (Some branch);;
      existing <- getPRForBranch branch dir;;
      match existing with
      | Some pr => Ret (inr pr)
      | None =>
          pr <- createPR (link_title serviceName branch)
                         (link_body serviceName branch)
                         (Some defaultBranch) draft dir;;
          Ret (inr pr)
      end
  end.

End Commands.

(** How a call of the branch step treats what is uncommitted in a working
    tree: the inspecting calls, and a fetch, pull or checkout that resolved,
    are expected to leave it as it is. *)
Definition leaves_tree (c : Call) (resolved : bool) : bool :=
  read_only c
  || (resolved && match c with
                  | GitFetch _ _ | GitPull _ _ | GitCheckout _ _ => true
                  | _ => false
                  end).

(** The queries [syncSubmodule] awaits outside any [try]: the status behind
    [hasUncommittedChanges] and [getCurrentBranch], and the branch listing in
    the [catch] of [getDefaultBranch]. *)
Definition unguarded (c : Call) : bool :=
  match c with
  | GitStatus _ => true
  | GitBranch _ [] => true
  | _ => false
  end.

Definition guarded (c : Call) : bool := negb (unguarded c).

(** The printed lines hold the heading "Summary" followed by one line for
    each of [results], in order. *)
Definition summary_printed (lines : list Line) (results : list SyncResult)
  : Prop :=
  exists pre post,
    lines = (pre ++ (LSection, "Summary") :: map summaryLine results
                 ++ post)%list.

(** A request to create a pull request: [gh pr create ...]. *)
Definition is_pr_create (c : Call) : bool :=
  match c with
  | Gh _ (a :: b :: _) => String.eqb a "pr" && String.eqb b "create"
  | _ => false
  end.

(** [l] ends with the call [c]. *)
Definition ends_with (l : list Call) (c : Call) : Prop :=
  exists pre, l = (pre ++ [c])%list.

Arguments stash_message : simpl never.
Arguments getAvailableServices : simpl never.
Arguments syncSubmodule : simpl never.
Arguments syncBranch : simpl never.
Arguments syncEach : simpl never.
Arguments syncRegistered : simpl never.
Arguments updateParent : simpl never.
Arguments showSummary : simpl never.
Arguments showStatus : simpl never.
Arguments or_null : simpl never.
Arguments on_branch : simpl never.
Arguments getDefaultBranch : simpl never.
Arguments finishFeature : simpl never.
Arguments feature_branch : simpl never.

(** The two queries of [getDefaultBranch]. *)
Definition symbolic_ref (dir : string) : Call :=
  GitRaw dir ["symbolic-ref"; "refs/remotes/origin/HEAD"].

Definition branch_listing (dir : string) : Call :=
  GitBranch dir [].

(** ** A small simulated checkout, to run the commands on

    A world of repositories keyed by directory, with just enough of the
    behaviour of git, simple-git and [gh] to drive every path of the
    commands: it serves the concrete runs below and is no part of the
    commands' model. *)
From Stdlib Require DecimalString DecimalNat DecimalFacts.

Module Sim.

Record Repo : Type := mkRepo {
  head : option string;            (* checked-out branch; None: detached *)
  changes : list string;           (* tracked paths with uncommitted changes *)
  untracked : list string;         (* paths git does not track *)
  staged : list string;            (* paths in the index *)
  stashes : list (string * list string);
  locals : list string;            (* local branches *)
  remotes : list string;           (* remote-tracking branches, origin/<b> *)
  origin_head : option string;     (* target of refs/remotes/origin/HEAD *)
  online : bool;                   (* does origin answer *)
  ahead : nat;                     (* commits of head not on default *)
  commits : list string;           (* messages of new commits *)
  listable : bool                  (* can the branches be listed: false when
                                      a ref points at a missing object *)
}.

Record World : Type := mkWorld {
  files : list string;             (* other paths that exist *)
  services : list string;          (* entries of services/ *)
  repos : list (string * Repo);    (* git working directories *)
  registry : list Submodule;
  submodule_status : string;       (* output of git submodule status *)
  clock : nat;
  answers : list bool;             (* answers to prompts, in order *)
  open_prs : list (string * string * (nat * string))
                                   (* dir, head, number and address *)
}.

Fixpoint find (dir : string) (l : list (string * Repo)) : option Repo :=
  match l with
  | [] => None
  | (d, r) :: l' => if String.eqb d dir then Some r else find dir l'
  end.

Fixpoint store (dir : string) (r : Repo) (l : list (string * Repo))
  : list (string * Repo) :=
  match l with
  | [] => []
  | (d, r0) :: l' =>
      if String.eqb d dir then (d, r) :: l' else (d, r0) :: store dir r l'
  end.

Definition put (dir : string) (r : Repo) (w : World) : World :=
  mkWorld (files w) (services w) (store dir r (repos w)) (registry w)
          (submodule_status w) (clock w) (answers w) (open_prs w).

Definition tick (w : World) : World :=
  mkWorld (files w) (services w) (repos w) (registry w)
          (submodule_status w) (S (clock w)) (answers w) (open_prs w).

Definition answered (w : World) : World :=
  mkWorld (files w) (services w) (repos w) (registry w)
          (submodule_status w) (clock w) (tl (answers w)) (open_prs w).

Definition opened (dir branch : string) (pr : nat * string) (w : World)
  : World :=
  mkWorld (files w) (services w) (repos w) (registry w)
          (submodule_status w) (clock w) (answers w)
          (open_prs w ++ [(dir, branch, pr)])%list.

Definition digit (n : nat) : string :=
  String (ascii_of_nat (48 + Nat.modulo n 10)) EmptyString.

Definition timestamp (n : nat) : string :=
  "2024-05-01T09:30:00.00" ++ digit n ++ "Z".

Definition decimal (n : nat) : string :=
  DecimalString.NilEmpty.string_of_uint (Nat.to_uint n).

(** [status().isClean()]: no file of any kind is reported, untracked ones
    included. *)
Definition clean (r : Repo) : bool :=
  match changes r, untracked r, staged r with
  | [], [], [] => true
  | _, _, _ => false
  end.

Fixpoint find_pr (dir branch : string)
         (l : list (string * string * (nat * string)))
  : option (nat * string) :=
  match l with
  | [] => None
  | (d, b, pr) :: l' =>
      if String.eqb d dir && String.eqb b branch then Some pr
      else find_pr dir branch l'
  end.

(** The address [gh pr create] prints for the pull request it opened. *)
Definition address (dir : string) (n : nat) : string :=
  "https://github.com/acme/" ++ Js.replace "services/" "" dir
  ++ "/pull/" ++ decimal n.

(** What [gh pr list --json number,url --jq .[0]] prints for a pull
    request: the JSON object with its two fields. *)
Definition render (pr : nat * string) : string :=
  "{" ++ Js.dquote ++ "number" ++ Js.dquote ++ ":" ++ decimal (fst pr)
  ++ "," ++ Js.dquote ++ "url" ++ Js.dquote ++ ":"
  ++ Js.dquote ++ snd pr ++ Js.dquote ++ "}".

(** The characters before the first double quote. *)
Fixpoint take_unquoted (s : string) : string :=
  match s with
  | EmptyString => EmptyString
  | String c s' =>
      if Ascii.eqb c (ascii_of_nat 34) then EmptyString
      else String c (take_unquoted s')
  end.

(** [JSON.parse] on the texts [gh pr list] prints here: the object of a
    pull request, its number a JSON number, or [null]; any other text is
    refused with a [SyntaxError]. *)
Definition parse (s : string) : Result (option PullRequest) :=
  if String.eqb s "null" then Ok None else
  match Js.strip_prefix ("{" ++ Js.dquote ++ "number" ++ Js.dquote ++ ":") s
  with
  | None => Err "SyntaxError: Unexpected token"
  | Some rest =>
      let ds := Js.take_digits rest in
      match Js.strip_prefix (ds ++ "," ++ Js.dquote ++ "url" ++ Js.dquote
                             ++ ":" ++ Js.dquote) rest,
            DecimalString.NilEmpty.uint_of_string ds with
      | Some rest', Some d =>
          let url := take_unquoted rest' in
          if Js.truthy ds && String.eqb rest' (url ++ Js.dquote ++ "}")
          then Ok (Some (mkPR (PRJson (Nat.of_uint d)) (Some url)))
          else Err "SyntaxError: Unexpected token"
      | _, _ => Err "SyntaxError: Unexpected token"
      end
  end.

Definition join_path (a b : string) : string := a ++ "/" ++ b.

(** The repository at [dir] is there and [P] holds of it. *)
Definition holds_at (dir : string) (P : Repo -> Prop) (w : World) : Prop :=
  exists r, find dir (repos w) = Some r /\ P r.

Fixpoint same_args (a b : list string) : bool :=
  match a, b with
  | [], [] => true
  | x :: a', y :: b' => String.eqb x y && same_args a' b'
  | _, _ => false
  end.

(** The repository git works in when it is run in [dir]: the one rooted
    there or, for another directory that exists, the parent's, which git
    finds by walking up. *)
Definition root (dir : string) (w : World) : string :=
  match find dir (repos w) with
  | Some _ => dir
  | None => if Js.includes dir (files w) then "." else dir
  end.

(** Applies [f] to the repository at [dir], or fails as git does outside a
    repository. *)
Definition in_repo {A : Type} (dir : string) (w : World)
           (f : Repo -> Result A * World) : Result A * World :=
  match find dir (repos w) with
  | Some r => f r
  | None => (Err "fatal: not a git repository", w)
  end.

Definition with_head (b : string) (ls : list string) (r : Repo) : Repo :=
  mkRepo (Some b) (changes r) (untracked r) (staged r) (stashes r) ls
         (remotes r) (origin_head r) (online r) (ahead r) (commits r)
         (listable r).

(** After a push of [b]: origin has the branch. *)
Definition pushed (b : string) (r : Repo) : Repo :=
  mkRepo (head r) (changes r) (untracked r) (staged r) (stashes r) (locals r)
         (if Js.includes ("origin/" ++ b) (remotes r)
          then remotes r else (remotes r ++ [("origin/" ++ b)%string])%list)
         (origin_head r) (online r) (ahead r) (commits r) (listable r).

Definition handler (c : Call) (w : World) : Result (resp c) * World :=
  match c as c0 return Result (resp c0) * World with
  | FsAccess p =>
      if Js.includes p (files w) || Js.includes p (map fst (repos w))
      then (Ok tt, w) else (Err "ENOENT: no such file or directory", w)
  | FsReaddir p =>
      if String.eqb p "services" && Js.includes p (files w)
      then (Ok (services w), w)
      else (Err "ENOENT: no such file or directory", w)
  | ReadRegistry => (Ok (registry w), w)
  | GitStatus dir =>
      in_repo (root dir w) w (fun r =>
        (Ok (mkStatus (Some (match head r with Some b => b | None => "HEAD" end))
                      (clean r)), w))
  | GitRaw dir args =>
      if same_args args ["symbolic-ref"; "refs/remotes/origin/HEAD"] then
        in_repo (root dir w) w (fun r =>
          match origin_head r with
          | Some b => (Ok ("refs/remotes/origin/" ++ b ++ Js.lf), w)
          | None => (Err "fatal: ref refs/remotes/origin/HEAD is not a symbolic ref", w)
          end)
      else if same_args args ["submodule"; "status"] then
        (Ok (submodule_status w), w)
      else (Err "unsupported", w)
  | GitBranch dir args =>
      (* branch() lists as git branch -a does, the remote-tracking branches
         under remotes/; branch(['-r']) lists them as origin/<b> *)
      in_repo (root dir w) w (fun r =>
        if negb (listable r) then (Err "fatal: missing object for a ref", w)
        else
          match args with
          | [] => (Ok (locals r ++ map (append "remotes/") (remotes r))%list, w)
          | _ => if same_args args ["-r"] then (Ok (remotes r), w)
                 else (Err "unsupported", w)
          end)
  | GitBranchLocal dir =>
      in_repo (root dir w) w (fun r =>
        if negb (listable r) then (Err "fatal: missing object for a ref", w)
        else (Ok (locals r), w))
  | GitFetch dir _ =>
      in_repo (root dir w) w (fun r =>
        if online r then (Ok tt, w)
        else (Err "fatal: Could not resolve host", w))
  | GitPull dir _ =>
      in_repo (root dir w) w (fun r =>
        if online r then (Ok tt, w)
        else (Err "fatal: Could not resolve host", w))
  | GitCheckout dir b =>
      in_repo (root dir w) w (fun r =>
        if Js.includes b (locals r)
        then (Ok tt, put (root dir w) (with_head b (locals r) r) w)
        else if Js.includes ("origin/" ++ b) (remotes r)
        then (Ok tt, put (root dir w) (with_head b (locals r ++ [b])%list r) w)
        else (Err "error: pathspec did not match any file(s) known to git", w))
  | GitCheckoutLocalBranch dir b =>
      in_repo (root dir w) w (fun r =>
        if Js.includes b (locals r)
        then (Err "fatal: a branch with that name already exists", w)
        else (Ok tt, put (root dir w) (with_head b (locals r ++ [b])%list r) w))
  | GitPush dir _ _ branch =>
      in_repo (root dir w) w (fun r =>
        match online r, branch with
        | true, Some b => (Ok tt, put (root dir w) (pushed b r) w)
        | _, _ => (Err "fatal: unable to push", w)
        end)
  | GitAdd dir _ =>
      (* add('.'): every pending path, untracked ones included *)
      in_repo (root dir w) w (fun r =>
        (Ok tt,
         put (root dir w)
             (mkRepo (head r) [] [] (staged r ++ changes r ++ untracked r)%list
                (stashes r) (locals r) (remotes r) (origin_head r) (online r)
                (ahead r) (commits r) (listable r)) w))
  | GitCommit dir message =>
      in_repo (root dir w) w (fun r =>
        match staged r with
        | [] => (Err "nothing to commit", w)
        | _ =>
            (Ok tt,
             put (root dir w)
                 (mkRepo (head r) (changes r) (untracked r) [] (stashes r)
                    (locals r) (remotes r) (origin_head r) (online r) (ahead r)
                    (commits r ++ [message])%list (listable r)) w)
        end)
  | GitStash dir args =>
      (* git stash push saves what is staged or changed in tracked files;
         untracked files stay where they are, and with nothing else to
         save it prints "No local changes to save" and makes no entry *)
      in_repo (root dir w) w (fun r =>
        match changes r, staged r with
        | [], [] => (Ok tt, w)
        | _, _ =>
          let message := match args with
                         | [_; _; m] => m
                         | _ => "WIP"
                         end in
          (Ok tt,
           put (root dir w)
               (mkRepo (head r) [] (untracked r) []
                  ((message, (staged r ++ changes r)%list) :: stashes r)
                  (locals r) (remotes r) (origin_head r) (online r)
                  (ahead r) (commits r) (listable r)) w)
        end)
  | GitSubmoduleInit => (Ok tt, w)
  | Confirm _ => (Ok (hd false (answers w)), answered w)
  | NowISO => (Ok (timestamp (clock w)), tick w)
  | Gh dir args =>
      (* gh pr list prints the JSON of the first match and nothing when
         there is none; gh pr create prints the new address *)
      in_repo (root dir w) w (fun r =>
        if negb (online r) then (Err "gh: request failed", w) else
        match args with
        | a :: b :: rest =>
            if negb (String.eqb a "pr") then (Err "gh: unknown command", w)
            else if String.eqb b "list" then
              match rest with
              | _ :: branch :: _ =>
                  match find_pr (root dir w) branch (open_prs w) with
                  | Some pr => (Ok (render pr), w)
                  | None => (Ok "", w)
                  end
              | _ => (Ok "", w)
              end
            else if String.eqb b "create" then
              match head r with
              | Some branch =>
                  match find_pr (root dir w) branch (open_prs w) with
                  | Some _ =>
                      (Err "a pull request for this branch already exists", w)
                  | None =>
                      let n := S (List.length (open_prs w)) in
                      let url := address (root dir w) n in
                      (Ok url, opened (root dir w) branch (n, url) w)
                  end
              | None => (Err "could not determine current branch", w)
              end
            else (Err "gh: unknown command", w)
        | _ => (Err "gh: unknown command", w)
        end)
  | CommitsAhead dir _ _ =>
      in_repo (root dir w) w (fun r => (Ok (ahead r), w))
  end.

End Sim.

(** ** Scenarios *)
Module Scenario.
Import Sim.

(** A clean repository on [main], tracking a reachable origin. *)
Definition repo : Repo :=
  mkRepo (Some "main") [] [] [] [] ["main"] ["origin/main"] (Some "main")
         true 0 [] true.

Definition with_changes (paths : list string) (r : Repo) : Repo :=
  mkRepo (head r) paths (untracked r) (staged r) (stashes r) (locals r)
         (remotes r) (origin_head r) (online r) (ahead r) (commits r)
         (listable r).

(** Files dropped into the working tree and never added. *)
Definition with_untracked (paths : list string) (r : Repo) : Repo :=
  mkRepo (head r) (changes r) paths (staged r) (stashes r) (locals r)
         (remotes r) (origin_head r) (online r) (ahead r) (commits r)
         (listable r).

Definition unreachable (r : Repo) : Repo :=
  mkRepo (head r) (changes r) (untracked r) (staged r) (stashes r) (locals r)
         (remotes r) (origin_head r) false (ahead r) (commits r) (listable r).

Definition detached (r : Repo) : Repo :=
  mkRepo None (changes r) (untracked r) (staged r) (stashes r) (locals r)
         (remotes r) (origin_head r) (online r) (ahead r) (commits r)
         (listable r).

Definition with_remote_branch (b : string) (r : Repo) : Repo :=
  mkRepo (head r) (changes r) (untracked r) (staged r) (stashes r) (locals r)
         (remotes r ++ [("origin/" ++ b)%string])%list
         (origin_head r) (online r) (ahead r) (commits r) (listable r).

Definition on_feature (b : string) (n : nat) (r : Repo) : Repo :=
  mkRepo (Some b) (changes r) (untracked r) (staged r) (stashes r)
         (locals r ++ [b])%list (remotes r) (origin_head r) (online r) n
         (commits r) (listable r).

(** A repository whose remote has the one branch [master] and no symbolic
    default: [refs/remotes/origin/HEAD] was never set. *)
Definition master_only : Repo :=
  mkRepo (Some "master") [] [] [] [] ["master"] ["origin/master"] None
         true 0 [] true.

Definition api : Submodule :=
  mkSubmodule "api" "services/api" "git@github.com:acme/api.git".
Definition ui : Submodule :=
  mkSubmodule "ui" "services/ui" "git@github.com:acme/ui.git".

Definition world (apiRepo uiRepo parent : Repo) : World :=
  mkWorld [".gitmodules"; "services"] ["api"; "ui"]
          [("services/api", apiRepo); ("services/ui", uiRepo); (".", parent)]
          [api; ui]
          (" 1f3a services/api (heads/main)" ++ Js.lf
           ++ "+9c2e services/ui (heads/main)" ++ Js.lf)
          0 [] [].

(** [api] has uncommitted work, [ui] cannot reach its remote. *)
Definition dirty_and_offline : World :=
  world (with_changes ["src/app.js"] repo) (unreachable repo) repo.

(** [api] is pinned at a revision, [ui] is on [main]. *)
Definition pinned : World :=
  world (detached repo) repo repo.

(** [ui] advanced; the parent also has an edited README. *)
Definition advanced : World :=
  world repo repo (with_changes ["services/ui"; "README.md"] repo).

(** [feature/login] exists on origin of [api] only. *)
Definition remote_feature : World :=
  world (with_remote_branch "feature/login" repo) repo repo.

(** [api] has [feature/login] checked out, two commits ahead. *)
Definition feature_work : World :=
  world (on_feature "feature/login" 2 repo) repo repo.

(** No symbolic default for origin, and a ref that points at a missing
    object, so that the branches cannot be listed. *)
Definition with_broken_ref (r : Repo) : Repo :=
  mkRepo (head r) (changes r) (untracked r) (staged r) (stashes r) (locals r)
         (remotes r) None (online r) (ahead r) (commits r) false.

(** [api] is pinned at a revision and has a broken ref; [ui] is in order. *)
Definition broken_ref : World :=
  world (with_broken_ref (detached repo)) repo repo.

(** The only change in [api] is a new file that was never added. *)
Definition untracked_only : World :=
  world (with_untracked ["notes.md"] repo) repo repo.

(** [api] is pinned at a revision of a remote that has [master] and nothing
    else, with no symbolic default. *)
Definition pinned_on_master : World :=
  world (detached master_only) repo repo.

(** A wording for the body of a pull request. *)
Definition body (serviceName branch : string) : string :=
  "What changed: " ++ branch ++ " of " ++ serviceName.

(** The first pull request the simulated host opens for [api], as
    [createPR] returns it from the printed address and as the lookup
    returns it from the JSON. *)
Definition created_pr : PullRequest :=
  mkPR PRUndefined (Some "https://github.com/acme/api/pull/1").

Definition listed_pr : PullRequest :=
  mkPR (PRJson 1) (Some "https://github.com/acme/api/pull/1").

(** What [createFeatureBranch "api" "login"] does in [remote_feature] before
    it comes to the decision on the feature branch. *)
Definition before_decision : list Event :=
  [ EvOut (LSection, "Creating New Feature Branch");
    EvOut (LItem, "Service: api"); EvOut (LItem, "Feature: login");
    EvOut (LItem, "Path: services/api");
    EvCall (FsAccess "services/api") true;
    EvCall (GitStatus "services/api") true;
    EvOut (LSpin, "Checking current status...");
    EvCall (GitStatus "services/api") true;
    EvCall (GitStatus "services/api") true;
    EvCall (symbolic_ref "services/api") true;
    EvOut (LSpinSucceed, "Status check complete");
    EvOut (LItem, "Current branch: main");
    EvOut (LItem, "Default branch: main");
    EvOut (LSpin, "Fetching latest changes...");
    EvCall (GitFetch "services/api" "origin") true;
    EvOut (LSpinSucceed, "Fetched latest changes");
    EvOut (LSpin, "Pulling latest changes...");
    EvCall (GitPull "services/api" (Some ("origin", "main"))) true;
    EvOut (LSpinSucceed, "Pulled latest changes") ].

End Scenario.

(** * The rest of utils/git.js, the commands' other paths, index.js

    What follows embeds code the properties above did not need: the scan of
    [.gitmodules], the branch and registry queries of [gitHelpers], and the
    [status], [sync] and [new-feature] actions of index.js. *)

(** ** Further string methods *)
Module JsStr.

(** [s.startsWith(p)] *)
Definition startsWith (p s : string) : bool :=
  match Js.strip_prefix p s with
  | Some _ => true
  | None => false
  end.

(** [s.includes(p)] on strings: [p] occurs somewhere in [s]. *)
Fixpoint includes (p s : string) : bool :=
  startsWith p s
  || match s with
     | EmptyString => false
     | String _ s' => includes p s'
     end.

(** [s.endsWith(p)] *)
Definition endsWith (p s : string) : bool :=
  startsWith (Js.rev_string p) (Js.rev_string s).

(** The characters [.] does not match in a regular expression: LF, CR,
    U+2028 and U+2029. *)
Definition line_terminators : list string :=
  map Js.bytes [ [10]; [13]; [226; 128; 168]; [226; 128; 169] ].

(** The capture and the closing quote and bracket of the header pattern,
    matched at the start of [s]: the longest non-empty run of characters
    other than line terminators that a double quote and a closing bracket
    follow. *)
Fixpoint quoted_name (s : string) : option string :=
  match s with
  | EmptyString => None
  | String c s' =>
      match Js.drop_token line_terminators s with
      | Some _ => None
      | None =>
          match quoted_name s' with
          | Some n => Some (String c n)
          | None =>
              if startsWith (Js.dquote ++ "]") s'
              then Some (String c EmptyString)
              else None
          end
      end
  end.

(** [line.match(...)?.[1]] for the header pattern, an opening bracket, the
    word submodule, a space and a double-quoted capture [(.+)] before the
    closing bracket: the capture at the leftmost place where the pattern
    matches. *)
Fixpoint submodule_name (line : string) : option string :=
  match
    match Js.strip_prefix ("[submodule " ++ Js.dquote) line with
    | Some rest => quoted_name rest
    | None => None
    end
  with
  | Some n => Some n
  | None =>
      match line with
      | EmptyString => None
      | String _ line' => submodule_name line'
      end
  end.

End JsStr.

(** ** utils/git.js: the scan of [.gitmodules] in [getSubmodules] *)

(** An element of [submodules] while the file is scanned: [{ name }], to
    which [path] and [url] are added when their lines are met. *)
Record Entry : Type := mkEntry {
  entry_name : string;
  entry_path : option string;
  entry_url : option string
}.

(** [line.split('=')[1].trim()]; reading [trim] off a second field that is
    not there would throw. *)
Definition field_value (line : string) : Result string :=
  match Js.split "=" line with
  | _ :: v :: _ => Ok (Js.trim v)
  | _ => Err "TypeError: Cannot read properties of undefined (reading 'trim')"
  end.

(** [currentSubmodule] is the object pushed last, so an assignment to one of
    its fields shows in the last element of [submodules]. *)
Fixpoint update_current (f : Entry -> Entry) (submodules : list Entry)
  : list Entry :=
  match submodules with
  | [] => []
  | [current] => [f current]
  | e :: rest => e :: update_current f rest
  end.

(** The body of the loop over the lines.  [currentSubmodule] is [null]
    exactly as long as nothing was pushed. *)
Definition scanLine (submodules : list Entry) (line : string)
  : Result (list Entry) :=
  if JsStr.startsWith "[submodule" line then
    match JsStr.submodule_name line with
    | Some name =>
        if Js.truthy name
        then Ok (submodules ++ [mkEntry name None None])%list
        else Ok submodules
    | None => Ok submodules
    end
  else
    match submodules with
    | [] => Ok submodules
    | _ =>
        if JsStr.includes "path =" line then
          match field_value line with
          | Ok v =>
              Ok (update_current
                    (fun e => mkEntry (entry_name e) (Some v) (entry_url e))
                    submodules)
          | Err e => Err e
          end
        else if JsStr.includes "url =" line then
          match field_value line with
          | Ok v =>
              Ok (update_current
                    (fun e => mkEntry (entry_name e) (entry_path e) (Some v))
                    submodules)
          | Err e => Err e
          end
        else Ok submodules
    end.

Fixpoint scanLines (lines : list string) (submodules : list Entry)
  : Result (list Entry) :=
  match lines with
  | [] => Ok submodules
  | line :: rest =>
      match scanLine submodules line with
      | Ok submodules' => scanLines rest submodules'
      | Err e => Err e
      end
  end.

(** What [getSubmodules] makes of the text of [.gitmodules], inside its
    [try]. *)
Definition scanGitmodules (gitmodulesContent : string) : Result (list Entry) :=
  scanLines (Js.split Js.LF gitmodulesContent) [].

(** ** utils/git.js: merged branches, registered paths *)

(** [result.split('\n').map(b => b.trim().replace('* ', ''))
          .filter(b => b && !['main', 'master', 'develop'].includes(b))] *)
Definition mergedNames (result : string) : list string :=
  filter (fun b => Js.truthy b
                   && negb (Js.includes b ["main"; "master"; "develop"]))
         (map (fun b => Js.replace "* " "" (Js.trim b))
              (Js.split Js.LF result)).

Definition getMergedBranches (targetBranch dir : string)
  : Prog (list string) :=
  result <- call (GitRaw dir ["branch"; "--merged"; targetBranch]);;
  Ret (mergedNames result).

Definition registered_paths_query : list string :=
  ["config"; "--file"; ".gitmodules"; "--get-regexp";
   "^submodule\..*\.path$"].

Definition isRegisteredSubmodule (path : string) : Prog bool :=
  try_catch
    (result <- call (GitRaw "." registered_paths_query);;
     let lines := statusLines result in
     Ret (existsb (fun line => JsStr.includes path line) lines))
    (fun _ => Ret false).

(** ** What a program can do, whatever its calls resolve with *)

(** Every call the program can come to satisfies [C]; it can end with an
    exception only if [throws], with [process.exit] only if [exits], and
    then with code 1. *)
Inductive always {A : Type} (C : Call -> bool) (throws exits : bool)
  : Prog A -> Prop :=
| always_Ret (a : A) : always C throws exits (Ret a)
| always_Throw (e : Error) : throws = true -> always C throws exits (Throw e)
| always_Exit : exits = true -> always C throws exits (Exit 1)
| always_Out (l : Line) (k : Prog A) :
    always C throws exits k -> always C throws exits (Out l k)
| always_Do (c : Call) (k : Result (resp c) -> Prog A) :
    C c = true -> (forall r, always C throws exits (k r)) ->
    always C throws exits (Do c k).

Definition ends {A : Type} (throws exits : bool) (o : Outcome A) : bool :=
  match o with
  | Returned _ => true
  | Thrown _ => throws
  | Exited n => exits && Nat.eqb n 1
  end.

(** No call of [danger] is made before the first event of [gate]. *)
Fixpoint gated (gate : Event -> bool) (danger : Call -> bool)
         (t : list Event) : bool :=
  match t with
  | [] => true
  | ev :: t' =>
      gate ev
      || (match ev with
          | EvCall c _ => negb (danger c)
          | EvOut _ => true
          end && gated gate danger t')
  end.

(** Calls that move a checkout to another commit or branch. *)
Definition moves_head (c : Call) : bool :=
  match c with
  | GitPull _ _ | GitCheckout _ _ | GitCheckoutLocalBranch _ _ => true
  | _ => false
  end.

Definition fetched (dir : string) (ev : Event) : bool :=
  match ev with
  | EvCall (GitFetch d r) true => String.eqb d dir && String.eqb r "origin"
  | _ => false
  end.

(** Calls on the file system alone. *)
Definition is_fs (c : Call) : bool :=
  match c with
  | FsAccess _ | FsReaddir _ => true
  | _ => false
  end.

(** Calls that record or publish work: stash, stage, commit, push. *)
Definition records_work (c : Call) : bool :=
  match c with
  | GitStash _ _ | GitAdd _ _ | GitCommit _ _ | GitPush _ _ _ _ => true
  | _ => false
  end.

Definition is_stash (c : Call) : bool :=
  match c with
  | GitStash _ _ => true
  | _ => false
  end.

(** What [syncSubmodules] is written to do and never comes to: the commit
    of the parent and its prompt, and [git submodule sync]. *)
Definition out_of_reach (c : Call) : bool :=
  match c with
  | GitCommit _ _ | Confirm _ => true
  | GitRaw _ args => Sim.same_args args ["submodule"; "sync"]
  | _ => false
  end.

(** [git stash push -m <message>] with the message of [syncSubmodule]. *)
Definition labelled_stash (args : list string) : bool :=
  match args with
  | [a; b; m] =>
      String.eqb a "push" && String.eqb b "-m"
      && JsStr.startsWith "Auto-stash before sync " m
  | _ => false
  end.

(** The calls of [syncSubmodules]: file tests, status, the clock and a
    labelled stash under [--force] only, fetch, pull and checkout, the two
    queries of [getDefaultBranch], the registry and its initialisation,
    staging everything in the parent, and the submodule listing. *)
Definition sync_calls (force : bool) (c : Call) : bool :=
  match c with
  | FsAccess _ | GitStatus _ | GitPull _ _ | GitCheckout _ _
  | GitSubmoduleInit | ReadRegistry => true
  | GitFetch _ remote => String.eqb remote "origin"
  | GitBranch _ args => Sim.same_args args []
  | NowISO => force
  | GitStash _ args => force && labelled_stash args
  | GitRaw _ args =>
      Sim.same_args args ["symbolic-ref"; "refs/remotes/origin/HEAD"]
      || Sim.same_args args ["submodule"; "status"]
  | GitAdd dir files => String.eqb dir "." && String.eqb files "."
  | _ => false
  end.

(** The calls of [newFeature]: file tests, status, branch listings and the
    symbolic default, fetch, pull, checkout, branch creation, the prompt. *)
Definition feature_calls (c : Call) : bool :=
  match c with
  | FsAccess _ | FsReaddir _ | GitStatus _ | GitBranchLocal _ | GitPull _ _
  | GitCheckout _ _ | GitCheckoutLocalBranch _ _ | Confirm _ => true
  | GitFetch _ remote => String.eqb remote "origin"
  | GitBranch _ args => Sim.same_args args [] || Sim.same_args args ["-r"]
  | GitRaw _ args =>
      Sim.same_args args ["symbolic-ref"; "refs/remotes/origin/HEAD"]
  | _ => false
  end.

(** ** index.js: the actions of [status], [sync] and [new-feature] *)

(** [icons.info] of utils/colors.js: U+2139 U+FE0F. *)
Definition icon_info : string := "ℹ️".

Section Actions.
Variable path_join : string -> string -> string.

(** [for (const submodule of submodules) { ... }] of the [status] action *)
Fixpoint statusEach (submodules : list Submodule) : Prog unit :=
  match submodules with
  | [] => Ret tt
  | submodule :: rest =>
      isSub <- isSubmodule path_join (sm_path submodule);;
      (if isSub then
         subBranch <- getCurrentBranch (sm_path submodule);;
         subHasChanges <- hasUncommittedChanges (sm_path submodule);;
         let status := if subHasChanges then "has changes" else "clean" in
         say LItem (sm_name submodule ++ ": " ++ show_branch subBranch "null"
                    ++ " (" ++ status ++ ")")
       else
         say LItem (sm_name submodule ++ ": not initialized"));;
      statusEach rest
  end.

(** The action of [program.command('status')]. *)
Definition statusAction : Prog unit :=
  say LConsole (icon_info ++ " Current Submodule Status");;
  say LConsole "===================================";;
  try_catch
    (isRepo <- isGitRepo ".";;
     if negb isRepo then say LError "Not in a git repository" else
     currentBranch <- getCurrentBranch ".";;
     say LItem ("Current branch: " ++ show_branch currentBranch "null");;
     hasChanges <- hasUncommittedChanges ".";;
     (if hasChanges
      then say LItem "Status: Has uncommitted changes"
      else say LItem "Status: Clean");;
     submodules <- getSubmodules;;
     match submodules with
     | [] => say LItem "No submodules found"
     | _ =>
         say LConsole "";;
         say LSection "Submodules:";;
         statusEach submodules
     end)
    (fun error => say LError ("Status check failed: " ++ error)).

(** The action of [program.command('sync')]; [options.force] is [true]
    under [--force]. *)
Definition syncAction (force : bool) : Prog unit :=
  try_catch (syncSubmodules force)
    (fun error => say LError ("Sync failed: " ++ error);; Exit 1).

(** The action of [program.command('new-feature')]. *)
Definition newFeatureAction (service feature : string) : Prog unit :=
  try_catch
    (success <- newFeature path_join service feature;;
     if negb success then Exit 1 else Ret tt)
    (fun error => say LError ("New feature failed: " ++ error);; Exit 1).

End Actions.

(** ** Shapes of text the properties below speak about *)

(** [s] holds no character [c]. *)
Fixpoint lacks (c : ascii) (s : string) : bool :=
  match s with
  | EmptyString => true
  | String d s' => negb (Ascii.eqb c d) && lacks c s'
  end.

(** No token of [tokens] occurs in [s]. *)
Fixpoint free_of (tokens : list string) (s : string) : bool :=
  match Js.drop_token tokens s with
  | Some _ => false
  | None =>
      match s with
      | EmptyString => true
      | String _ s' => free_of tokens s'
      end
  end.

(** [s] neither starts nor ends with white space. *)
Definition trimmed (s : string) : bool :=
  match Js.drop_token Js.whitespace s,
        Js.drop_token (map Js.rev_string Js.whitespace) (Js.rev_string s) with
  | None, None => true
  | _, _ => false
  end.

(** Bytes of a multi-byte character, and tokens that go on with such
    bytes only. *)
Definition high (c : ascii) : bool := (128 <=? nat_of_ascii c)%nat.

Fixpoint all_high (s : string) : bool :=
  match s with
  | EmptyString => true
  | String c s' => high c && all_high s'
  end.

Definition high_tail (p : string) : bool :=
  match p with
  | EmptyString => true
  | String _ p' => all_high p'
  end.

Definition low_head (t : string) : bool :=
  match t with
  | EmptyString => true
  | String c _ => negb (high c)
  end.

Definition TAB : string := Js.bytes [9].

(** A registry entry the way git writes it into [.gitmodules]. *)
Definition git_layout (s : Submodule) : string :=
  "[submodule " ++ Js.dquote ++ sm_name s ++ Js.dquote ++ "]" ++ Js.lf
  ++ TAB ++ "path = " ++ sm_path s ++ Js.lf
  ++ TAB ++ "url = " ++ sm_url s ++ Js.lf.

Definition written (registry : list Submodule) : string :=
  String.concat "" (map git_layout registry).

(** A value that survives [split('=')[1].trim()]. *)
Definition plain_value (v : string) : bool :=
  trimmed v && lacks "=" v && lacks Js.LF v.

Definition scannable (s : Submodule) : bool :=
  Js.truthy (sm_name s)
  && free_of JsStr.line_terminators (sm_name s)
  && plain_value (sm_path s) && plain_value (sm_url s).

Definition scanned (s : Submodule) : Entry :=
  mkEntry (sm_name s) (Some (sm_path s)) (Some (sm_url s)).

(** The names the header lines of a file give. *)
Definition header_names (line : string) : list string :=
  if JsStr.startsWith "[submodule" line then
    match JsStr.submodule_name line with
    | Some name => [name]
    | None => []
    end
  else [].

(** The output of [git branch --merged]: one branch per line, the current
    one marked with an asterisk. *)
Definition branch_line (current b : string) : string :=
  (if String.eqb b current then "* " else "  ") ++ b ++ Js.lf.

Definition merged_output (current : string) (branches : list string)
  : string :=
  String.concat "" (map (branch_line current) branches).

Definition branch_name (b : string) : bool :=
  Js.truthy b && trimmed b && lacks " " b && lacks Js.LF b.

Definition protected (b : string) : bool :=
  Js.includes b ["main"; "master"; "develop"].

(** ** Handlers that answer one kind of call with a fixed text

    They serve the concrete runs below, where the simulated checkout has no
    answer of its own. *)
Module Scripted.

(** Every [raw] query prints [out]; nothing else is available. *)
Definition raw_prints (out : string) : Handler unit :=
  fun c w =>
    match c as c0 return Result (resp c0) * unit with
    | GitRaw _ _ => (Ok out, w)
    | _ => (Err "not available", w)
    end.

(** Every run of [gh] prints [out]; nothing else is available. *)
Definition gh_prints (out : string) : Handler unit :=
  fun c w =>
    match c as c0 return Result (resp c0) * unit with
    | Gh _ _ => (Ok out, w)
    | _ => (Err "not available", w)
    end.

End Scripted.

(** [api] is checked out as a submodule (its [.git] is there), [ui] is an
    empty directory still. *)
Definition checked_out_world : Sim.World :=
  Sim.mkWorld [".gitmodules"; "services"; "services/api/.git"] ["api"; "ui"]
              [("services/api", Scenario.repo); (".", Scenario.repo)]
              [Scenario.api; Scenario.ui]
              (" 1f3a services/api (heads/main)" ++ Js.lf
               ++ "-9c2e services/ui" ++ Js.lf)
              0 [] [].

(** * commands/init-submodules.js

    The [init] command turns the folders of [services] into submodules.  It
    calls more of the platform than the commands above: directory listings
    with file types, [fs.rm], [fs.rename], [fs.mkdir], [fs.copyFile], [execa]
    on [git] and [gh], [Date.now()], and two more methods of simple-git.
    Its programs are trees over [ICall], which holds the calls above as
    [Base]. *)
From Stdlib Require DecimalString.

Module Init.

Inductive ICall : Type :=
| Base (c : Call)
| FsReaddirTypes (path : string)       (* fs.readdir(path, { withFileTypes: true }) *)
| FsRm (path : string)                 (* fs.rm(path, { recursive: true, force: true }) *)
| FsRename (oldPath newPath : string)  (* fs.rename(oldPath, newPath) *)
| FsMkdir (path : string)              (* fs.mkdir(path, { recursive: true }) *)
| FsCopyFile (src dest : string)       (* fs.copyFile(src, dest) *)
| Execa (file : string) (args : list string) (cwd : option string)
                                       (* execa(file, args, { cwd }), its stdout *)
| DateNow                              (* Date.now() *)
| GitSubmoduleUpdate                   (* git.submoduleUpdate() *)
| GitSubmoduleAdd (url path : string). (* git.submoduleAdd(url, path) *)

(** A directory entry: its name, and whether [isDirectory()] holds. *)
Definition Dirent : Type := (string * bool)%type.

Definition iresp (c : ICall) : Type :=
  match c with
  | Base c0 => resp c0
  | FsReaddirTypes _ => list Dirent
  | FsRm _ => unit
  | FsRename _ _ => unit
  | FsMkdir _ => unit
  | FsCopyFile _ _ => unit
  | Execa _ _ _ => string
  | DateNow => nat
  | GitSubmoduleUpdate => unit
  | GitSubmoduleAdd _ _ => unit
  end.

(** Output: the loggers above, and what only this command uses, the
    spinner's [warn] and [text =], [console.warn] and [console.error]. *)
Inductive ILevel : Type :=
| Log (l : Level)
| LSpinWarn | LSpinText | LConsoleWarn | LConsoleError.

Definition ILine : Type := (ILevel * string)%type.

Inductive IProg (A : Type) : Type :=
| IRet (a : A)
| IThrow (e : Error)
| IExit (code : nat)
| IOut (l : ILine) (k : IProg A)
| IDo (c : ICall) (k : Result (iresp c) -> IProg A).
Arguments IRet {A} a.
Arguments IThrow {A} e.
Arguments IExit {A} code.
Arguments IOut {A} l k.
Arguments IDo {A} c k.

Fixpoint ibind {A B : Type} (p : IProg A) (f : A -> IProg B) : IProg B :=
  match p with
  | IRet a => f a
  | IThrow e => IThrow e
  | IExit n => IExit n
  | IOut l k => IOut l (ibind k f)
  | IDo c k => IDo c (fun r => ibind (k r) f)
  end.

Fixpoint itry_catch {A : Type} (p : IProg A) (h : Error -> IProg A)
  : IProg A :=
  match p with
  | IRet a => IRet a
  | IThrow e => h e
  | IExit n => IExit n
  | IOut l k => IOut l (itry_catch k h)
  | IDo c k => IDo c (fun r => itry_catch (k r) h)
  end.

Definition icall (c : ICall) : IProg (iresp c) :=
  IDo c (fun r => match r with Ok v => IRet v | Err e => IThrow e end).

Definition say (lvl : Level) (msg : string) : IProg unit :=
  IOut (Log lvl, msg) (IRet tt).

Definition isay (lvl : ILevel) (msg : string) : IProg unit :=
  IOut (lvl, msg) (IRet tt).

(** A program of the commands above, as a program of this one. *)
Fixpoint lift {A : Type} (p : Prog A) : IProg A :=
  match p with
  | Ret a => IRet a
  | Throw e => IThrow e
  | Exit n => IExit n
  | Out l k => IOut (Log (fst l), snd l) (lift k)
  | Do c k => IDo (Base c) (fun r => lift (k r))
  end.

Declare Scope iprog_scope.
Delimit Scope iprog_scope with iprog.
Notation "x <- p ;; k" := (ibind p (fun x => k))
  (at level 61, p at next level, right associativity) : iprog_scope.
Notation "p ;; k" := (ibind p (fun _ => k))
  (at level 61, right associativity) : iprog_scope.

Inductive IEvent : Type :=
| IEvCall (c : ICall) (resolved : bool)
| IEvOut (l : ILine).

Section IRun.
Variable W : Type.

Definition IHandler : Type := forall c : ICall, W -> Result (iresp c) * W.

Record IRunOf (A : Type) : Type := mkIRun {
  ioutcome : Outcome A;
  ifinal : W;
  itrace : list IEvent
}.
Arguments mkIRun {A}.
Arguments ioutcome {A}.
Arguments ifinal {A}.
Arguments itrace {A}.

Definition iafter {A : Type} (e : IEvent) (r : IRunOf A) : IRunOf A :=
  mkIRun (ioutcome r) (ifinal r) (e :: itrace r).

Definition iafter_all {A : Type} (es : list IEvent) (r : IRunOf A)
  : IRunOf A :=
  mkIRun (ioutcome r) (ifinal r) (es ++ itrace r)%list.

Variable h : IHandler.

Fixpoint irun {A : Type} (p : IProg A) (w : W) : IRunOf A :=
  match p with
  | IRet a => mkIRun (Returned a) w []
  | IThrow e => mkIRun (Thrown e) w []
  | IExit n => mkIRun (Exited n) w []
  | IOut l k => iafter (IEvOut l) (irun k w)
  | IDo c k =>
      iafter (IEvCall c (is_ok (fst (h c w))))
             (irun (k (fst (h c w))) (snd (h c w)))
  end.

End IRun.
Arguments mkIRun {W A}.
Arguments ioutcome {W A}.
Arguments ifinal {W A}.
Arguments itrace {W A}.
Arguments iafter {W A}.
Arguments iafter_all {W A}.
Arguments irun {W} h {A}.

Fixpoint icalls (t : list IEvent) : list ICall :=
  match t with
  | [] => []
  | IEvCall c _ :: t' => c :: icalls t'
  | IEvOut _ :: t' => icalls t'
  end.

Fixpoint iouts (t : list IEvent) : list ILine :=
  match t with
  | [] => []
  | IEvCall _ _ :: t' => iouts t'
  | IEvOut l :: t' => l :: iouts t'
  end.

(** [icons.rocket] of utils/colors.js: U+1F680. *)
Definition icon_rocket : string := "🚀".

(** [`${n}`] for a number that is a natural: its decimal digits. *)
Definition decimal (n : nat) : string :=
  DecimalString.NilEmpty.string_of_uint (Nat.to_uint n).

(** utils/git.js: [githubHelpers.isGhInstalled], [isAuthenticated],
    [gitHelpers.updateSubmodules], [addSubmodule]. *)
Definition isGhInstalled : IProg bool :=
  itry_catch (ibind (icall (Execa "gh" ["--version"] None))
                    (fun _ => IRet true))
             (fun _ => IRet false).

Definition isAuthenticated : IProg bool :=
  itry_catch (ibind (icall (Execa "gh" ["auth"; "status"] None))
                    (fun _ => IRet true))
             (fun _ => IRet false).

Definition updateSubmodules : IProg unit := icall GitSubmoduleUpdate.

Definition addSubmodule (url path : string) : IProg unit :=
  icall (GitSubmoduleAdd url path).

(** *** The helpers of init-submodules.js *)

Definition checkProjectRoot : Prog bool :=
  try_catch
    (call (FsAccess "README.md");;
     call (FsAccess "services");;
     Ret true)
    (fun _ => Ret false).

Definition getServiceFolders : IProg (list string) :=
  itry_catch
    (ibind (icall (FsReaddirTypes "services"))
           (fun items => IRet (map fst (filter snd items))))
    (fun _ => IRet []).

(** [files.length === 0]; a folder that cannot be read counts as empty. *)
Definition isFolderEmpty (folderPath : string) : Prog bool :=
  try_catch
    (files <- call (FsReaddir folderPath);;
     Ret (match files with [] => true | _ => false end))
    (fun _ => Ret true).

(** [folderName.endsWith('-service') ? folderName.slice(0, -8) : folderName];
    the eight units cut off are the ASCII characters of the suffix, one byte
    each. *)
Definition generateRepoName (folderName : string) : string :=
  if JsStr.endsWith "-service" folderName
  then String.substring 0 (String.length folderName - 8) folderName
  else folderName.

(** The result of [createGitHubRepo]: [{ name, url }]. *)
Record RepoInfo : Type := mkRepoInfo {
  repo_name : string;
  repo_url : string
}.

Definition repoUrl (username name : string) : string :=
  "git@github.com:" ++ Js.trim username ++ "/" ++ name ++ ".git".

(** What [processServiceFolder] returns besides [folderName]: the flag it
    sets and what goes with it, or [success: false] and the message. *)
Inductive Processed : Type :=
| Skipped
| Created (repoName : string)
| Initialized (repoName : string)
| ExistingRemote (remoteUrl : string)
| NewRepo (repoName : string)
| Failed (error : Error).

Record FolderResult : Type := mkFolderResult {
  folderName : string;
  processed : Processed
}.

Definition success (r : FolderResult) : bool :=
  match processed r with
  | Failed _ => false
  | _ => true
  end.

Open Scope iprog_scope.

Section Commands.
Variable path_join : string -> string -> string.

Definition hasGitRepo (folderPath : string) : Prog bool :=
  try_catch
    (call (FsAccess (path_join folderPath ".git"));; Ret true)%prog
    (fun _ => Ret false).

Definition getRemoteUrl (folderPath : string) : IProg (option string) :=
  itry_catch
    (stdout <- icall (Execa "git" ["remote"; "get-url"; "origin"]
                            (Some folderPath));;
     IRet (Some (Js.trim stdout)))
    (fun _ => IRet None).

(** The [stdio] option of the first [execa] changes only where the output
    of [gh] goes. *)
Definition createGitHubRepo (repoName : string) : IProg RepoInfo :=
  say LSpin ("Creating GitHub repository: " ++ repoName);;
  itry_catch
    (itry_catch
       (_ <- icall (Execa "gh" ["repo"; "view"; repoName] None);;
        isay LSpinWarn ("Repository " ++ repoName ++ " already exists");;
        timestamp <- icall DateNow;;
        let newRepoName := repoName ++ "-" ++ decimal timestamp in
        isay LSpinText ("Trying new name: " ++ newRepoName);;
        _ <- icall (Execa "gh" ["repo"; "create"; newRepoName; "--private"]
                          None);;
        username <- icall (Execa "gh" ["api"; "user"; "--jq"; ".login"] None);;
        say LSpinSucceed ("Created repository: " ++ newRepoName);;
        IRet (mkRepoInfo newRepoName (repoUrl username newRepoName)))
       (fun _ =>
          _ <- icall (Execa "gh" ["repo"; "create"; repoName; "--private"]
                            None);;
          username <- icall (Execa "gh" ["api"; "user"; "--jq"; ".login"]
                                   None);;
          say LSpinSucceed ("Created repository: " ++ repoName);;
          IRet (mkRepoInfo repoName (repoUrl username repoName))))
    (fun error =>
       say LSpinFail ("Failed to create repository: " ++ repoName);;
       IThrow error).

Definition gitRmCached (folderPath : string) : IProg unit :=
  itry_catch
    (_ <- icall (Execa "git" ["rm"; "--cached"; "-r"; folderPath] None);;
     IRet tt)
    (fun error =>
       isay LConsoleWarn ("Warning: Could not remove " ++ folderPath
                          ++ " from git cache: " ++ error)).

Definition git_in (folderPath : string) (args : list string) : IProg unit :=
  _ <- icall (Execa "git" args (Some folderPath));; IRet tt.

(** "Save the folder contents by moving to a temporary location", "Add as
    submodule", "Remove temporary folder". *)
Definition replaceBySubmodule (url folderPath : string) : IProg unit :=
  let tempPath := folderPath ++ "_temp" in
  icall (FsRename folderPath tempPath);;
  addSubmodule url folderPath;;
  icall (FsRm tempPath).

Definition processServiceFolder (folderName : string) : IProg FolderResult :=
  let folderPath := path_join "services" folderName in
  say LSpin ("Processing: " ++ folderName);;
  itry_catch
    (isSub <- lift (isSubmodule path_join folderPath);;
     isAlreadySubmodule <-
       (if isSub then IRet true
        else lift (isRegisteredSubmodule folderPath));;
     if isAlreadySubmodule then
       say LSpinSucceed (folderName ++ " is already a submodule, skipping...");;
       IRet (mkFolderResult folderName Skipped)
     else
     isay LSpinText ("Analyzing folder: " ++ folderName);;
     isEmpty <- lift (isFolderEmpty folderPath);;
     if isEmpty then
       isay LSpinText ("Folder is empty: " ++ folderName);;
       gitRmCached folderPath;;
       icall (FsRm folderPath);;
       let repoName := generateRepoName folderName in
       created <- createGitHubRepo repoName;;
       isay LSpinText ("Adding submodule: " ++ folderName);;
       addSubmodule (repo_url created) folderPath;;
       say LSpinSucceed ("Successfully processed empty folder: " ++ folderName
                         ++ " -> " ++ repo_name created);;
       IRet (mkFolderResult folderName (Created (repo_name created)))
     else
     hasGit <- lift (hasGitRepo folderPath);;
     if negb hasGit then
       isay LSpinText ("No git repository found: " ++ folderName);;
       gitRmCached folderPath;;
       let repoName := generateRepoName folderName in
       created <- createGitHubRepo repoName;;
       isay LSpinText ("Initializing git repository: " ++ folderName);;
       git_in folderPath ["init"];;
       git_in folderPath ["add"; "."];;
       git_in folderPath ["commit"; "-m"; "Initial commit"];;
       git_in folderPath ["branch"; "-M"; "main"];;
       git_in folderPath ["remote"; "add"; "origin"; repo_url created];;
       git_in folderPath ["push"; "-u"; "origin"; "main"];;
       replaceBySubmodule (repo_url created) folderPath;;
       say LSpinSucceed ("Successfully processed folder without git: "
                         ++ folderName ++ " -> " ++ repo_name created);;
       IRet (mkFolderResult folderName (Initialized (repo_name created)))
     else
     isay LSpinText ("Found git repository: " ++ folderName);;
     remoteUrl <- getRemoteUrl folderPath;;
     match or_null remoteUrl with
     | Some remoteUrl =>
         isay LSpinText ("Using existing remote: " ++ folderName);;
         gitRmCached folderPath;;
         replaceBySubmodule remoteUrl folderPath;;
         say LSpinSucceed ("Successfully processed folder with existing remote: "
                           ++ folderName);;
         IRet (mkFolderResult folderName (ExistingRemote remoteUrl))
     | None =>
         isay LSpinText ("No remote found, creating new repository: "
                         ++ folderName);;
         let repoName := generateRepoName folderName in
         created <- createGitHubRepo repoName;;
         git_in folderPath ["remote"; "add"; "origin"; repo_url created];;
         git_in folderPath ["branch"; "-M"; "main"];;
         git_in folderPath ["push"; "-u"; "origin"; "main"];;
         gitRmCached folderPath;;
         replaceBySubmodule (repo_url created) folderPath;;
         say LSpinSucceed ("Successfully processed folder without remote: "
                           ++ folderName ++ " -> " ++ repo_name created);;
         IRet (mkFolderResult folderName (NewRepo (repo_name created)))
     end)
    (fun error =>
       say LSpinFail ("Failed to process: " ++ folderName);;
       isay LConsoleError ("Error: " ++ error);;
       IRet (mkFolderResult folderName (Failed error))).

(** [for (const folderName of serviceFolders) { ...; results.push(result) }] *)
Fixpoint processEach (serviceFolders : list string)
         (results : list FolderResult) : IProg (list FolderResult) :=
  match serviceFolders with
  | [] => IRet results
  | folderName :: rest =>
      result <- processServiceFolder folderName;;
      processEach rest (results ++ [result])%list
  end.

Definition summaryLine (result : FolderResult) : ILine :=
  let status := Icons.check ++ " " ++ folderName result in
  match processed result with
  | Skipped => (Log LItem, status ++ " (already submodule)")
  | Created repoName => (Log LItem, status ++ " -> created repo: " ++ repoName)
  | Initialized repoName =>
      (Log LItem, status ++ " -> initialized repo: " ++ repoName)
  | ExistingRemote _ => (Log LItem, status ++ " -> used existing remote")
  | NewRepo repoName =>
      (Log LItem, status ++ " -> created new repo: " ++ repoName)
  | Failed error =>
      (Log LItem, Icons.cross ++ " " ++ folderName result
                  ++ " (failed: " ++ error ++ ")")
  end.

Fixpoint isayAll (lines : list ILine) : IProg unit :=
  match lines with
  | [] => IRet tt
  | l :: rest => IOut l (isayAll rest)
  end.

(** [initSubmodules] from "Process each service folder" to its end. *)
Definition processFolders (serviceFolders : list string) : IProg unit :=
  say LSection "Processing Service Folders";;
  results <- processEach serviceFolders [];;
  say LSection "Initializing and Updating Submodules";;
  say LSpin "Initializing submodules...";;
  itry_catch
    (lift initSubmodules;;
     isay LSpinText "Updating submodules...";;
     updateSubmodules;;
     say LSpinSucceed "All submodules initialized and updated successfully")
    (fun error =>
       say LSpinFail "Failed to initialize/update submodules";;
       isay LConsoleError error);;
  itry_catch
    (icall (FsCopyFile ".gitmodules" ".gitmodules.backup");;
     say LInfo "Created backup of .gitmodules")
    (fun _ => say LWarning "Could not create .gitmodules backup");;
  say LConsole "";;
  say LSuccess "🎉 Submodule initialization complete!";;
  say LSection "Summary";;
  isayAll (map summaryLine results);;
  say LSection "Next Steps";;
  say LItem "Run: npm run sync to sync all submodules";;
  say LItem "Run: npm run new-feature <service> <feature> to start working on a feature";;
  say LItem "Check the documentation: docs/GIT_SUBMODULE_WORKFLOW.md".

(** [initSubmodules()], the command. *)
Definition initSubmodules : IProg unit :=
  say LConsole (icon_rocket
                ++ " Initializing Git Submodules for AI Startup Methodology Coach");;
  say LConsole "============================================================";;
  inRoot <- lift checkProjectRoot;;
  (if negb inRoot then
     say LError "Please run this script from the project root directory";;
     IExit 1
   else IRet tt);;
  isRepo <- lift (isGitRepo ".");;
  (if negb isRepo then
     say LError "This is not a git repository. Please initialize git first.";;
     IExit 1
   else IRet tt);;
  installed <- isGhInstalled;;
  (if negb installed then
     say LError "GitHub CLI (gh) is not installed. Please install it first.";;
     say LInfo "Visit: https://cli.github.com/";;
     IExit 1
   else IRet tt);;
  authenticated <- isAuthenticated;;
  (if negb authenticated then
     say LError "GitHub CLI is not authenticated. Please run: gh auth login";;
     IExit 1
   else IRet tt);;
  itry_catch (icall (FsMkdir "services")) (fun _ => IRet tt);;
  say LSection "Discovering Service Folders";;
  serviceFolders <- getServiceFolders;;
  match serviceFolders with
  | [] =>
      say LWarning "No service folders found in ./services/";;
      say LInfo "Create some folders in ./services/ and run this script again."
  | _ =>
      say LInfo ("Found " ++ decimal (List.length serviceFolders)
                 ++ " service folders: " ++ Js.join ", " serviceFolders);;
      processFolders serviceFolders
  end.

End Commands.

Close Scope iprog_scope.

Arguments processEach : simpl never.
Arguments processFolders : simpl never.

(** *** Shapes the properties speak about *)

(** Every call the program can come to satisfies [C]; every value it can
    return satisfies [Q]; it can end with an exception only if [throws],
    with [process.exit] only if [exits], and then with code 1. *)
Inductive always {A : Type} (C : ICall -> bool) (Q : A -> Prop)
          (throws exits : bool) : IProg A -> Prop :=
| always_Ret (a : A) : Q a -> always C Q throws exits (IRet a)
| always_Throw (e : Error) :
    throws = true -> always C Q throws exits (IThrow e)
| always_Exit : exits = true -> always C Q throws exits (IExit 1)
| always_Out (l : ILine) (k : IProg A) :
    always C Q throws exits k -> always C Q throws exits (IOut l k)
| always_Do (c : ICall) (k : Result (iresp c) -> IProg A) :
    C c = true -> (forall r, always C Q throws exits (k r)) ->
    always C Q throws exits (IDo c k).

(** Calls that only look at files, repositories and the installation of
    [gh]. *)
Definition looks (c : ICall) : bool :=
  match c with
  | Base c0 =>
      read_only c0
      || match c0 with
         | GitRaw _ args => Sim.same_args args registered_paths_query
         | _ => false
         end
  | FsReaddirTypes _ => true
  | Execa file args _ =>
      String.eqb file "gh"
      && (Sim.same_args args ["--version"]
          || Sim.same_args args ["auth"; "status"])
  | _ => false
  end.

(** A handler whose looking calls leave the world as it is. *)
Definition looks_only {W : Type} (h : IHandler W) : Prop :=
  forall c w, looks c = true -> snd (h c w) = w.

(** No call outside [looks] is made before the first event of [gate]. *)
Fixpoint gated (gate : IEvent -> bool) (t : list IEvent) : bool :=
  match t with
  | [] => true
  | ev :: t' =>
      gate ev
      || (match ev with
          | IEvCall c _ => looks c
          | IEvOut _ => true
          end && gated gate t')
  end.

(** [gh auth status] resolved. *)
Definition authenticated (ev : IEvent) : bool :=
  match ev with
  | IEvCall (Execa file args None) true =>
      String.eqb file "gh" && Sim.same_args args ["auth"; "status"]
  | _ => false
  end.

(** The query of [getRemoteUrl]. *)
Definition asks_remote (c : ICall) : bool :=
  match c with
  | Execa file args _ =>
      String.eqb file "git" && Sim.same_args args ["remote"; "get-url"; "origin"]
  | _ => false
  end.

(** The results that stand for a folder with a repository of its own. *)
Definition took_remote (r : FolderResult) : bool :=
  match processed r with
  | ExistingRemote _ | NewRepo _ => true
  | _ => false
  end.

(** [gh repo create <name> --private] resolved. *)
Definition created (name : string) : IEvent :=
  IEvCall (Execa "gh" ["repo"; "create"; name; "--private"] None) true.

(** A handler for the concrete runs: a folder tree in which nothing is a
    repository, and a [gh] that knows the repositories of [taken]. *)
Record Disk : Type := mkDisk {
  readable : list (string * list string);   (* folders and their entries *)
  taken : list string;                      (* repositories on the host *)
  clock : nat
}.

Definition entries (path : string) (d : Disk) : option (list string) :=
  match filter (fun f => String.eqb (fst f) path) (readable d) with
  | f :: _ => Some (snd f)
  | [] => None
  end.

Definition disk : IHandler Disk :=
  fun c d =>
    match c as c0 return Result (iresp c0) * Disk with
    | Base (FsReaddir path) =>
        match entries path d with
        | Some l => (Ok l, d)
        | None => (Err "EACCES: permission denied", d)
        end
    | Base (GitRaw _ _) => (Ok "", d)
    | Base _ => (Err "ENOENT: no such file or directory", d)
    | FsReaddirTypes path =>
        match entries path d with
        | Some l => (Ok (map (fun n => (n, true)) l), d)
        | None => (Err "ENOENT: no such file or directory", d)
        end
    | Execa file args _ =>
        if String.eqb file "gh" then
          match args with
          | [a; b; name] =>
              if String.eqb b "view" && Js.includes name (taken d)
              then (Ok name, d)
              else (Err "GraphQL: Could not resolve to a Repository", d)
          | [a; b; name; _] =>
              if String.eqb b "create" then
                if Js.includes name (taken d)
                then (Err "GraphQL: Name already exists on this account", d)
                else (Ok "", mkDisk (readable d) (name :: taken d) (clock d))
              else (Ok ("acme" ++ Js.lf), d)
          | _ => (Ok "", d)
          end
        else (Ok "", d)
    | DateNow => (Ok (clock d), mkDisk (readable d) (taken d) (S (clock d)))
    | FsRm _ => (Ok tt, d)
    | FsRename _ _ => (Ok tt, d)
    | FsMkdir _ => (Ok tt, d)
    | FsCopyFile _ _ => (Ok tt, d)
    | GitSubmoduleUpdate => (Ok tt, d)
    | GitSubmoduleAdd _ _ => (Ok tt, d)
    end.

End Init.

(** ** Shapes the properties of the loop, of staging and of pull requests
    speak about *)

(** The runs of [syncSubmodule] that the loop of [syncSubmodules] makes: one
    for each repository, in the order of the list, each from the world the
    one before it left. *)
Fixpoint visits {W : Type} (h : Handler W) (force : bool)
         (submodules : list Submodule) (w : W) : list (Run W bool) :=
  match submodules with
  | [] => []
  | s :: rest =>
      let v := run h (syncSubmodule (sm_path s) (sm_name s) force) w in
      v :: visits h force rest (final v)
  end.

(** The last line a run printed. *)
Definition last_line (t : list Event) : Line := last (outs t) (LConsole, "").

(** How a run of [syncSubmodule] for the repository [name] ended, by its
    last line: with the success message; with the warning that the
    repository is skipped; or with a failure reported by [spinner.fail] or
    [log.error]. *)
Definition ended_synced (name : string) (t : list Event) : Prop :=
  last_line t = (LSuccess, "Successfully synced " ++ name).

Definition ended_skipped (name : string) (t : list Event) : Prop :=
  last_line t = (LWarning, "Skipping " ++ name ++ "...").

Definition ended_failed (t : list Event) : Prop :=
  fst (last_line t) = LSpinFail \/ fst (last_line t) = LError.

Definition ended (name : string) (b : bool) (t : list Event) : Prop :=
  if b then ended_synced name t
  else ended_skipped name t \/ ended_failed t.

(** A run that returned did so with the value that goes with its ending. *)
Definition ends_well {W : Type} (name : string) (v : Run W bool) : Prop :=
  match outcome v with
  | Returned b => ended name b (trace v)
  | _ => True
  end.

(** [m] is a stretch of [t]. *)
Definition part_of {A : Type} (m t : list A) : Prop :=
  exists pre post, t = (pre ++ m ++ post)%list.

(** What [results] holds for a repository, next to the run of
    [syncSubmodule] for it: its name and path, and as [success] the value
    the run returned, which is [true] exactly when the run ended synced and
    [false] exactly when it ended skipped or failed. *)
Definition records {W : Type} (sv : Submodule * Run W bool)
           (result : SyncResult) : Prop :=
  res_name result = sm_name (fst sv) /\
  res_path result = sm_path (fst sv) /\
  outcome (snd sv) = Returned (res_success result) /\
  (res_success result = true <->
   ended_synced (sm_name (fst sv)) (trace (snd sv))) /\
  (res_success result = false <->
   ended_skipped (sm_name (fst sv)) (trace (snd sv)) \/
   ended_failed (trace (snd sv))).

(** A staging call: [add(files)] in some directory. *)
Definition is_add (c : Call) : bool :=
  match c with
  | GitAdd _ _ => true
  | _ => false
  end.

(** A character of an address: printable ASCII other than the space, the
    double quote and the number sign. *)
Definition address_char (c : ascii) : bool :=
  let n := nat_of_ascii c in
  ((33 <=? n) && (n <=? 126) && negb (n =? 34) && negb (n =? 35))%nat.

Fixpoint address_text (s : string) : bool :=
  match s with
  | EmptyString => true
  | String c s' => address_char c && address_text s'
  end.

(** A string of decimal digits. *)
Fixpoint all_digits (s : string) : bool :=
  match s with
  | EmptyString => true
  | String c s' => Js.is_digit c && all_digits s'
  end.

(** The pull requests the simulated host holds for a head branch. *)
Definition hosted (dir branch : string) (w : Sim.World)
  : list (nat * string) :=
  map snd
      (filter (fun p => String.eqb (fst (fst p)) dir
                        && String.eqb (snd (fst p)) branch)
              (Sim.open_prs w)).

(** The arguments [createPR] passes to [gh] for a title, a body and a base
    that is not empty. *)
Definition pr_create_args (title body base : string) (draft : bool)
  : list string :=
  (["pr"; "create"; "--title"; title; "--body"; body; "--base"; base]
   ++ (if draft then ["--draft"] else []))%list.

(** * Properties *)

(** ** Running composed programs *)
Section RunLemmas.
Context {W : Type} (h : Handler W).

Lemma run_bind {A B : Type} (p : Prog A) (f : A -> Prog B) (w : W) :
  run h (bind p f) w =
  match outcome (run h p w) with
  | Returned a =>
      after_all (trace (run h p w)) (run h (f a) (final (run h p w)))
  | Thrown e => mkRun (Thrown e) (final (run h p w)) (trace (run h p w))
  | Exited n => mkRun (Exited n) (final (run h p w)) (trace (run h p w))
  end.
Proof.
  revert w; induction p as [a | e | n | l k IH | c k IH]; intro w; simpl.
  - destruct (run h (f a) w); reflexivity.
  - reflexivity.
  - reflexivity.
  - rewrite IH. destruct (outcome (run h k w)); reflexivity.
  - rewrite IH.
    destruct (outcome (run h (k (fst (h c w))) (snd (h c w)))); reflexivity.
Qed.

Lemma run_try_catch {A : Type} (p : Prog A) (f : Error -> Prog A) (w : W) :
  run h (try_catch p f) w =
  match outcome (run h p w) with
  | Thrown e =>
      after_all (trace (run h p w)) (run h (f e) (final (run h p w)))
  | _ => run h p w
  end.
Proof.
  revert w; induction p as [a | e | n | l k IH | c k IH]; intro w; simpl.
  - reflexivity.
  - destruct (run h (f e) w); reflexivity.
  - reflexivity.
  - rewrite IH. destruct (outcome (run h k w)); reflexivity.
  - rewrite IH.
    destruct (outcome (run h (k (fst (h c w))) (snd (h c w))));
      reflexivity.
Qed.

Lemma run_sayAll (ls : list Line) (w : W) :
  run h (sayAll ls) w = mkRun (Returned tt) w (map EvOut ls).
Proof. induction ls as [| l ls IH]; simpl; [| rewrite IH]; reflexivity. Qed.

(** A property of the world that every call of a run keeps, given how the
    call ended, holds at the end of the run. *)
Lemma run_invariant {A : Type} (Inv : W -> Prop) (keeps : Call -> bool -> bool)
      (p : Prog A) :
  (forall c w, keeps c (is_ok (fst (h c w))) = true ->
               Inv w -> Inv (snd (h c w))) ->
  forall w, Inv w ->
    forallb (fun ev => match ev with
                       | EvCall c b => keeps c b
                       | EvOut _ => true
                       end) (trace (run h p w)) = true ->
    Inv (final (run h p w)).
Proof.
  intros Hk. induction p as [a | e | n | l k IH | c k IH]; intros w Hw; simpl.
  - intros _; exact Hw.
  - intros _; exact Hw.
  - intros _; exact Hw.
  - apply IH; exact Hw.
  - intros Hc. apply andb_prop in Hc as [Hc1 Hc2].
    apply IH; [apply Hk; assumption | exact Hc2].
Qed.

Lemma run_inspecting {A : Type} (p : Prog A) (w : W) :
  inspects_only h ->
  forallb read_only (calls (trace (run h p w))) = true ->
  final (run h p w) = w.
Proof.
  intros Hi Hc.
  apply (run_invariant (fun w' => w' = w) (fun c _ => read_only c) p);
    [| reflexivity |].
  - intros c w0 Hro Hw. rewrite (Hi c w0 Hro). exact Hw.
  - revert Hc. generalize (trace (run h p w)) as t.
    induction t as [| [c b | l] t IH]; simpl; auto.
    intros Hc. apply andb_prop in Hc as [H1 H2]. rewrite H1. auto.
Qed.

End RunLemmas.

Lemma calls_app (t1 t2 : list Event) :
  calls (t1 ++ t2) = (calls t1 ++ calls t2)%list.
Proof.
  induction t1 as [| [c b | l] t1 IH]; simpl; [| rewrite IH |]; auto.
Qed.

Lemma outs_app (t1 t2 : list Event) :
  outs (t1 ++ t2) = (outs t1 ++ outs t2)%list.
Proof.
  induction t1 as [| [c b | l] t1 IH]; simpl; [| | rewrite IH]; auto.
Qed.

Lemma rejected_app (t1 t2 : list Event) :
  rejected (t1 ++ t2) = (rejected t1 ++ rejected t2)%list.
Proof.
  induction t1 as [| [c [|] | l] t1 IH]; simpl; [| | rewrite IH |]; auto.
Qed.

(** Case analysis on the answer to the next call of a run. *)
Ltac next_call h :=
  match goal with
  | |- context [h ?c ?w] =>
      is_var w;
      let r := fresh "r" in
      let w' := fresh "w" in
      let E := fresh "E" in
      destruct (h c w) as [r w'] eqn:E; destruct r; cbn in *
  end.

(** Replays the answers the hypotheses give to the calls of a run. *)
Ltac answer :=
  repeat (cbn;
          match goal with
          | H : ?h ?c ?w = _ |- context [?h ?c ?w] => rewrite H
          end);
  cbn.

(** ** Default branch *)

Lemma strip_prefix_app (p s rest : string) :
  Js.strip_prefix p s = Some rest -> s = p ++ rest.
Proof.
  revert s; induction p as [| a p IH]; intros s H; simpl in H.
  - injection H as ->. reflexivity.
  - destruct s as [| b s]; [discriminate |].
    destruct (Ascii.eqb_spec a b) as [-> |]; [| discriminate].
    simpl. f_equal. apply IH; exact H.
Qed.

Lemma replace_by_nothing_empty (pat s : string) :
  Js.replace pat "" s = "" -> s = "" \/ s = pat.
Proof.
  destruct s as [| c s]; [left; reflexivity |].
  unfold Js.replace; fold Js.replace.
  destruct (Js.strip_prefix pat (String c s)) as [rest |] eqn:E.
  - simpl. intros ->. right.
    apply strip_prefix_app in E. rewrite E.
    clear E. induction pat; simpl; [reflexivity | f_equal; assumption].
  - discriminate.
Qed.

Lemma truthy_true (s : string) : Js.truthy s = true <-> s <> "".
Proof.
  unfold Js.truthy. destruct (String.eqb_spec s ""); simpl; split; intros;
    congruence.
Qed.

Lemma on_branch_some (c : option string) (b : string) :
  on_branch (or_null c) = Some b <->
  c = Some b /\ b <> "" /\ b <> "HEAD".
Proof.
  unfold on_branch, or_null. split.
  - destruct c as [s |]; [| discriminate].
    destruct (Js.truthy s) eqn:T; [| discriminate].
    destruct (String.eqb_spec s "HEAD"); [discriminate |].
    intros [= ->]. apply truthy_true in T. auto.
  - intros (-> & Hne & Hh). apply truthy_true in Hne. rewrite Hne.
    destruct (String.eqb_spec b "HEAD"); [contradiction | reflexivity].
Qed.

Lemma on_branch_none (c : option string) :
  on_branch (or_null c) = None <->
  c = None \/ c = Some "" \/ c = Some "HEAD".
Proof.
  unfold on_branch, or_null. split.
  - destruct c as [s |]; [| auto].
    destruct (Js.truthy s) eqn:T.
    + destruct (String.eqb_spec s "HEAD"); [subst; auto | discriminate].
    + intros _. right; left. f_equal.
      destruct (String.eqb_spec s ""); [assumption |].
      apply truthy_true in n. congruence.
  - intros [-> | [-> | ->]]; reflexivity.
Qed.

Lemma getDefaultBranch_run {W : Type} (h : Handler W) (dir : string) (w : W) :
  run h (getDefaultBranch dir) w =
  let w1 := snd (h (symbolic_ref dir) w) in
  let w2 := snd (h (branch_listing dir) w1) in
  match fst (h (symbolic_ref dir) w) with
  | Ok raw =>
      mkRun (Returned (Js.replace "refs/remotes/origin/" "" (Js.trim raw))) w1
            [EvCall (symbolic_ref dir) true]
  | Err _ =>
      match fst (h (branch_listing dir) w1) with
      | Ok branches =>
          mkRun (Returned (if Js.includes "origin/main" branches then "main"
                           else if Js.includes "origin/master" branches
                                then "master" else "main"))
                w2
                [EvCall (symbolic_ref dir) false;
                 EvCall (branch_listing dir) true]
      | Err e =>
          mkRun (Thrown e) w2
                [EvCall (symbolic_ref dir) false;
                 EvCall (branch_listing dir) false]
      end
  end.
Proof.
  unfold getDefaultBranch, symbolic_ref, branch_listing. cbn.
  destruct (h (GitRaw dir ["symbolic-ref"; "refs/remotes/origin/HEAD"]) w)
    as [[raw | e] w1]; cbn; [reflexivity |].
  destruct (h (GitBranch dir []) w1) as [[branches | e'] w2]; cbn;
    [| reflexivity].
  destruct (Js.includes "origin/main" branches); [reflexivity |].
  destruct (Js.includes "origin/master" branches); reflexivity.
Qed.

(** C10, as the code has it.  [getDefaultBranch] answers with the remote's
    symbolic default when [symbolic-ref] resolves: its trimmed output without
    the first "refs/remotes/origin/", a non-empty name unless that output is
    blank or the bare prefix.  When [symbolic-ref] is rejected and the branch
    listing resolves, it answers "main" or "master", and "main" when the
    listing names no branch at all.  When the listing is rejected too, that
    rejection is what [getDefaultBranch] ends with. *)
Theorem getDefaultBranch_resolution :
  forall (W : Type) (h : Handler W) (w : W) (dir : string),
    (forall raw,
        fst (h (symbolic_ref dir) w) = Ok raw ->
        outcome (run h (getDefaultBranch dir) w) =
          Returned (Js.replace "refs/remotes/origin/" "" (Js.trim raw)) /\
        (Js.trim raw <> "" -> Js.trim raw <> "refs/remotes/origin/" ->
         Js.replace "refs/remotes/origin/" "" (Js.trim raw) <> "")) /\
    (forall e branches,
        fst (h (symbolic_ref dir) w) = Err e ->
        fst (h (branch_listing dir) (snd (h (symbolic_ref dir) w)))
          = Ok branches ->
        (outcome (run h (getDefaultBranch dir) w) = Returned "main" \/
         outcome (run h (getDefaultBranch dir) w) = Returned "master") /\
        (branches = [] ->
         outcome (run h (getDefaultBranch dir) w) = Returned "main")) /\
    (forall e e',
        fst (h (symbolic_ref dir) w) = Err e ->
        fst (h (branch_listing dir) (snd (h (symbolic_ref dir) w))) = Err e' ->
        outcome (run h (getDefaultBranch dir) w) = Thrown e').
Proof.
  intros W h w dir. rewrite getDefaultBranch_run. cbn zeta.
  split; [| split].
  - intros raw H. rewrite H. split; [reflexivity |].
    intros Hne Hp Hr. apply replace_by_nothing_empty in Hr.
    destruct Hr; contradiction.
  - intros e branches H H0. rewrite H, H0. cbn. split.
    + destruct (Js.includes "origin/main" branches); [left; reflexivity |].
      destruct (Js.includes "origin/master" branches);
        [right | left]; reflexivity.
    + intros ->. reflexivity.
  - intros e e' H H0. rewrite H, H0. reflexivity.
Qed.

(** C10, as stated, fails: in a repository where origin has no symbolic
    default and the branches cannot be listed (a ref points at a missing
    object), [status()] resolves but [getDefaultBranch] ends with the
    listing's error instead of a branch name. *)
Lemma getDefaultBranch_can_throw :
  let w := Scenario.broken_ref in
  is_ok (fst (Sim.handler (GitStatus "services/api") w)) = true /\
  rejected (trace (run Sim.handler (getDefaultBranch "services/api") w))
    = [symbolic_ref "services/api"; branch_listing "services/api"] /\
  outcome (run Sim.handler (getDefaultBranch "services/api") w)
    = Thrown "fatal: missing object for a ref".
Proof. repeat split. Qed.

(** ** Reconciliation of one repository *)

(** C1.  A repository with uncommitted changes, synced without [--force]:
    [syncSubmodule] returns [false] after the warnings "Uncommitted changes
    detected in <name>" and "Skipping <name>...", having called nothing but
    [fs.access] and [status()]; no call that can change the repository is
    made, so under a handler whose inspecting calls leave the world alone
    the world after the call is the world before it. *)
Theorem syncSubmodule_dirty_without_force_skips :
  forall (W : Type) (h : Handler W) (w w1 w2 : W)
         (path name : string) (st : StatusResult),
    h (FsAccess path) w = (Ok tt, w1) ->
    h (GitStatus path) w1 = (Ok st, w2) ->
    isClean st = false ->
    let r := run h (syncSubmodule path name false) w in
    outcome r = Returned false /\
    calls (trace r) = [FsAccess path; GitStatus path] /\
    forallb read_only (calls (trace r)) = true /\
    outs (trace r) =
      [ (LSection, "Syncing submodule: " ++ name);
        (LItem, "Path: " ++ path);
        (LWarning, "Uncommitted changes detected in " ++ name);
        (LWarning, "Use --force to sync anyway, or commit your changes first");
        (LWarning, "Skipping " ++ name ++ "...") ] /\
    (inspects_only h -> final r = w).
Proof.
  intros W h w w1 w2 path name st Ha Hs Hd r.
  assert (Hr : r = mkRun (Returned false) w2
                 [ EvOut (LSection, "Syncing submodule: " ++ name);
                   EvOut (LItem, "Path: " ++ path);
                   EvCall (FsAccess path) true;
                   EvCall (GitStatus path) true;
                   EvOut (LWarning, "Uncommitted changes detected in " ++ name);
                   EvOut (LWarning, "Use --force to sync anyway, or commit your changes first");
                   EvOut (LWarning, "Skipping " ++ name ++ "...") ]).
  { subst r. unfold syncSubmodule, hasUncommittedChanges. answer.
    rewrite Hd. reflexivity. }
  assert (Hc : forallb read_only (calls (trace r)) = true)
    by (rewrite Hr; reflexivity).
  split; [rewrite Hr; reflexivity |].
  split; [rewrite Hr; reflexivity |].
  split; [exact Hc |].
  split; [rewrite Hr; reflexivity |].
  intro Hi. apply run_inspecting; assumption.
Qed.

Lemma sim_inspects_only : inspects_only Sim.handler.
Proof.
  intros c w Hro. destruct c; simpl in Hro; try discriminate; simpl;
    unfold Sim.in_repo;
    repeat match goal with
           | |- context [if ?b then _ else _] => destruct b eqn:?
           | |- context [match ?x with _ => _ end] => destruct x eqn:?
           end; try reflexivity;
    apply andb_prop in Hro as [H1 H2]; congruence.
Qed.

Lemma syncSubmodule_dirty_without_force_skips_witness :
  let w := Scenario.dirty_and_offline in
  let r := run Sim.handler (syncSubmodule "services/api" "api" false) w in
  outcome r = Returned false /\
  calls (trace r) = [FsAccess "services/api"; GitStatus "services/api"] /\
  final r = w.
Proof.
  intros w r.
  destruct (syncSubmodule_dirty_without_force_skips
              Sim.World Sim.handler w w w "services/api" "api"
              (mkStatus (Some "main") false)
              eq_refl eq_refl eq_refl) as (Ho & Hc & _ & _ & Hf).
  split; [exact Ho | split; [exact Hc | exact (Hf sim_inspects_only)]].
Defined.

Lemma stash_message_truthy (now : string) :
  Js.truthy (stash_message now) = true.
Proof. reflexivity. Qed.

Lemma stash_message_injective (t1 t2 : string) :
  stash_message t1 = stash_message t2 -> t1 = t2.
Proof. unfold stash_message. simpl. intros H. injection H. auto. Qed.

(** A repository found clean goes on to the branch step. *)
Lemma syncSubmodule_clean_passes {W : Type} (h : Handler W) (w w1 w2 : W)
      (path name : string) (force : bool) (st : StatusResult) :
  h (FsAccess path) w = (Ok tt, w1) ->
  h (GitStatus path) w1 = (Ok st, w2) ->
  isClean st = true ->
  run h (syncSubmodule path name force) w =
  after_all [ EvOut (LSection, "Syncing submodule: " ++ name);
              EvOut (LItem, "Path: " ++ path);
              EvCall (FsAccess path) true;
              EvCall (GitStatus path) true ]
            (run h (syncBranch path name) w2).
Proof.
  intros Ha Hs Hc. unfold syncSubmodule, hasUncommittedChanges. answer.
  rewrite Hc. cbn. destruct (run h (syncBranch path name) w2); reflexivity.
Qed.

(** So does a dirty one under [--force], once its changes are stashed. *)
Lemma syncSubmodule_stash_passes {W : Type} (h : Handler W)
      (w w1 w2 w3 w4 : W) (path name now : string) (st : StatusResult) :
  h (FsAccess path) w = (Ok tt, w1) ->
  h (GitStatus path) w1 = (Ok st, w2) ->
  isClean st = false ->
  h NowISO w2 = (Ok now, w3) ->
  h (GitStash path ["push"; "-m"; stash_message now]) w3 = (Ok tt, w4) ->
  run h (syncSubmodule path name true) w =
  after_all [ EvOut (LSection, "Syncing submodule: " ++ name);
              EvOut (LItem, "Path: " ++ path);
              EvCall (FsAccess path) true;
              EvCall (GitStatus path) true;
              EvOut (LWarning, "Uncommitted changes detected in " ++ name);
              EvOut (LSpin, "Force update enabled, stashing changes...");
              EvCall NowISO true;
              EvCall (GitStash path ["push"; "-m"; stash_message now]) true;
              EvOut (LSpinSucceed, "Changes stashed") ]
            (run h (syncBranch path name) w4).
Proof.
  intros Ha Hs Hd Hn Hst. unfold syncSubmodule, hasUncommittedChanges, stash.
  answer. rewrite Hd. answer.
  change (or_null (Some (stash_message now))) with (Some (stash_message now)).
  answer. destruct (run h (syncBranch path name) w4); reflexivity.
Qed.

Lemma or_null_some (b : string) : b <> "" -> or_null (Some b) = Some b.
Proof.
  intros H. unfold or_null. apply truthy_true in H. rewrite H. reflexivity.
Qed.

Lemma after_all_outcome {W A : Type} (t : list Event) (r : Run W A) :
  outcome (after_all t r) = outcome r.
Proof. reflexivity. Qed.

Lemma after_all_calls {W A : Type} (t : list Event) (r : Run W A) :
  calls (trace (after_all t r)) = (calls t ++ calls (trace r))%list.
Proof. apply calls_app. Qed.

(** On a named branch: fetch, then pull that branch from origin. *)
Lemma syncBranch_attached {W : Type} (h : Handler W) (w w1 w2 : W)
      (path name b : string) (st : StatusResult) :
  h (GitStatus path) w = (Ok st, w1) ->
  on_branch (or_null (current st)) = Some b ->
  h (GitFetch path "origin") w1 = (Ok tt, w2) ->
  let pulled := h (GitPull path (Some ("origin", b))) w2 in
  calls (trace (run h (syncBranch path name) w)) =
    [GitStatus path; GitFetch path "origin";
     GitPull path (Some ("origin", b))] /\
  outcome (run h (syncBranch path name) w) = Returned (is_ok (fst pulled)).
Proof.
  intros Hs Hb Hf pulled. subst pulled.
  assert (Hne : b <> "") by (apply on_branch_some in Hb; tauto).
  unfold syncBranch, getCurrentBranch, fetch, pull. answer.
  rewrite Hb. cbn. rewrite (or_null_some b Hne). cbn.
  destruct (h (GitPull path (Some ("origin", b))) w2) as [[[] | e] w3];
    cbn; split; reflexivity.
Qed.

(** Detached: fetch, resolve the default branch, check it out, pull it. *)
Lemma syncBranch_detached {W : Type} (h : Handler W) (w w1 w2 : W)
      (path name db : string) (st : StatusResult) :
  h (GitStatus path) w = (Ok st, w1) ->
  on_branch (or_null (current st)) = None ->
  h (GitFetch path "origin") w1 = (Ok tt, w2) ->
  let d := run h (getDefaultBranch path) w2 in
  outcome d = Returned db ->
  db <> "" ->
  let co := h (GitCheckout path db) (final d) in
  let pl := h (GitPull path (Some ("origin", db))) (snd co) in
  calls (trace (run h (syncBranch path name) w)) =
    ([GitStatus path; GitFetch path "origin"] ++ calls (trace d)
     ++ GitCheckout path db
        :: (if is_ok (fst co) then [GitPull path (Some ("origin", db))]
            else []))%list /\
  outcome (run h (syncBranch path name) w) =
    Returned (is_ok (fst co) && is_ok (fst pl)).
Proof.
  intros Hs Hb Hf d Hd Hne co pl. subst co pl.
  unfold syncBranch, getCurrentBranch, fetch, pull, checkout. answer.
  rewrite Hb. cbn. rewrite !run_bind. fold d. rewrite Hd. cbn.
  destruct (h (GitCheckout path db) (final d)) as [[[] | e] w3]; cbn.
  - rewrite (or_null_some db Hne). cbn.
    destruct (h (GitPull path (Some ("origin", db))) w3) as [[[] | e] w4];
      cbn; rewrite !calls_app; cbn; rewrite ?calls_app, ?app_nil_r;
      split; reflexivity.
  - rewrite !calls_app; cbn; rewrite ?calls_app, ?app_nil_r.
    split; reflexivity.
Qed.

(** C4, where the code departs from it.  [syncSubmodule] is past the check
    for uncommitted changes (its run continues with the branch step from
    some world [w], after the events [pre]) in a repository that is
    detached; the fetch resolves; the remote has no symbolic default, so
    that [symbolic-ref] is rejected; and the remote has [master]:
    [branch()] lists it as simple-git lists a remote-tracking branch, under
    the name "remotes/origin/master", and lists no branch under the bare
    names "origin/main" and "origin/master" that [getDefaultBranch] looks
    for.  Then the branch that is checked out is "main", not "master"; where
    there is no "main", so that this checkout is rejected, [syncSubmodule]
    returns [false] after "Failed to checkout main", and [master] is neither
    checked out nor pulled. *)
Theorem syncSubmodule_misses_remote_master :
  forall (W : Type) (h : Handler W) (w0 w w1 w2 w3 w4 w5 : W)
         (path name : string) (force : bool) (pre : list Event)
         (st : StatusResult) (branches : list string) (e e' : Error),
    run h (syncSubmodule path name force) w0 =
      after_all pre (run h (syncBranch path name) w) ->
    h (GitStatus path) w = (Ok st, w1) ->
    current st = Some "HEAD" ->
    h (GitFetch path "origin") w1 = (Ok tt, w2) ->
    h (symbolic_ref path) w2 = (Err e, w3) ->
    h (branch_listing path) w3 = (Ok branches, w4) ->
    In "remotes/origin/master" branches ->
    Js.includes "origin/main" branches = false ->
    Js.includes "origin/master" branches = false ->
    h (GitCheckout path "main") w4 = (Err e', w5) ->
    let r := run h (syncSubmodule path name force) w0 in
    outcome r = Returned false /\
    calls (trace r) =
      (calls pre ++ [GitStatus path; GitFetch path "origin";
                     symbolic_ref path; branch_listing path;
                     GitCheckout path "main"])%list /\
    outs (trace r) =
      (outs pre ++ [ (LItem, "Current branch: HEAD");
                     (LSpin, "Fetching latest changes...");
                     (LSpinSucceed, "Fetched latest changes");
                     (LSpin, "Checking out main...");
                     (LSpinFail, "Failed to checkout main") ])%list /\
    final r = w5.
Proof.
  intros W h w0 w w1 w2 w3 w4 w5 path name force pre st branches e e'
         Hpast Hs Hc Hf Hsym Hl _ Hmain Hmaster Hco r.
  subst r. rewrite Hpast.
  assert (Hd : run h (getDefaultBranch path) w2 =
               mkRun (Returned "main") w4
                     [EvCall (symbolic_ref path) false;
                      EvCall (branch_listing path) true]).
  { rewrite getDefaultBranch_run. cbn zeta. rewrite Hsym. cbn.
    rewrite Hl. cbn. rewrite Hmain, Hmaster. reflexivity. }
  assert (Hb : run h (syncBranch path name) w =
               mkRun (Returned false) w5
                     [ EvCall (GitStatus path) true;
                       EvOut (LItem, "Current branch: HEAD");
                       EvOut (LSpin, "Fetching latest changes...");
                       EvCall (GitFetch path "origin") true;
                       EvOut (LSpinSucceed, "Fetched latest changes");
                       EvCall (symbolic_ref path) false;
                       EvCall (branch_listing path) true;
                       EvOut (LSpin, "Checking out main...");
                       EvCall (GitCheckout path "main") false;
                       EvOut (LSpinFail, "Failed to checkout main") ]).
  { unfold syncBranch, getCurrentBranch, fetch, pull, checkout. answer.
    rewrite Hc. change (or_null (Some "HEAD")) with (Some "HEAD").
    change (on_branch (Some "HEAD")) with (@None string).
    cbn. rewrite !run_bind, Hd. cbn. rewrite Hco. reflexivity. }
  rewrite Hb. cbn. rewrite calls_app, outs_app. repeat split.
Qed.

Lemma syncSubmodule_misses_remote_master_witness :
  let w := Scenario.pinned_on_master in
  let r := run Sim.handler (syncSubmodule "services/api" "api" false) w in
  outcome r = Returned false /\
  calls (trace r) =
    [FsAccess "services/api"; GitStatus "services/api";
     GitStatus "services/api"; GitFetch "services/api" "origin";
     symbolic_ref "services/api"; branch_listing "services/api";
     GitCheckout "services/api" "main"] /\
  final r = w.
Proof.
  intros w r.
  destruct (syncSubmodule_misses_remote_master
              Sim.World Sim.handler w w w w w w w "services/api" "api" false _
              (mkStatus (Some "HEAD") true)
              ["master"; "remotes/origin/master"]
              "fatal: ref refs/remotes/origin/HEAD is not a symbolic ref"
              "error: pathspec did not match any file(s) known to git"
              (syncSubmodule_clean_passes Sim.handler w w w "services/api"
                 "api" false (mkStatus (Some "HEAD") true)
                 eq_refl eq_refl eq_refl)
              eq_refl eq_refl eq_refl eq_refl eq_refl
              (or_intror (or_introl eq_refl)) eq_refl eq_refl eq_refl)
    as (Ho & Hc & _ & Hf).
  split; [exact Ho | split; [exact Hc | exact Hf]].
Defined.

(** In a run of the branch step that returns [true], every call is an
    inspecting one or a fetch, pull or checkout that resolved. *)
Lemma syncBranch_success_steps {W : Type} (h : Handler W) (w : W)
      (path name : string) :
  outcome (run h (syncBranch path name) w) = Returned true ->
  forallb (fun ev => match ev with
                     | EvCall c b => leaves_tree c b
                     | EvOut _ => true
                     end) (trace (run h (syncBranch path name) w)) = true.
Proof.
  unfold syncBranch, getCurrentBranch, fetch, pull, checkout.
  cbn. next_call h; [| discriminate].
  next_call h; [| discriminate].
  destruct (on_branch (or_null (current a))) as [b |]; cbn.
  - destruct (or_null (Some b)); cbn; next_call h; try discriminate;
      reflexivity.
  - rewrite !run_bind, getDefaultBranch_run. cbn zeta.
    unfold symbolic_ref, branch_listing.
    next_call h.
    + next_call h; [| discriminate].
      destruct (or_null (Some _)); cbn; next_call h; try discriminate;
        reflexivity.
    + next_call h; [| discriminate].
      next_call h; [| discriminate].
      destruct (or_null (Some _)); cbn; next_call h; try discriminate;
        reflexivity.
Qed.

(** C5, where the code departs from it.  A repository that [status()]
    reports as not clean, synced with [--force], in which
    [git stash push -m] finds nothing it saves: the stash resolves and
    leaves everything as it was, which is what git does when the only
    changes are files it does not track.  [syncSubmodule] still reports
    "Changes stashed" and carries on with the branch step, ending as that
    step ends.  Whatever the working tree and the stash list held before
    the stash ([Kept]) they hold after a run that returns [true], as long
    as the inspecting calls and each resolved fetch, pull and checkout leave
    it alone: the files are still there, uncommitted, and no stash entry
    was made. *)
Theorem syncSubmodule_force_stash_saves_nothing :
  forall (W : Type) (h : Handler W) (Kept : W -> Prop) (w w1 w2 w3 : W)
         (path name now : string) (st : StatusResult),
    h (FsAccess path) w = (Ok tt, w1) ->
    h (GitStatus path) w1 = (Ok st, w2) ->
    isClean st = false ->
    h NowISO w2 = (Ok now, w3) ->
    h (GitStash path ["push"; "-m"; stash_message now]) w3 = (Ok tt, w3) ->
    Kept w3 ->
    (forall c w', leaves_tree c (is_ok (fst (h c w'))) = true ->
                  Kept w' -> Kept (snd (h c w'))) ->
    let r := run h (syncSubmodule path name true) w in
    let rest := run h (syncBranch path name) w3 in
    calls (trace r) =
      ([FsAccess path; GitStatus path; NowISO;
        GitStash path
          ["push"; "-m"; ("Auto-stash before sync " ++ now)%string]]
       ++ calls (trace rest))%list /\
    In (LSpinSucceed, "Changes stashed") (outs (trace r)) /\
    outcome r = outcome rest /\
    (outcome r = Returned true -> Kept (final r)).
Proof.
  intros W h Kept w w1 w2 w3 path name now st Ha Hs Hd Hn Hst Hk Hleaves
         r rest.
  assert (Hr : r = after_all
                     [ EvOut (LSection, "Syncing submodule: " ++ name);
                       EvOut (LItem, "Path: " ++ path);
                       EvCall (FsAccess path) true;
                       EvCall (GitStatus path) true;
                       EvOut (LWarning, "Uncommitted changes detected in " ++ name);
                       EvOut (LSpin, "Force update enabled, stashing changes...");
                       EvCall NowISO true;
                       EvCall (GitStash path ["push"; "-m"; stash_message now]) true;
                       EvOut (LSpinSucceed, "Changes stashed") ] rest)
    by (apply syncSubmodule_stash_passes with (w1 := w1) (w2 := w2) (w3 := w3)
                                              (st := st); assumption).
  rewrite Hr.
  split; [rewrite after_all_calls; reflexivity |].
  split; [unfold after_all; cbn [trace]; rewrite outs_app;
          apply in_or_app; left; cbn; tauto |].
  split; [reflexivity |].
  intros Hok. cbn in Hok |- *.
  apply (run_invariant h Kept leaves_tree (syncBranch path name) Hleaves w3 Hk).
  apply syncBranch_success_steps. exact Hok.
Qed.

Lemma sim_find_store (p d : string) (r : Sim.Repo)
      (l : list (string * Sim.Repo)) :
  Sim.find p (Sim.store d r l) =
  if String.eqb d p
  then match Sim.find d l with Some _ => Some r | None => None end
  else Sim.find p l.
Proof.
  induction l as [| [d0 r0] l IH]; simpl.
  - destruct (String.eqb d p); reflexivity.
  - destruct (String.eqb d0 d) eqn:E1; destruct (String.eqb d p) eqn:E2;
      destruct (String.eqb d0 p) eqn:E3; simpl;
      rewrite ?E1, ?E2, ?E3, ?IH, ?E2; try reflexivity;
      repeat match goal with
             | H : String.eqb _ _ = true |- _ => apply String.eqb_eq in H; subst
             end;
      rewrite ?String.eqb_refl in *; congruence.
Qed.

(** The simulated git leaves a repository alone where [leaves_tree] expects
    it: a checkout changes the branch that is checked out and the list of
    local branches, nothing else. *)
Lemma sim_leaves_tree (P : Sim.Repo -> Prop) (dir : string) (c : Call)
      (w : Sim.World) :
  (forall b ls r, P r -> P (Sim.with_head b ls r)) ->
  leaves_tree c (is_ok (fst (Sim.handler c w))) = true ->
  Sim.holds_at dir P w -> Sim.holds_at dir P (snd (Sim.handler c w)).
Proof.
  unfold leaves_tree. intros HP Hk Hc.
  destruct (read_only c) eqn:Hro.
  - rewrite (sim_inspects_only c w Hro). exact Hc.
  - simpl in Hk. apply andb_prop in Hk as [Hok Hstep].
    destruct c; try discriminate; simpl in *; unfold Sim.in_repo in *.
    + destruct (Sim.find (Sim.root dir0 w) (Sim.repos w)); [| exact Hc].
      destruct (Sim.online r); exact Hc.
    + destruct (Sim.find (Sim.root dir0 w) (Sim.repos w)); [| exact Hc].
      destruct (Sim.online r); exact Hc.
    + destruct (Sim.find (Sim.root dir0 w) (Sim.repos w)) as [r |] eqn:Hf;
        [| exact Hc].
      destruct Hc as (r0 & Hf0 & Hp).
      assert (Hput : forall ls,
                 Sim.holds_at dir P
                   (Sim.put (Sim.root dir0 w) (Sim.with_head branch ls r) w)).
      { intros ls. unfold Sim.holds_at, Sim.put. simpl.
        rewrite sim_find_store, Hf.
        destruct (String.eqb_spec (Sim.root dir0 w) dir) as [E | Hne].
        - rewrite E in Hf. rewrite Hf in Hf0. injection Hf0 as ->.
          eexists; split; [reflexivity | apply HP; exact Hp].
        - exists r0; split; assumption. }
      destruct (Js.includes branch (Sim.locals r)); [apply Hput |].
      destruct (Js.includes _ (Sim.remotes r)); [apply Hput |].
      exists r0; split; assumption.
Qed.

Lemma syncSubmodule_force_stash_saves_nothing_witness :
  let w := Scenario.untracked_only in
  let r := run Sim.handler (syncSubmodule "services/api" "api" true) w in
  calls (trace r) =
    [FsAccess "services/api"; GitStatus "services/api"; NowISO;
     GitStash "services/api"
       ["push"; "-m"; "Auto-stash before sync 2024-05-01T09:30:00.000Z"];
     GitStatus "services/api"; GitFetch "services/api" "origin";
     GitPull "services/api" (Some ("origin", "main"))] /\
  In (LSpinSucceed, "Changes stashed") (outs (trace r)) /\
  outcome r = Returned true /\
  Sim.holds_at "services/api"
    (fun r => Sim.untracked r = ["notes.md"] /\ Sim.stashes r = [] /\
              Sim.clean r = false)
    (final r).
Proof.
  intros w r.
  destruct (syncSubmodule_force_stash_saves_nothing
              Sim.World Sim.handler
              (Sim.holds_at "services/api"
                 (fun r => Sim.untracked r = ["notes.md"] /\
                           Sim.stashes r = [] /\ Sim.clean r = false))
              w w w (Sim.tick w) "services/api" "api" _
              (mkStatus (Some "main") false)
              eq_refl eq_refl eq_refl eq_refl eq_refl
              (ex_intro _ _ (conj eq_refl (conj eq_refl (conj eq_refl eq_refl))))
              ltac:(intros c w'; apply sim_leaves_tree;
                    intros b ls r0 H; exact H))
    as (Hc & Hs & Ho & Hkept).
  split; [exact Hc |]. split; [exact Hs |]. split; [exact Ho |].
  exact (Hkept Ho).
Defined.

(** ** Starting a feature *)

(** C7.  A service whose working tree has uncommitted changes:
    [createFeatureBranch] fails (returns [false]) with "Uncommitted changes
    detected" and "Please commit or stash your changes first" after
    [fs.access] and two [status()] queries; there is no fetch, checkout,
    pull or branch creation before that, and no stash at all. *)
Theorem createFeatureBranch_dirty_tree_stops :
  forall (W : Type) (h : Handler W) (path_join : string -> string -> string)
         (w w1 w2 w3 : W) (serviceName featureName : string)
         (st0 st : StatusResult),
    let servicePath := path_join "services" serviceName in
    h (FsAccess servicePath) w = (Ok tt, w1) ->
    h (GitStatus servicePath) w1 = (Ok st0, w2) ->
    h (GitStatus servicePath) w2 = (Ok st, w3) ->
    isClean st = false ->
    let r := run h (createFeatureBranch path_join serviceName featureName) w in
    outcome r = Returned false /\
    calls (trace r) =
      [FsAccess servicePath; GitStatus servicePath; GitStatus servicePath] /\
    forallb read_only (calls (trace r)) = true /\
    In (LSpinFail, "Uncommitted changes detected") (outs (trace r)) /\
    In (LError, "Please commit or stash your changes first") (outs (trace r)) /\
    (inspects_only h -> final r = w).
Proof.
  intros W h path_join w w1 w2 w3 serviceName featureName st0 st servicePath
         Ha Hs0 Hs Hd r.
  assert (Hr : r = mkRun (Returned false) w3
                 [ EvOut (LSection, "Creating New Feature Branch");
                   EvOut (LItem, "Service: " ++ serviceName);
                   EvOut (LItem, "Feature: " ++ featureName);
                   EvOut (LItem, "Path: " ++ servicePath);
                   EvCall (FsAccess servicePath) true;
                   EvCall (GitStatus servicePath) true;
                   EvOut (LSpin, "Checking current status...");
                   EvCall (GitStatus servicePath) true;
                   EvOut (LSpinFail, "Uncommitted changes detected");
                   EvOut (LError, "Please commit or stash your changes first") ]).
  { subst r. unfold createFeatureBranch, isGitRepo, hasUncommittedChanges.
    fold servicePath. answer. rewrite Hd. reflexivity. }
  assert (Hc : forallb read_only (calls (trace r)) = true)
    by (rewrite Hr; reflexivity).
  split; [rewrite Hr; reflexivity |].
  split; [rewrite Hr; reflexivity |].
  split; [exact Hc |].
  split; [rewrite Hr; simpl; tauto |].
  split; [rewrite Hr; simpl; tauto |].
  intro Hi. apply run_inspecting; assumption.
Qed.

Lemma createFeatureBranch_dirty_tree_stops_witness :
  let w := Scenario.dirty_and_offline in
  let r := run Sim.handler
               (createFeatureBranch Sim.join_path "api" "login") w in
  outcome r = Returned false /\
  calls (trace r) =
    [FsAccess "services/api"; GitStatus "services/api";
     GitStatus "services/api"] /\
  final r = w.
Proof.
  intros w r.
  destruct (createFeatureBranch_dirty_tree_stops
              Sim.World Sim.handler Sim.join_path w w w w "api" "login"
              (mkStatus (Some "main") false) (mkStatus (Some "main") false)
              eq_refl eq_refl eq_refl eq_refl) as (Ho & Hc & _ & _ & _ & Hf).
  split; [exact Ho | split; [exact Hc | exact (Hf sim_inspects_only)]].
Defined.


Lemma ends_with_cons (x c : Call) (l : list Call) :
  ends_with l c -> ends_with (x :: l) c.
Proof. intros [pre ->]. exists (x :: pre). reflexivity. Qed.

Lemma ends_with_app (l1 l2 : list Call) (c : Call) :
  ends_with l2 c -> ends_with (l1 ++ l2) c.
Proof.
  intros [pre ->]. exists (l1 ++ pre)%list. apply app_assoc.
Qed.

Lemma ends_with_last (pre : list Call) (c : Call) :
  ends_with (pre ++ [c]) c.
Proof. exists pre. reflexivity. Qed.

Lemma nextSteps_run {W : Type} (h : Handler W) (a b c : string) (w : W) :
  outcome (run h (nextSteps a b c) w) = Returned tt /\
  final (run h (nextSteps a b c) w) = w /\
  calls (trace (run h (nextSteps a b c) w)) = [].
Proof. repeat split. Qed.

(** When the decision on the feature branch lets the command go on, the
    last call was the checkout, or the creation, of that branch. *)
Lemma enterFeatureBranch_true {W : Type} (h : Handler W) (w : W)
      (path fb : string) :
  outcome (run h (enterFeatureBranch path fb) w) = Returned true ->
  ends_with (calls (trace (run h (enterFeatureBranch path fb) w)))
            (GitCheckout path fb) \/
  ends_with (calls (trace (run h (enterFeatureBranch path fb) w)))
            (GitCheckoutLocalBranch path fb).
Proof.
  unfold enterFeatureBranch, branchExists, remoteBranchExists,
    getLocalBranches, getRemoteBranches, checkout, createBranch.
  cbn. next_call h; [| discriminate].
  next_call h; [| discriminate].
  destruct (Js.includes fb a); cbn.
  - next_call h; [| discriminate].
    destruct a1; cbn; [| discriminate].
    next_call h; [| discriminate].
    intros _. left.
    exact (ends_with_last
             [GitBranchLocal path; GitBranch path ["-r"];
              Confirm "Do you want to switch to it?"] _).
  - destruct (Js.includes fb (map (Js.replace "origin/" "") a0)); cbn.
    + discriminate.
    + next_call h; [| discriminate].
      intros _. right.
      exact (ends_with_last [GitBranchLocal path; GitBranch path ["-r"]] _).
Qed.

Lemma finishFeature_true {W : Type} (h : Handler W) (w : W)
      (svc path fb : string) :
  outcome (run h (finishFeature svc path fb) w) = Returned true ->
  ends_with (calls (trace (run h (finishFeature svc path fb) w)))
            (GitCheckout path fb) \/
  ends_with (calls (trace (run h (finishFeature svc path fb) w)))
            (GitCheckoutLocalBranch path fb).
Proof.
  unfold finishFeature. rewrite run_bind.
  destruct (outcome (run h (enterFeatureBranch path fb) w)) as [[|] | e | n]
    eqn:E; try discriminate.
  intros _. rewrite after_all_calls.
  replace (calls (trace (run h _ (final (run h (enterFeatureBranch path fb) w)))))
    with (@nil Call) by reflexivity.
  rewrite app_nil_r. apply enterFeatureBranch_true. exact E.
Qed.

Lemma run_bind_not_true {W A : Type} (h : Handler W) (p : Prog A)
      (k : A -> Prog bool) (w : W) :
  (forall a w', outcome (run h (k a) w') <> Returned true) ->
  outcome (run h (bind p k) w) <> Returned true.
Proof.
  intros Hk. rewrite run_bind.
  destruct (outcome (run h p w)); cbn; [apply Hk | |]; intro Hx;
    discriminate Hx.
Qed.

(** Closes a case of [createFeatureBranch] that reached the decision on the
    feature branch. *)
Ltac reached_decision :=
  let H := fresh "H" in
  intros H; apply finishFeature_true in H;
  rewrite ?calls_app; cbn;
  destruct H as [H | H]; [left | right];
  repeat first [exact H | apply ends_with_cons | apply ends_with_app].

(** C8.  Whatever the handler, the world, the service and the branch the
    repository was on: when [createFeatureBranch serviceName featureName]
    returns [true], the last call it made checked out, or created and
    checked out, the branch named "feature/" followed by [featureName],
    exactly. *)
Theorem createFeatureBranch_names_the_branch :
  forall (W : Type) (h : Handler W) (path_join : string -> string -> string)
         (serviceName featureName : string) (w : W),
    let servicePath := path_join "services" serviceName in
    let r := run h (createFeatureBranch path_join serviceName featureName) w in
    outcome r = Returned true ->
    feature_branch featureName = "feature/" ++ featureName /\
    (ends_with (calls (trace r))
               (GitCheckout servicePath ("feature/" ++ featureName)) \/
     ends_with (calls (trace r))
               (GitCheckoutLocalBranch servicePath ("feature/" ++ featureName))).
Proof.
  intros W h pj svc feat w path r. subst r.
  intros H. split; [reflexivity |].
  change ("feature/" ++ feat) with (feature_branch feat).
  revert H.
  unfold createFeatureBranch, branchFromDefault, isGitRepo,
    hasUncommittedChanges, getCurrentBranch, fetch, checkout, pull.
  fold path.
  cbn. next_call h.
  2: { intros H. exfalso. revert H. apply run_bind_not_true. intros.
       apply run_bind_not_true. intros. cbn. intro Hx; discriminate Hx. }
  next_call h; [| discriminate].
  next_call h; [| discriminate].
  match goal with |- context [isClean ?s] => destruct (isClean s) end; cbn;
    [| discriminate].
  next_call h; [| discriminate].
  rewrite !run_bind.
  destruct (run h (getDefaultBranch path) w3) as [[db | e | n] wd td];
    [| discriminate | discriminate].
  cbn. next_call h; [| discriminate].
  destruct (differs _ db); cbn.
  - next_call h; [| discriminate].
    destruct (or_null (Some db)); cbn; (next_call h; [| discriminate]);
      reached_decision.
  - destruct (or_null (Some db)); cbn; (next_call h; [| discriminate]);
      reached_decision.
Qed.

Lemma createFeatureBranch_names_the_branch_witness :
  let r := run Sim.handler
               (createFeatureBranch Sim.join_path "ui" "login")
               Scenario.pinned in
  outcome r = Returned true /\
  (ends_with (calls (trace r)) (GitCheckout "services/ui" "feature/login") \/
   ends_with (calls (trace r))
             (GitCheckoutLocalBranch "services/ui" "feature/login")).
Proof.
  intros r. split; [reflexivity |].
  exact (proj2 (createFeatureBranch_names_the_branch
                  Sim.World Sim.handler Sim.join_path "ui" "login"
                  Scenario.pinned eq_refl)).
Defined.

(** The rows of the decision table, on the decision itself. *)

(** Present locally: the operator is asked; a checkout of the branch follows
    only the answer yes, and after the answer no nothing more is called. *)
Lemma enterFeatureBranch_local_asks {W : Type} (h : Handler W)
      (w w1 w2 w3 : W) (path fb : string) (locals remotes : list string)
      (yes : bool) :
  h (GitBranchLocal path) w = (Ok locals, w1) ->
  h (GitBranch path ["-r"]) w1 = (Ok remotes, w2) ->
  Js.includes fb locals = true ->
  h (Confirm "Do you want to switch to it?") w2 = (Ok yes, w3) ->
  let r := run h (enterFeatureBranch path fb) w in
  let asked := [GitBranchLocal path; GitBranch path ["-r"];
                Confirm "Do you want to switch to it?"] in
  if yes
  then calls (trace r) = (asked ++ [GitCheckout path fb])%list /\
       outcome r = Returned (is_ok (fst (h (GitCheckout path fb) w3)))
  else calls (trace r) = asked /\ outcome r = Returned false /\ final r = w3.
Proof.
  intros Hl Hr Hin Hc r asked. subst r asked.
  unfold enterFeatureBranch, branchExists, remoteBranchExists,
    getLocalBranches, getRemoteBranches, checkout.
  answer. destruct yes; cbn.
  - destruct (h (GitCheckout path fb) w3) as [[[] | e] w4]; cbn;
      split; reflexivity.
  - repeat split.
Qed.

(** Neither local nor remote: the branch is created from what is checked
    out, the default branch just pulled. *)
Lemma enterFeatureBranch_absent_creates {W : Type} (h : Handler W)
      (w w1 w2 : W) (path fb : string) (locals remotes : list string) :
  h (GitBranchLocal path) w = (Ok locals, w1) ->
  h (GitBranch path ["-r"]) w1 = (Ok remotes, w2) ->
  Js.includes fb locals = false ->
  Js.includes fb (map (Js.replace "origin/" "") remotes) = false ->
  let r := run h (enterFeatureBranch path fb) w in
  calls (trace r) =
    [GitBranchLocal path; GitBranch path ["-r"];
     GitCheckoutLocalBranch path fb] /\
  outcome r = Returned (is_ok (fst (h (GitCheckoutLocalBranch path fb) w2))).
Proof.
  intros Hl Hr Hin Hrem r. subst r.
  unfold enterFeatureBranch, branchExists, remoteBranchExists,
    getLocalBranches, getRemoteBranches, createBranch.
  answer.
  destruct (h (GitCheckoutLocalBranch path fb) w2) as [[[] | e] w3]; cbn;
    split; reflexivity.
Qed.

(** Remote only: reading [checkoutBranch] off [gitHelpers.git] throws, the
    surrounding [catch] reports a failed checkout, and nothing was called. *)
Lemma enterFeatureBranch_remote_only {W : Type} (h : Handler W)
      (w w1 w2 : W) (path fb : string) (locals remotes : list string) :
  h (GitBranchLocal path) w = (Ok locals, w1) ->
  h (GitBranch path ["-r"]) w1 = (Ok remotes, w2) ->
  Js.includes fb locals = false ->
  Js.includes fb (map (Js.replace "origin/" "") remotes) = true ->
  run h (enterFeatureBranch path fb) w =
  mkRun (Returned false) w2
        [ EvCall (GitBranchLocal path) true;
          EvCall (GitBranch path ["-r"]) true;
          EvOut (LWarning, "Feature branch '" ++ fb ++ "' exists on remote");
          EvOut (LSpin, "Checking out remote branch...");
          EvOut (LSpinFail, "Failed to checkout remote branch") ].
Proof.
  intros Hl Hr Hin Hrem.
  unfold enterFeatureBranch, branchExists, remoteBranchExists,
    getLocalBranches, getRemoteBranches.
  answer. reflexivity.
Qed.

(** C6, where the code departs from it.  When [createFeatureBranch] reaches
    the decision on the feature branch (its run continues there from some
    world [w], after the events [pre]) and the branch is listed on the remote
    but not locally, it returns [false] with "Failed to checkout remote
    branch": the two branch listings are its last calls, no checkout of any
    kind is made, and the world is the one the listings left. *)
Theorem createFeatureBranch_remote_only_fails :
  forall (W : Type) (h : Handler W) (path_join : string -> string -> string)
         (w0 w w1 w2 : W) (serviceName featureName : string)
         (pre : list Event) (locals remotes : list string),
    let servicePath := path_join "services" serviceName in
    let featureBranch := "feature/" ++ featureName in
    run h (createFeatureBranch path_join serviceName featureName) w0 =
      after_all pre
        (run h (finishFeature serviceName servicePath featureBranch) w) ->
    h (GitBranchLocal servicePath) w = (Ok locals, w1) ->
    h (GitBranch servicePath ["-r"]) w1 = (Ok remotes, w2) ->
    Js.includes featureBranch locals = false ->
    Js.includes featureBranch (map (Js.replace "origin/" "") remotes) = true ->
    let r := run h (createFeatureBranch path_join serviceName featureName) w0 in
    outcome r = Returned false /\
    calls (trace r) =
      (calls pre ++ [GitBranchLocal servicePath;
                     GitBranch servicePath ["-r"]])%list /\
    final r = w2 /\
    outs (trace r) =
      (outs pre
       ++ [ (LWarning,
             ("Feature branch '" ++ featureBranch ++ "' exists on remote")%string);
            (LSpin, "Checking out remote branch...");
            (LSpinFail, "Failed to checkout remote branch") ])%list.
Proof.
  intros W h pj w0 w w1 w2 svc feat pre locals remotes path fb
         Hpast Hl Hr Hin Hrem r.
  subst r. rewrite Hpast. unfold finishFeature. rewrite run_bind.
  rewrite (enterFeatureBranch_remote_only h w w1 w2 path fb locals remotes
             Hl Hr Hin Hrem).
  cbn. rewrite calls_app, outs_app. repeat split.
Qed.

Lemma sim_reaches_decision :
  run Sim.handler (createFeatureBranch Sim.join_path "api" "login")
      Scenario.remote_feature =
  after_all Scenario.before_decision
    (run Sim.handler (finishFeature "api" "services/api" "feature/login")
         Scenario.remote_feature).
Proof. reflexivity. Qed.

Lemma createFeatureBranch_remote_only_fails_witness :
  let w := Scenario.remote_feature in
  let r := run Sim.handler (createFeatureBranch Sim.join_path "api" "login") w in
  outcome r = Returned false /\
  calls (trace r) =
    [FsAccess "services/api"; GitStatus "services/api";
     GitStatus "services/api"; GitStatus "services/api";
     symbolic_ref "services/api"; GitFetch "services/api" "origin";
     GitPull "services/api" (Some ("origin", "main"));
     GitBranchLocal "services/api"; GitBranch "services/api" ["-r"]] /\
  final r = w.
Proof.
  intros w r.
  destruct (createFeatureBranch_remote_only_fails
              Sim.World Sim.handler Sim.join_path w w w w "api" "login"
              Scenario.before_decision
              ["main"] ["origin/main"; "origin/feature/login"]
              sim_reaches_decision eq_refl eq_refl eq_refl eq_refl)
    as (Ho & Hc & Hf & _).
  split; [exact Ho | split; [exact Hc | exact Hf]].
Defined.

(** ** Reconciliation of all repositories *)

Ltac split_cases h :=
  repeat (cbn;
          first
            [ next_call h
            | match goal with
              | |- context [match on_branch ?x with _ => _ end] =>
                  destruct (on_branch x)
              | |- context [match or_null ?x with _ => _ end] =>
                  destruct (or_null x)
              | |- context [if negb (isClean ?x) then _ else _] =>
                  destruct (isClean x)
              end
            | progress (rewrite ?run_bind, ?getDefaultBranch_run; cbn zeta;
                        unfold symbolic_ref, branch_listing) ]).

Lemma syncBranch_returns {W : Type} (h : Handler W) (w : W)
      (path name : string) :
  forallb guarded (rejected (trace (run h (syncBranch path name) w))) = true ->
  exists success, outcome (run h (syncBranch path name) w) = Returned success.
Proof.
  unfold syncBranch, getCurrentBranch, fetch, pull, checkout.
  split_cases h; try discriminate; intros _; eexists; reflexivity.
Qed.

(** An exception leaves [syncSubmodule] only from one of its unguarded
    queries, and [process.exit] is not reached: when no such query was
    rejected, it returns. *)
Lemma syncSubmodule_returns {W : Type} (h : Handler W) (w : W)
      (path name : string) (force : bool) :
  forallb guarded (rejected (trace (run h (syncSubmodule path name force) w)))
    = true ->
  exists success,
    outcome (run h (syncSubmodule path name force) w) = Returned success.
Proof.
  unfold syncSubmodule, hasUncommittedChanges, stash. destruct force; cbn.
  - next_call h; [| intros _; eexists; reflexivity].
    next_call h; [| discriminate].
    match goal with |- context [isClean ?x] => destruct (isClean x) end; cbn.
    + apply syncBranch_returns.
    + next_call h; [| intros _; eexists; reflexivity].
      destruct (or_null _); cbn;
        (next_call h; [| intros _; eexists; reflexivity]);
        apply syncBranch_returns.
  - next_call h; [| intros _; eexists; reflexivity].
    next_call h; [| discriminate].
    match goal with |- context [isClean ?x] => destruct (isClean x) end; cbn.
    + apply syncBranch_returns.
    + intros _; eexists; reflexivity.
Qed.

Lemma syncSubmodule_accesses {W : Type} (h : Handler W) (w : W)
      (path name : string) (force : bool) :
  In (FsAccess path) (calls (trace (run h (syncSubmodule path name force) w))).
Proof. unfold syncSubmodule. cbn. left. reflexivity. Qed.

Lemma forallb_guarded_app (t1 t2 : list Event) :
  forallb guarded (rejected (t1 ++ t2)) = true ->
  forallb guarded (rejected t1) = true /\
  forallb guarded (rejected t2) = true.
Proof.
  rewrite rejected_app, forallb_app. apply andb_prop.
Qed.

(** The last line printed is the last line of the later events. *)
Lemma last_line_app (t1 t2 : list Event) :
  outs t2 <> [] -> last_line (t1 ++ t2) = last_line t2.
Proof.
  unfold last_line. rewrite outs_app. generalize (outs t2) as l2.
  induction (outs t1) as [| x l1 IH]; intros l2 Hne; [reflexivity |].
  cbn. destruct (l1 ++ l2)%list eqn:E.
  - apply app_eq_nil in E as [_ ->]. contradiction.
  - rewrite <- E. apply IH. exact Hne.
Qed.

Lemma ended_after (name : string) (b : bool) (t1 t2 : list Event) :
  ended name b t2 -> ended name b (t1 ++ t2).
Proof.
  intros H. destruct (outs t2) eqn:E.
  - exfalso. unfold ended, ended_synced, ended_skipped, ended_failed,
      last_line in H. rewrite E in H. cbn in H.
    destruct b; [discriminate H |].
    destruct H as [H | [H | H]]; discriminate H.
  - unfold ended, ended_synced, ended_skipped, ended_failed in *.
    rewrite last_line_app by (rewrite E; discriminate). exact H.
Qed.

Lemma syncBranch_ends {W : Type} (h : Handler W) (w : W)
      (path name : string) :
  ends_well name (run h (syncBranch path name) w).
Proof.
  unfold syncBranch, getCurrentBranch, fetch, pull, checkout.
  split_cases h.
  all: first [ exact I | reflexivity | right; left; reflexivity ].
Qed.

Lemma ends_well_after {W : Type} (name : string) (e : Event) (v : Run W bool) :
  ends_well name v -> ends_well name (after e v).
Proof.
  unfold ends_well. cbn. destruct (outcome v); auto.
  apply (ended_after name a [e]).
Qed.

(** How a run of [syncSubmodule] that returned has ended: with [true] after
    the success message, with [false] after the warning that the repository
    is skipped or after a reported failure. *)
Lemma syncSubmodule_ends {W : Type} (h : Handler W) (w : W)
      (path name : string) (force : bool) :
  ends_well name (run h (syncSubmodule path name force) w).
Proof.
  unfold syncSubmodule, hasUncommittedChanges, stash. destruct force; cbn.
  - next_call h; [| right; right; reflexivity].
    next_call h; [| exact I].
    match goal with |- context [isClean ?x] => destruct (isClean x) end; cbn.
    + repeat apply ends_well_after. apply syncBranch_ends.
    + next_call h; [| right; left; reflexivity].
      destruct (or_null _); cbn;
        (next_call h; [| right; left; reflexivity]);
        repeat apply ends_well_after; apply syncBranch_ends.
  - next_call h; [| right; right; reflexivity].
    next_call h; [| exact I].
    match goal with |- context [isClean ?x] => destruct (isClean x) end; cbn.
    + repeat apply ends_well_after. apply syncBranch_ends.
    + left. reflexivity.
Qed.

Lemma part_of_cons {A : Type} (x : A) (m t : list A) :
  part_of m t -> part_of m (x :: t).
Proof. intros (pre & post & ->). exists (x :: pre), post. reflexivity. Qed.

Lemma part_of_app {A : Type} (t0 m t : list A) :
  part_of m t -> part_of m (t0 ++ t).
Proof.
  intros (pre & post & ->). exists (t0 ++ pre)%list, post.
  rewrite <- app_assoc. reflexivity.
Qed.

Lemma part_of_head {A : Type} (m post : list A) : part_of m (m ++ post).
Proof. exists [], post. reflexivity. Qed.

Lemma ended_one_way (name : string) (t : list Event) :
  ended_synced name t -> ~ (ended_skipped name t \/ ended_failed t).
Proof.
  unfold ended_synced, ended_skipped, ended_failed.
  intros -> [H | [H | H]]; discriminate H.
Qed.

Lemma records_run {W : Type} (s : Submodule) (v : Run W bool) (b : bool) :
  outcome v = Returned b -> ends_well (sm_name s) v ->
  records (s, v) (mkResult (sm_name s) (sm_path s) b).
Proof.
  unfold ends_well, records. intros Ho He. rewrite Ho in He. cbn.
  split; [reflexivity |]. split; [reflexivity |]. split; [exact Ho |].
  destruct b; cbn in He; split; split; intros H; try discriminate H;
    try reflexivity; try exact He.
  - destruct (ended_one_way _ _ He H).
  - destruct (ended_one_way _ _ H He).
Qed.

Lemma syncEach_visits {W : Type} (h : Handler W) (force : bool)
      (submodules : list Submodule) :
  forall (results : list SyncResult) (w : W),
    forallb guarded
      (rejected (trace (run h (syncEach force submodules results) w))) = true ->
    exists added,
      outcome (run h (syncEach force submodules results) w)
        = Returned (results ++ added)%list /\
      trace (run h (syncEach force submodules results) w)
        = concat (map trace (visits h force submodules w)) /\
      Forall2 records (combine submodules (visits h force submodules w)) added.
Proof.
  induction submodules as [| s rest IH]; intros results w.
  - intros _. exists []. cbn. rewrite app_nil_r. repeat split. constructor.
  - unfold syncEach; fold syncEach. rewrite run_bind.
    destruct (outcome (run h (syncSubmodule (sm_path s) (sm_name s) force) w))
      as [success | e | n] eqn:Ho.
    + intros Hg. cbn in Hg. apply forallb_guarded_app in Hg as [_ Hg].
      destruct (IH _ _ Hg) as (added & Hout & Ht & Hall).
      exists (mkResult (sm_name s) (sm_path s) success :: added).
      cbn. rewrite Hout, Ht, <- app_assoc. cbn.
      split; [reflexivity |]. split; [reflexivity |].
      constructor; [| exact Hall].
      apply records_run; [exact Ho | apply syncSubmodule_ends].
    + intros Hg. cbn in Hg.
      destruct (syncSubmodule_returns h w _ _ _ Hg) as [b Hb]. congruence.
    + intros Hg. cbn in Hg.
      destruct (syncSubmodule_returns h w _ _ _ Hg) as [b Hb]. congruence.
Qed.

Lemma records_names {W : Type} (submodules : list Submodule)
      (vs : list (Run W bool)) (results : list SyncResult) :
  length vs = length submodules ->
  Forall2 records (combine submodules vs) results ->
  map res_name results = map sm_name submodules /\
  map res_path results = map sm_path submodules.
Proof.
  revert vs results.
  induction submodules as [| s rest IH]; intros vs results Hl HF.
  - cbn in HF. inversion HF. split; reflexivity.
  - destruct vs as [| v vs]; [discriminate Hl |].
    cbn in HF. inversion HF as [| sv result l l' Hr HF' E1 E2]. subst.
    injection Hl as Hl. destruct (IH vs l' Hl HF') as [Hn Hp].
    destruct Hr as (Hrn & Hrp & _). cbn in Hrn, Hrp. cbn.
    rewrite Hrn, Hrp, Hn, Hp. split; reflexivity.
Qed.

Lemma visits_length {W : Type} (h : Handler W) (force : bool)
      (submodules : list Submodule) :
  forall w, length (visits h force submodules w) = length submodules.
Proof.
  induction submodules as [| s rest IH]; intros w; cbn;
    [| rewrite IH]; reflexivity.
Qed.

Lemma updateParent_returns {W : Type} (h : Handler W) (w : W) :
  outcome (run h updateParent w) = Returned tt.
Proof.
  unfold updateParent, add, hasUncommittedChanges.
  split_cases h; reflexivity.
Qed.

Lemma showStatus_returns {W : Type} (h : Handler W) (w : W) :
  outcome (run h showStatus w) = Returned tt.
Proof.
  unfold showStatus, getSubmoduleStatus. cbn.
  next_call h; [| reflexivity].
  rewrite run_try_catch, run_sayAll. reflexivity.
Qed.

Lemma showSummary_run {W : Type} (h : Handler W) (w : W)
      (results : list SyncResult) :
  run h (showSummary results) w =
  mkRun (Returned tt) w
        (EvOut (LSection, "Summary") :: map EvOut (map summaryLine results)).
Proof. unfold showSummary. cbn. rewrite run_sayAll. reflexivity. Qed.

Lemma outs_map_EvOut (ls : list Line) : outs (map EvOut ls) = ls.
Proof. induction ls as [| l ls IH]; simpl; [| rewrite IH]; reflexivity. Qed.

Lemma outs_cons_out (l : Line) (t : list Event) :
  outs (EvOut l :: t) = l :: outs t.
Proof. reflexivity. Qed.

Lemma summary_printed_cons (l : Line) (ls : list Line)
      (results : list SyncResult) :
  summary_printed ls results -> summary_printed (l :: ls) results.
Proof. intros (pre & post & ->). exists (l :: pre), post. reflexivity. Qed.

Lemma summary_printed_app (ls0 ls : list Line) (results : list SyncResult) :
  summary_printed ls results -> summary_printed (ls0 ++ ls) results.
Proof.
  intros (pre & post & ->). exists (ls0 ++ pre)%list, post.
  rewrite <- app_assoc. reflexivity.
Qed.

Lemma summary_printed_here (post : list Line) (results : list SyncResult) :
  summary_printed ((LSection, "Summary") :: map summaryLine results ++ post)
                  results.
Proof. exists [], post. reflexivity. Qed.

(** From the loop on: if no unguarded query is rejected, every repository of
    the list is visited, its result is the value its run returned, and the
    summary has one line for each. *)
Lemma syncRegistered_visits {W : Type} (h : Handler W) (w : W)
      (force : bool) (submodules : list Submodule) :
  let r := run h (syncRegistered force submodules) w in
  forallb guarded (rejected (trace r)) = true ->
  exists results,
    outcome r = Returned tt /\
    part_of (concat (map trace (visits h force submodules w))) (trace r) /\
    Forall2 records (combine submodules (visits h force submodules w)) results /\
    summary_printed (outs (trace r)) results.
Proof.
  intros r. subst r. unfold syncRegistered. rewrite run_bind.
  destruct (outcome (run h (syncEach force submodules []) w))
    as [results | e | n] eqn:Ho; cbn.
  - intros Hg. apply forallb_guarded_app in Hg as [Hg _].
    destruct (syncEach_visits h force submodules [] w Hg)
      as (added & Hout & Ht & Hall).
    rewrite Ho in Hout. injection Hout as ->. cbn.
    exists added. rewrite !run_bind.
    rewrite !updateParent_returns. cbn. rewrite !showSummary_run. cbn.
    rewrite !showStatus_returns. cbn.
    split; [reflexivity |]. split; [| split; [exact Hall |]].
    + rewrite Ht. apply part_of_head.
    + rewrite outs_app. apply summary_printed_app.
      rewrite outs_cons_out. apply summary_printed_cons.
      rewrite outs_app. apply summary_printed_app.
      rewrite outs_cons_out, outs_app, outs_map_EvOut.
      apply summary_printed_here.
  - intros Hg.
    destruct (syncEach_visits h force submodules [] w Hg)
      as (added & Hout & _). congruence.
  - intros Hg.
    destruct (syncEach_visits h force submodules [] w Hg)
      as (added & Hout & _). congruence.
Qed.

(** The unguarded queries are not caught: a [status()] that is rejected
    ends [syncSubmodule] with that rejection, and with it the loop, before
    the repositories that follow are visited. *)
Lemma syncSubmodule_status_rejection_escapes {W : Type} (h : Handler W)
      (w w1 w2 : W) (path name : string) (force : bool) (e : Error) :
  h (FsAccess path) w = (Ok tt, w1) ->
  h (GitStatus path) w1 = (Err e, w2) ->
  outcome (run h (syncSubmodule path name force) w) = Thrown e /\
  calls (trace (run h (syncSubmodule path name force) w))
    = [FsAccess path; GitStatus path].
Proof.
  intros Ha Hs. unfold syncSubmodule, hasUncommittedChanges. answer.
  split; reflexivity.
Qed.

Lemma syncEach_status_rejection_escapes {W : Type} (h : Handler W)
      (w w1 w2 : W) (force : bool) (s : Submodule) (rest : list Submodule)
      (results : list SyncResult) (e : Error) :
  h (FsAccess (sm_path s)) w = (Ok tt, w1) ->
  h (GitStatus (sm_path s)) w1 = (Err e, w2) ->
  outcome (run h (syncEach force (s :: rest) results) w) = Thrown e /\
  calls (trace (run h (syncEach force (s :: rest) results) w))
    = [FsAccess (sm_path s); GitStatus (sm_path s)].
Proof.
  intros Ha Hs.
  destruct (syncSubmodule_status_rejection_escapes
              h w w1 w2 (sm_path s) (sm_name s) force e Ha Hs) as [Ho Hc].
  unfold syncEach; fold syncEach. rewrite run_bind, Ho. cbn.
  split; [reflexivity | exact Hc].
Qed.

(** C2, as the code has it.  With [.gitmodules] in place and a registry
    that lists [submodules], a run of [syncSubmodules] in which no unguarded
    query (a [status()], or the branch listing of [getDefaultBranch]) is
    rejected returns after running [syncSubmodule] for every listed
    repository, in order, each from the world the one before left, whatever
    was rejected in between: a missing directory or a stash, fetch, checkout
    or pull that fails ends that repository only.  It keeps one result
    [{name, path, success}] per repository, and [success] is the boolean
    that repository's run returned: [true] exactly when the run ended with
    "Successfully synced <name>", [false] exactly when it ended with
    "Skipping <name>..." or with a reported failure.  Under "Summary" it
    prints one line per result: the check mark and the name when [success]
    is [true], the cross, the name and "(failed)" when it is [false],
    skipped or failed alike. *)
Theorem syncSubmodules_one_outcome_per_repository :
  forall (W : Type) (h : Handler W) (w w1 : W) (force : bool)
         (submodules : list Submodule),
    h (FsAccess ".gitmodules") w = (Ok tt, w1) ->
    fst (h ReadRegistry (snd (h GitSubmoduleInit w1))) = Ok submodules ->
    submodules <> [] ->
    let r := run h (syncSubmodules force) w in
    let vs := visits h force submodules
                     (snd (h ReadRegistry (snd (h GitSubmoduleInit w1)))) in
    forallb guarded (rejected (trace r)) = true ->
    exists results,
      outcome r = Returned tt /\
      part_of (concat (map trace vs)) (trace r) /\
      Forall2 records (combine submodules vs) results /\
      map res_name results = map sm_name submodules /\
      map res_path results = map sm_path submodules /\
      part_of ((LSection, "Summary")
               :: map (fun result =>
                         if res_success result
                         then (LItem, Icons.check ++ " " ++ res_name result)
                         else (LItem, Icons.cross ++ " " ++ res_name result
                                      ++ " (failed)"))
                      results)
              (outs (trace r)).
Proof.
  intros W h w w1 force subs Ha Hreg Hne r vs. subst r vs.
  unfold syncSubmodules, getSubmodules, initSubmodules.
  destruct (h GitSubmoduleInit w1) as [ri w2] eqn:Ei. cbn in Hreg |- *.
  destruct (h ReadRegistry w2) as [rr w3] eqn:Er. cbn in Hreg |- *. subst rr.
  destruct subs as [| s rest]; [contradiction |].
  destruct force; cbn; rewrite Ha; cbn; rewrite Ei; destruct ri; cbn;
    rewrite Er; cbn; intros Hg;
    destruct (syncRegistered_visits h w3 _ (s :: rest) Hg)
      as (results & Ho & Ht & Hall & Hs);
    destruct (records_names (s :: rest) _ results
                (visits_length h _ (s :: rest) w3) Hall) as [Hn Hp];
    exists results;
    (split; [exact Ho |]);
    (split; [repeat first [exact Ht | apply part_of_cons] |]);
    (split; [exact Hall |]); (split; [exact Hn |]); (split; [exact Hp |]);
    repeat first [exact Hs | apply part_of_cons].
Qed.

Lemma syncSubmodules_one_outcome_per_repository_witness :
  let w := Scenario.dirty_and_offline in
  let r := run Sim.handler (syncSubmodules false) w in
  let vs := visits Sim.handler false [Scenario.api; Scenario.ui] w in
  forallb guarded (rejected (trace r)) = true /\
  map outcome vs = [Returned false; Returned false] /\
  exists results,
    outcome r = Returned tt /\
    Forall2 records (combine [Scenario.api; Scenario.ui] vs) results /\
    map res_name results = ["api"; "ui"] /\
    map res_path results = ["services/api"; "services/ui"] /\
    summary_printed (outs (trace r)) results.
Proof.
  intros w r vs. split; [reflexivity |]. split; [reflexivity |].
  destruct (syncSubmodules_one_outcome_per_repository
              Sim.World Sim.handler w w false [Scenario.api; Scenario.ui]
              eq_refl eq_refl ltac:(discriminate) eq_refl)
    as (results & Ho & _ & Hall & Hn & Hp & Hs).
  exists results.
  split; [exact Ho |]. split; [exact Hall |].
  split; [exact Hn |]. split; [exact Hp |]. exact Hs.
Defined.

(** C2, as stated, fails twice over.  It wants a repository that was
    skipped told apart from one that failed: with [api] holding uncommitted
    changes (skipped without [--force]) and [ui] unable to reach its remote
    (its fetch is rejected), both get the same result, [success = false], and
    the same kind of summary line, the cross with "(failed)".  And it wants
    no failure in one repository to end the run: with [api] pinned at a
    revision and its branches unlistable, the listing rejected inside
    [getDefaultBranch] leaves [syncSubmodules] as an exception, [ui] is never
    visited and no summary is printed. *)
Lemma syncSubmodules_skip_as_failure_and_abort :
  (let w := Scenario.dirty_and_offline in
   let r := run Sim.handler (syncSubmodules false) w in
   In (LWarning, "Skipping api...") (outs (trace r)) /\
   In (LSpinFail, "Failed to fetch changes") (outs (trace r)) /\
   rejected (trace r) = [GitFetch "services/ui" "origin"] /\
   outcome (run Sim.handler (syncEach false [Scenario.api; Scenario.ui] []) w)
     = Returned [ mkResult "api" "services/api" false;
                  mkResult "ui" "services/ui" false ] /\
   summary_printed (outs (trace r))
     [ mkResult "api" "services/api" false;
       mkResult "ui" "services/ui" false ] /\
   map summaryLine [ mkResult "api" "services/api" false;
                     mkResult "ui" "services/ui" false ]
     = [ (LItem, Icons.cross ++ " api (failed)");
         (LItem, Icons.cross ++ " ui (failed)") ]) /\
  (let w := Scenario.broken_ref in
   let r := run Sim.handler (syncSubmodules false) w in
   outcome r = Thrown "fatal: missing object for a ref" /\
   calls (trace r) =
     [ FsAccess ".gitmodules"; GitSubmoduleInit; ReadRegistry;
       FsAccess "services/api"; GitStatus "services/api";
       GitStatus "services/api"; GitFetch "services/api" "origin";
       symbolic_ref "services/api"; branch_listing "services/api" ] /\
   existsb (fun l => String.eqb (snd l) "Summary") (outs (trace r)) = false).
Proof.
  split.
  - intros w r.
    split; [vm_compute; tauto |].
    split; [vm_compute; tauto |].
    split; [reflexivity |].
    split; [reflexivity |].
    split; [| reflexivity].
    exists (firstn 20 (outs (trace r))), (skipn 23 (outs (trace r))).
    reflexivity.
  - repeat split.
Qed.

(** ** The parent repository after a sync *)

Lemma string_app_assoc (a b c : string) : (a ++ b) ++ c = a ++ b ++ c.
Proof. induction a as [| x a IH]; simpl; [| rewrite IH]; reflexivity. Qed.

(** As the code stands the parent-side step never comes to its prompt or
    its commit: with changes staged, reading [status] off [gitHelpers.git]
    throws and the [catch] of the step takes over. *)
Lemma updateParent_never_commits {W : Type} (h : Handler W) (w : W) :
  forall c, In c (calls (trace (run h updateParent w))) ->
            c = GitAdd "." "." \/ c = GitStatus ".".
Proof.
  unfold updateParent, add, hasUncommittedChanges.
  split_cases h; cbn; intros c Hin;
    repeat match goal with
           | H : _ \/ _ |- _ => destruct H
           | H : False |- _ => destruct H
           end; subst; auto.
Qed.

(** C3, as stated, fails: it wants only the changed submodule pointers
    staged.  With [ui] advanced, [api] unchanged and an edited README in the
    parent, nothing staged yet, the step stages README.md next to
    services/ui. *)
Lemma updateParent_stages_unrelated_changes :
  let w := Scenario.advanced in
  let r := run Sim.handler updateParent w in
  calls (trace r) = [GitAdd "." "."; GitStatus "."] /\
  option_map Sim.changes (Sim.find "." (Sim.repos w))
    = Some ["services/ui"; "README.md"] /\
  option_map Sim.staged (Sim.find "." (Sim.repos w)) = Some [] /\
  option_map Sim.staged (Sim.find "." (Sim.repos (final r)))
    = Some ["services/ui"; "README.md"].
Proof. repeat split. Qed.

(** ** Pull request for a linked repository *)

Lemma getDefaultBranch_calls {W : Type} (h : Handler W) (dir : string) (w : W) :
  existsb is_pr_create (calls (trace (run h (getDefaultBranch dir) w))) = false.
Proof.
  rewrite getDefaultBranch_run. cbn zeta.
  destruct (fst (h (symbolic_ref dir) w)); [reflexivity |].
  destruct (fst (h (branch_listing dir) _)); reflexivity.
Qed.

(** * The rest of the code *)

(** ** Strings *)

Lemma string_app_nil_r (s : string) : s ++ "" = s.
Proof. induction s as [| c s IH]; simpl; [| rewrite IH]; reflexivity. Qed.

Lemma string_app_assoc' (a b c : string) : (a ++ b) ++ c = a ++ b ++ c.
Proof. induction a as [| x a IH]; simpl; [| rewrite IH]; reflexivity. Qed.

Lemma concat_cons (x : string) (l : list string) :
  String.concat "" (x :: l) = x ++ String.concat "" l.
Proof. destruct l; simpl; [rewrite string_app_nil_r |]; reflexivity. Qed.

Lemma strip_prefix_self (p r : string) : Js.strip_prefix p (p ++ r) = Some r.
Proof.
  induction p as [| a p IH]; simpl; [reflexivity |].
  rewrite Ascii.eqb_refl. exact IH.
Qed.

Lemma includes_app (a p b : string) : JsStr.includes p (a ++ p ++ b) = true.
Proof.
  induction a as [| c a IH]; simpl.
  - destruct (p ++ b) eqn:E; unfold JsStr.includes; fold JsStr.includes;
      unfold JsStr.startsWith; rewrite <- E, strip_prefix_self; reflexivity.
  - rewrite IH. apply orb_true_r.
Qed.

Lemma lacks_app (c : ascii) (a b : string) :
  lacks c (a ++ b) = lacks c a && lacks c b.
Proof.
  induction a as [| d a IH]; simpl; [reflexivity |].
  rewrite IH. apply andb_assoc.
Qed.

Lemma strip_prefix_lacks (c : ascii) (p s : string) :
  lacks c s = true -> lacks c p = false -> Js.strip_prefix p s = None.
Proof.
  revert s; induction p as [| a p IH]; intros s Hs Hp; simpl in *.
  - discriminate.
  - destruct s as [| b s]; [reflexivity |]. simpl in Hs.
    apply andb_prop in Hs as [Hb Hs].
    destruct (Ascii.eqb_spec a b) as [-> |]; [| reflexivity].
    rewrite Hb in Hp. simpl in Hp. apply IH; assumption.
Qed.

Lemma includes_lacks (c : ascii) (p s : string) :
  lacks c s = true -> lacks c p = false -> JsStr.includes p s = false.
Proof.
  intros Hs Hp. induction s as [| d s IH]; simpl;
    unfold JsStr.startsWith; rewrite (strip_prefix_lacks c) by assumption;
    simpl; [reflexivity |].
  simpl in Hs. apply andb_prop in Hs as [_ Hs]. apply IH; exact Hs.
Qed.

Lemma replace_lacks (c : ascii) (pat rep s : string) :
  lacks c s = true -> lacks c pat = false -> Js.replace pat rep s = s.
Proof.
  intros Hs Hp. induction s as [| d s IH];
    unfold Js.replace; fold Js.replace;
    rewrite (strip_prefix_lacks c) by assumption; [reflexivity |].
  simpl in Hs. apply andb_prop in Hs as [_ Hs]. rewrite IH by exact Hs.
  reflexivity.
Qed.

Lemma split_lacks (c : ascii) (s : string) :
  lacks c s = true -> Js.split c s = [s].
Proof.
  induction s as [| d s IH]; intros H; unfold Js.split; fold Js.split;
    [reflexivity |].
  simpl in H. apply andb_prop in H as [Hd H].
  rewrite Ascii.eqb_sym in Hd. destruct (Ascii.eqb d c); [discriminate |].
  rewrite (IH H). reflexivity.
Qed.

Lemma split_app (c : ascii) (a rest : string) :
  lacks c a = true ->
  Js.split c (a ++ String c rest) = a :: Js.split c rest.
Proof.
  induction a as [| d a IH]; intros H; simpl;
    unfold Js.split; fold Js.split.
  - rewrite Ascii.eqb_refl. reflexivity.
  - simpl in H. apply andb_prop in H as [Hd H].
    rewrite Ascii.eqb_sym in Hd. destruct (Ascii.eqb d c); [discriminate |].
    rewrite (IH H). reflexivity.
Qed.

Lemma split_nonempty (c : ascii) (s : string) : Js.split c s <> [].
Proof.
  induction s as [| d s IH]; unfold Js.split; fold Js.split;
    [discriminate |].
  destruct (Ascii.eqb d c); [discriminate |].
  destruct (Js.split c s); [contradiction | discriminate].
Qed.

(** A line that holds the separator has a second field. *)
Lemma split_second (c : ascii) (s : string) :
  lacks c s = false -> exists a v rest, Js.split c s = a :: v :: rest.
Proof.
  induction s as [| d s IH]; intros H; simpl in H; [discriminate |].
  unfold Js.split; fold Js.split.
  rewrite Ascii.eqb_sym in H.
  destruct (Ascii.eqb d c); simpl in H.
  - destruct (Js.split c s) as [| v rest] eqn:E;
      [exfalso; exact (split_nonempty c s E) |].
    exists "", v, rest. reflexivity.
  - destruct (IH H) as (a & v & rest & ->).
    exists (String d a), v, rest. reflexivity.
Qed.

Lemma startsWith_inv (p s : string) :
  JsStr.startsWith p s = true -> exists r, s = p ++ r.
Proof.
  unfold JsStr.startsWith. destruct (Js.strip_prefix p s) as [r |] eqn:E;
    [| discriminate].
  intros _. exists r. apply strip_prefix_app; exact E.
Qed.

Lemma includes_holds (c : ascii) (p s : string) :
  JsStr.includes p s = true -> lacks c p = false -> lacks c s = false.
Proof.
  intros Hi Hp. destruct (lacks c s) eqn:Hs; [| reflexivity].
  rewrite (includes_lacks c p s Hs Hp) in Hi. discriminate.
Qed.

Lemma list_ascii_app (a b : string) :
  list_ascii_of_string (a ++ b)
  = (list_ascii_of_string a ++ list_ascii_of_string b)%list.
Proof. induction a as [| c a IH]; simpl; [| rewrite IH]; reflexivity. Qed.

Lemma string_of_list_app (a b : list ascii) :
  string_of_list_ascii (a ++ b)
  = string_of_list_ascii a ++ string_of_list_ascii b.
Proof. induction a as [| c a IH]; simpl; [| rewrite IH]; reflexivity. Qed.

Lemma rev_string_app (a b : string) :
  Js.rev_string (a ++ b) = Js.rev_string b ++ Js.rev_string a.
Proof.
  unfold Js.rev_string. rewrite list_ascii_app, rev_app_distr.
  apply string_of_list_app.
Qed.

Lemma rev_string_involutive (s : string) :
  Js.rev_string (Js.rev_string s) = s.
Proof.
  unfold Js.rev_string.
  rewrite list_ascii_of_string_of_list_ascii, rev_involutive.
  apply string_of_list_ascii_of_string.
Qed.

Lemma rev_string_nonempty (s : string) : s <> "" -> Js.rev_string s <> "".
Proof.
  intros H E. apply H. rewrite <- (rev_string_involutive s), E. reflexivity.
Qed.

(** *** White space and multi-byte tokens *)

Lemma strip_all_high (p s t : string) :
  all_high p = true -> Js.strip_prefix p s = None -> low_head t = true ->
  Js.strip_prefix p (s ++ t) = None.
Proof.
  revert s; induction p as [| a p IH]; intros s Hp Hs Ht; simpl in *.
  - discriminate.
  - apply andb_prop in Hp as [Ha Hp].
    destruct s as [| b s]; simpl.
    + destruct t as [| c t]; [reflexivity |]. simpl in Ht.
      destruct (Ascii.eqb_spec a c) as [-> |]; [| reflexivity].
      rewrite Ha in Ht. discriminate.
    + destruct (Ascii.eqb a b); [| reflexivity]. apply IH; assumption.
Qed.

Lemma strip_high_tail (p s t : string) :
  high_tail p = true -> s <> "" -> Js.strip_prefix p s = None ->
  low_head t = true -> Js.strip_prefix p (s ++ t) = None.
Proof.
  intros Hp Hne Hs Ht. destruct p as [| a p]; simpl in *; [discriminate |].
  destruct s as [| b s]; [contradiction |]. simpl.
  destruct (Ascii.eqb a b); [| reflexivity].
  apply strip_all_high; assumption.
Qed.

Lemma drop_token_none (tokens : list string) (s : string) :
  Js.drop_token tokens s = None ->
  Forall (fun t => Js.strip_prefix t s = None) tokens.
Proof.
  induction tokens as [| t ts IH]; simpl; intros H; [constructor |].
  destruct (Js.strip_prefix t s) eqn:E; [discriminate |].
  constructor; auto.
Qed.

Lemma drop_token_app_low (tokens : list string) (s t : string) :
  forallb high_tail tokens = true -> s <> "" ->
  Js.drop_token tokens s = None -> low_head t = true ->
  Js.drop_token tokens (s ++ t) = None.
Proof.
  intros Hh Hne Hs Ht. induction tokens as [| p ts IH]; simpl in *;
    [reflexivity |].
  apply andb_prop in Hh as [Hp Hh].
  destruct (Js.strip_prefix p s) eqn:E; [discriminate |].
  rewrite (strip_high_tail p s t Hp Hne E Ht). apply IH; assumption.
Qed.

Lemma whitespace_high_tail : forallb high_tail Js.whitespace = true.
Proof. reflexivity. Qed.

Lemma whitespace_rev_high_tail :
  forallb high_tail (map Js.rev_string Js.whitespace) = true.
Proof. reflexivity. Qed.

Lemma terminators_high_tail : forallb high_tail JsStr.line_terminators = true.
Proof. reflexivity. Qed.

Lemma drop_tokens_none (n : nat) (tokens : list string) (s : string) :
  Js.drop_token tokens s = None -> Js.drop_tokens n tokens s = s.
Proof. intros H. destruct n; simpl; [| rewrite H]; reflexivity. Qed.

Lemma trim_trimmed (s : string) : trimmed s = true -> Js.trim s = s.
Proof.
  unfold trimmed.
  destruct (Js.drop_token Js.whitespace s) eqn:E1; [discriminate |].
  destruct (Js.drop_token (map Js.rev_string Js.whitespace) (Js.rev_string s))
    eqn:E2; [discriminate |].
  intros _. unfold Js.trim, Js.trimStart, Js.trimEnd.
  rewrite (drop_tokens_none _ _ _ E1), (drop_tokens_none _ _ _ E2).
  apply rev_string_involutive.
Qed.

Lemma trimStart_space (s : string) :
  Js.trimStart (String " " s) = Js.trimStart s.
Proof. reflexivity. Qed.

Lemma trim_space (s : string) : Js.trim (String " " s) = Js.trim s.
Proof. unfold Js.trim. rewrite trimStart_space. reflexivity. Qed.

Lemma trim_empty : Js.trim "" = "".
Proof. reflexivity. Qed.

(** Text put before a trimmed word, a low byte before its end, keeps the
    end as it is. *)
Lemma trimmed_behind (pre s : string) :
  s <> "" -> trimmed s = true ->
  Js.drop_token Js.whitespace (pre ++ s) = None ->
  low_head (Js.rev_string pre) = true ->
  trimmed (pre ++ s) = true.
Proof.
  unfold trimmed. intros Hne Hs Hpre Hlow. rewrite Hpre.
  destruct (Js.drop_token Js.whitespace s); [discriminate |].
  destruct (Js.drop_token (map Js.rev_string Js.whitespace) (Js.rev_string s))
    eqn:E; [discriminate |].
  rewrite rev_string_app.
  rewrite (drop_token_app_low _ _ _ whitespace_rev_high_tail
             (rev_string_nonempty s Hne) E Hlow).
  reflexivity.
Qed.

Lemma free_of_head (tokens : list string) (c : ascii) (s : string) :
  free_of tokens (String c s) = true ->
  Js.drop_token tokens (String c s) = None /\ free_of tokens s = true.
Proof.
  unfold free_of; fold free_of.
  destruct (Js.drop_token tokens (String c s)); [discriminate | auto].
Qed.

Lemma free_of_terminators_lacks_LF (s : string) :
  free_of JsStr.line_terminators s = true -> lacks Js.LF s = true.
Proof.
  induction s as [| c s IH]; intros H; [reflexivity |].
  apply free_of_head in H as [H1 H2].
  change (lacks Js.LF (String c s))
    with (negb (Ascii.eqb Js.LF c) && lacks Js.LF s).
  rewrite (IH H2), andb_true_r.
  destruct (Ascii.eqb_spec Js.LF c) as [<- |]; [| reflexivity].
  discriminate H1.
Qed.

(** ** The scan of .gitmodules *)

Lemma quoted_name_nonempty (s n : string) :
  JsStr.quoted_name s = Some n -> n <> "".
Proof.
  destruct s as [| c s]; [discriminate |].
  unfold JsStr.quoted_name; fold JsStr.quoted_name.
  destruct (Js.drop_token JsStr.line_terminators (String c s));
    [discriminate |].
  destruct (JsStr.quoted_name s);
    [| destruct (JsStr.startsWith _ s)]; intros H; inversion H;
    discriminate.
Qed.

Lemma submodule_name_nonempty (line n : string) :
  JsStr.submodule_name line = Some n -> n <> "".
Proof.
  induction line as [| c line IH]; unfold JsStr.submodule_name;
    fold JsStr.submodule_name.
  - destruct (Js.strip_prefix _ "") as [rest |] eqn:E; [| discriminate].
    destruct (JsStr.quoted_name rest) eqn:Q; [| discriminate].
    intros [= <-]. eapply quoted_name_nonempty; exact Q.
  - destruct (Js.strip_prefix _ (String c line)) as [rest |] eqn:E.
    + destruct (JsStr.quoted_name rest) eqn:Q; [| exact IH].
      intros [= <-]. eapply quoted_name_nonempty; exact Q.
    + exact IH.
Qed.

Lemma field_value_defined (p line : string) :
  JsStr.includes p line = true -> lacks "=" p = false ->
  exists v, field_value line = Ok v.
Proof.
  intros Hi Hp. unfold field_value.
  destruct (split_second "=" line (includes_holds "=" p line Hi Hp))
    as (a & v & rest & ->).
  eexists; reflexivity.
Qed.

Lemma update_current_names (f : Entry -> Entry) (l : list Entry) :
  (forall e, entry_name (f e) = entry_name e) ->
  map entry_name (update_current f l) = map entry_name l.
Proof.
  intros Hf. induction l as [| e l IH]; [reflexivity |].
  destruct l as [| e' l]; simpl; [rewrite Hf; reflexivity |].
  simpl in IH. rewrite IH. reflexivity.
Qed.

Lemma scanLine_names (submodules : list Entry) (line : string) :
  exists submodules',
    scanLine submodules line = Ok submodules' /\
    map entry_name submodules'
    = (map entry_name submodules ++ header_names line)%list.
Proof.
  unfold scanLine, header_names.
  destruct (JsStr.startsWith "[submodule" line).
  - destruct (JsStr.submodule_name line) as [n |] eqn:E.
    + apply submodule_name_nonempty, truthy_true in E. rewrite E.
      eexists; split; [reflexivity |]. rewrite map_app. reflexivity.
    + eexists; split; [reflexivity |]. rewrite app_nil_r. reflexivity.
  - rewrite app_nil_r. destruct submodules as [| e l];
      [eexists; split; reflexivity |].
    destruct (JsStr.includes "path =" line) eqn:Hp.
    + destruct (field_value_defined _ _ Hp eq_refl) as [v ->].
      eexists; split; [reflexivity |].
      apply update_current_names; reflexivity.
    + destruct (JsStr.includes "url =" line) eqn:Hu.
      * destruct (field_value_defined _ _ Hu eq_refl) as [v ->].
        eexists; split; [reflexivity |].
        apply update_current_names; reflexivity.
      * eexists; split; reflexivity.
Qed.

Lemma scanLines_names (lines : list string) :
  forall submodules,
  exists submodules',
    scanLines lines submodules = Ok submodules' /\
    map entry_name submodules'
    = (map entry_name submodules ++ flat_map header_names lines)%list.
Proof.
  induction lines as [| line lines IH]; intros submodules; simpl.
  - eexists; split; [reflexivity |]. rewrite app_nil_r. reflexivity.
  - destruct (scanLine_names submodules line) as (s1 & -> & H1).
    destruct (IH s1) as (s2 & H2 & H3).
    exists s2. split; [exact H2 |]. rewrite H3, H1, <- app_assoc.
    reflexivity.
Qed.

(** X1.  The scan of [.gitmodules] in [getSubmodules] never throws, whatever
    the file holds: a line that includes "path =" or "url =" always has the
    second field its value is read from.  The names it yields are the
    captures of the header lines, in file order: no other line adds, drops
    or renames an entry, and a file without a well-formed header gives the
    empty list. *)
Theorem scanGitmodules_one_entry_per_header :
  forall content : string,
    exists submodules,
      scanGitmodules content = Ok submodules /\
      map entry_name submodules
      = flat_map header_names (Js.split Js.LF content).
Proof.
  intros content. unfold scanGitmodules.
  destruct (scanLines_names (Js.split Js.LF content) [])
    as (s & H1 & H2).
  exists s. split; [exact H1 | exact H2].
Qed.

Lemma quoted_name_exact (n : string) :
  n <> "" -> free_of JsStr.line_terminators n = true ->
  JsStr.quoted_name (n ++ Js.dquote ++ "]") = Some n.
Proof.
  induction n as [| c n IH]; intros Hne Hf; [contradiction |].
  apply free_of_head in Hf as [Hd Hf].
  change (String c n ++ Js.dquote ++ "]")
    with (String c (n ++ Js.dquote ++ "]")).
  unfold JsStr.quoted_name; fold JsStr.quoted_name.
  change (String c (n ++ Js.dquote ++ "]"))
    with (String c n ++ Js.dquote ++ "]").
  rewrite (drop_token_app_low _ (String c n) _ terminators_high_tail)
    by (try discriminate; try assumption; reflexivity).
  destruct n as [| d n].
  - reflexivity.
  - rewrite IH by (try discriminate; assumption). reflexivity.
Qed.

Lemma submodule_name_header (n : string) :
  n <> "" -> free_of JsStr.line_terminators n = true ->
  JsStr.submodule_name ("[submodule " ++ Js.dquote ++ n ++ Js.dquote ++ "]")
  = Some n.
Proof.
  intros Hne Hf.
  change ("[submodule " ++ Js.dquote ++ n ++ Js.dquote ++ "]")
    with (String "[" ("submodule " ++ Js.dquote ++ n ++ Js.dquote ++ "]")).
  unfold JsStr.submodule_name; fold JsStr.submodule_name.
  change (String "[" ("submodule " ++ Js.dquote ++ n ++ Js.dquote ++ "]"))
    with (("[submodule " ++ Js.dquote) ++ n ++ Js.dquote ++ "]").
  rewrite strip_prefix_self, quoted_name_exact by assumption.
  reflexivity.
Qed.

Lemma update_current_last (f : Entry -> Entry) (acc : list Entry) (e : Entry) :
  update_current f (acc ++ [e]) = (acc ++ [f e])%list.
Proof.
  induction acc as [| a acc IH]; [reflexivity |].
  simpl. rewrite IH. destruct acc; reflexivity.
Qed.

Lemma plain_value_field (k v : string) :
  lacks "=" k = true -> plain_value v = true ->
  field_value (k ++ "= " ++ v) = Ok v.
Proof.
  unfold plain_value. intros Hk Hv.
  apply andb_prop in Hv as [Hv _]. apply andb_prop in Hv as [Ht He].
  unfold field_value.
  change (k ++ "= " ++ v) with (k ++ String "=" (String " " v)).
  rewrite (split_app "=" k _ Hk).
  rewrite (split_lacks "=" (String " " v)) by exact He.
  rewrite trim_space, (trim_trimmed v Ht). reflexivity.
Qed.

Lemma scanLine_layout (acc : list Entry) (s : Submodule) :
  scannable s = true ->
  exists s1 s2,
    scanLine acc ("[submodule " ++ Js.dquote ++ sm_name s ++ Js.dquote ++ "]")
      = Ok s1 /\
    scanLine s1 (TAB ++ "path = " ++ sm_path s) = Ok s2 /\
    scanLine s2 (TAB ++ "url = " ++ sm_url s) = Ok (acc ++ [scanned s])%list.
Proof.
  unfold scannable. intros H.
  apply andb_prop in H as [H Hu]. apply andb_prop in H as [H Hp].
  apply andb_prop in H as [Hn Hf].
  assert (Hne : sm_name s <> "") by (apply truthy_true; exact Hn).
  exists (acc ++ [mkEntry (sm_name s) None None])%list,
         (acc ++ [mkEntry (sm_name s) (Some (sm_path s)) None])%list.
  split; [| split].
  - unfold scanLine.
    change (JsStr.startsWith "[submodule"
              ("[submodule " ++ Js.dquote ++ sm_name s ++ Js.dquote ++ "]"))
      with true.
    cbv iota. rewrite submodule_name_header by assumption.
    rewrite Hn. reflexivity.
  - unfold scanLine.
    change (JsStr.startsWith "[submodule" (TAB ++ "path = " ++ sm_path s))
      with false.
    cbv iota.
    destruct (acc ++ [mkEntry (sm_name s) None None])%list eqn:E;
      [destruct acc; discriminate |]. rewrite <- E.
    change (TAB ++ "path = " ++ sm_path s)
      with (TAB ++ "path =" ++ " " ++ sm_path s) at 1.
    rewrite includes_app.
    change (TAB ++ "path = " ++ sm_path s)
      with ((TAB ++ "path ") ++ "= " ++ sm_path s).
    rewrite plain_value_field by (try reflexivity; assumption).
    rewrite update_current_last. reflexivity.
  - unfold scanLine.
    change (JsStr.startsWith "[submodule" (TAB ++ "url = " ++ sm_url s))
      with false.
    cbv iota.
    destruct (acc ++ [mkEntry (sm_name s) (Some (sm_path s)) None])%list eqn:E;
      [destruct acc; discriminate |]. rewrite <- E.
    assert (Hnp : JsStr.includes "path =" (TAB ++ "url = " ++ sm_url s)
                  = false).
    { assert (He : lacks "=" (sm_url s) = true).
      { unfold plain_value in Hu. apply andb_prop in Hu as [Hu _].
        apply andb_prop in Hu as [_ Hu]. exact Hu. }
      pose proof (includes_lacks "=" "path =" (sm_url s) He eq_refl) as Hi.
      cbn. exact Hi. }
    rewrite Hnp.
    change (TAB ++ "url = " ++ sm_url s)
      with (TAB ++ "url =" ++ " " ++ sm_url s) at 1.
    rewrite includes_app.
    change (TAB ++ "url = " ++ sm_url s)
      with ((TAB ++ "url ") ++ "= " ++ sm_url s).
    rewrite plain_value_field by (try reflexivity; assumption).
    rewrite update_current_last. reflexivity.
Qed.

Lemma scanLine_blank (acc : list Entry) : scanLine acc "" = Ok acc.
Proof. destruct acc; reflexivity. Qed.

Lemma split_layout (s : Submodule) (rest : string) :
  scannable s = true ->
  Js.split Js.LF (git_layout s ++ rest)
  = ("[submodule " ++ Js.dquote ++ sm_name s ++ Js.dquote ++ "]")
    :: (TAB ++ "path = " ++ sm_path s)
    :: (TAB ++ "url = " ++ sm_url s)
    :: Js.split Js.LF rest.
Proof.
  unfold scannable, plain_value. intros H.
  apply andb_prop in H as [H Hu]. apply andb_prop in H as [H Hp].
  apply andb_prop in H as [_ Hf].
  apply andb_prop in Hu as [_ Hu]. apply andb_prop in Hp as [_ Hp].
  apply free_of_terminators_lacks_LF in Hf.
  unfold git_layout, Js.lf.
  replace (("[submodule " ++ Js.dquote ++ sm_name s ++ Js.dquote ++ "]"
            ++ String Js.LF ""
            ++ TAB ++ "path = " ++ sm_path s ++ String Js.LF ""
            ++ TAB ++ "url = " ++ sm_url s ++ String Js.LF "") ++ rest)
    with (("[submodule " ++ Js.dquote ++ sm_name s ++ Js.dquote ++ "]")
          ++ String Js.LF
               ((TAB ++ "path = " ++ sm_path s)
                ++ String Js.LF
                     ((TAB ++ "url = " ++ sm_url s) ++ String Js.LF rest))).
  - rewrite !split_app; [reflexivity | | |].
    + change (TAB ++ "url = " ++ sm_url s)
        with ((TAB ++ "url = ") ++ sm_url s).
      rewrite lacks_app, Hu. reflexivity.
    + change (TAB ++ "path = " ++ sm_path s)
        with ((TAB ++ "path = ") ++ sm_path s).
      rewrite lacks_app, Hp. reflexivity.
    + change ("[submodule " ++ Js.dquote ++ sm_name s ++ Js.dquote ++ "]")
        with (("[submodule " ++ Js.dquote) ++ sm_name s ++ Js.dquote ++ "]").
      rewrite !lacks_app, Hf. reflexivity.
  - simpl. repeat (rewrite ?string_app_assoc'; simpl). reflexivity.
Qed.

Lemma scanLines_written (registry : list Submodule) :
  forallb scannable registry = true ->
  forall acc,
    scanLines (Js.split Js.LF (written registry)) acc
    = Ok (acc ++ map scanned registry)%list.
Proof.
  unfold written.
  induction registry as [| s registry IH]; intros H acc.
  - simpl. rewrite app_nil_r.
    change (Js.split Js.LF "") with [""]. simpl.
    rewrite scanLine_blank. reflexivity.
  - simpl in H. apply andb_prop in H as [Hs H].
    cbn [map]. rewrite concat_cons, (split_layout s _ Hs).
    destruct (scanLine_layout acc s Hs) as (s1 & s2 & H1 & H2 & H3).
    unfold scanLines; fold scanLines. rewrite H1, H2, H3.
    rewrite (IH H). rewrite <- app_assoc. reflexivity.
Qed.

(** X2.  A registry written the way git lays out [.gitmodules] (a header
    with the quoted name, then a tab-indented [path = ] and [url = ] line)
    is read back as it is, entry by entry and in order, provided every name
    is non-empty and free of line terminators and every path and URL is
    trimmed and holds neither [=] nor a line feed. *)
Theorem scanGitmodules_reads_back :
  forall registry : list Submodule,
    forallb scannable registry = true ->
    scanGitmodules (written registry) = Ok (map scanned registry).
Proof.
  intros registry H. unfold scanGitmodules.
  rewrite (scanLines_written registry H []). reflexivity.
Qed.

Lemma scanGitmodules_reads_back_witness :
  scanGitmodules (written [Scenario.api; Scenario.ui])
  = Ok [ mkEntry "api" (Some "services/api")
                 (Some "git@github.com:acme/api.git");
         mkEntry "ui" (Some "services/ui")
                 (Some "git@github.com:acme/ui.git") ].
Proof.
  exact (scanGitmodules_reads_back [Scenario.api; Scenario.ui] eq_refl).
Defined.

(** X3.  The value of a [path] or [url] line is what stands between the
    first [=] and the next one: a URL that holds [=] itself is cut there.
    For a header followed by one [url] line whose value is [a], [=], [b],
    the entry gets the trimmed [a] as its URL and nothing of [b]. *)
Theorem scanGitmodules_cuts_value_at_equals :
  forall name a b : string,
    Js.truthy name = true ->
    free_of JsStr.line_terminators name = true ->
    lacks "=" a = true -> lacks Js.LF a = true -> lacks Js.LF b = true ->
    JsStr.includes "path =" (a ++ "=" ++ b) = false ->
    scanGitmodules
      ("[submodule " ++ Js.dquote ++ name ++ Js.dquote ++ "]" ++ Js.lf
       ++ TAB ++ "url = " ++ a ++ "=" ++ b)
    = Ok [mkEntry name None (Some (Js.trim a))].
Proof.
  intros name a b Hn Hf Ha Hla Hlb Hp.
  assert (Hne : name <> "") by (apply truthy_true; exact Hn).
  unfold scanGitmodules, Js.lf.
  change ("[submodule " ++ Js.dquote ++ name ++ Js.dquote ++ "]"
          ++ String Js.LF "" ++ TAB ++ "url = " ++ a ++ "=" ++ b)
    with (("[submodule " ++ Js.dquote) ++ name ++ (Js.dquote ++ "]")
          ++ String Js.LF (TAB ++ "url = " ++ a ++ "=" ++ b)).
  replace (("[submodule " ++ Js.dquote) ++ name ++ (Js.dquote ++ "]")
           ++ String Js.LF (TAB ++ "url = " ++ a ++ "=" ++ b))
    with ((("[submodule " ++ Js.dquote) ++ name ++ Js.dquote ++ "]")
          ++ String Js.LF (TAB ++ "url = " ++ a ++ "=" ++ b))
    by (rewrite !string_app_assoc'; reflexivity).
  rewrite split_app
    by (rewrite !lacks_app, (free_of_terminators_lacks_LF name Hf);
        reflexivity).
  rewrite split_lacks
    by (change (TAB ++ "url = " ++ a ++ "=" ++ b)
          with ((TAB ++ "url = ") ++ a ++ "=" ++ b);
        rewrite !lacks_app, Hla, Hlb; reflexivity).
  unfold scanLines, scanLine.
  change (JsStr.startsWith "[submodule"
            (("[submodule " ++ Js.dquote) ++ name ++ Js.dquote ++ "]"))
    with true.
  cbv iota.
  change (("[submodule " ++ Js.dquote) ++ name ++ Js.dquote ++ "]")
    with ("[submodule " ++ Js.dquote ++ name ++ Js.dquote ++ "]").
  rewrite submodule_name_header, Hn by assumption.
  change (JsStr.startsWith "[submodule" (TAB ++ "url = " ++ a ++ "=" ++ b))
    with false.
  cbv iota. cbn [app].
  assert (Hnp : JsStr.includes "path =" (TAB ++ "url = " ++ a ++ "=" ++ b)
                = false) by (cbn; exact Hp).
  rewrite Hnp.
  change (TAB ++ "url = " ++ a ++ "=" ++ b)
    with (TAB ++ "url =" ++ " " ++ a ++ "=" ++ b) at 1.
  rewrite includes_app.
  unfold field_value.
  change (TAB ++ "url = " ++ a ++ "=" ++ b)
    with ((TAB ++ "url ") ++ String "=" (String " " a ++ String "=" b)).
  rewrite split_app by reflexivity.
  rewrite split_app by exact Ha.
  rewrite trim_space. reflexivity.
Qed.

Lemma scanGitmodules_cuts_value_at_equals_witness :
  scanGitmodules
    ("[submodule " ++ Js.dquote ++ "api" ++ Js.dquote ++ "]" ++ Js.lf
     ++ TAB ++ "url = " ++ "https://git.acme.dev/api?ref" ++ "=" ++ "main")
  = Ok [mkEntry "api" None (Some "https://git.acme.dev/api?ref")].
Proof.
  exact (scanGitmodules_cuts_value_at_equals
           "api" "https://git.acme.dev/api?ref" "main"
           eq_refl eq_refl eq_refl eq_refl eq_refl eq_refl).
Defined.

(** ** Merged branches *)

Lemma branch_name_parts (b : string) :
  branch_name b = true ->
  b <> "" /\ trimmed b = true /\ lacks " " b = true /\ lacks Js.LF b = true.
Proof.
  unfold branch_name. intros H.
  apply andb_prop in H as [H H4]. apply andb_prop in H as [H H3].
  apply andb_prop in H as [H1 H2]. apply truthy_true in H1. auto.
Qed.

Lemma merged_line (current b : string) :
  branch_name b = true ->
  Js.replace "* " "" (Js.trim ((if String.eqb b current then "* " else "  ")
                               ++ b)) = b.
Proof.
  intros H. destruct (branch_name_parts b H) as (Hne & Ht & Hs & _).
  destruct (String.eqb b current).
  - rewrite trim_trimmed.
    + unfold Js.replace. destruct b; [contradiction |]. reflexivity.
    + apply trimmed_behind; [assumption | assumption | reflexivity
                            | reflexivity].
  - change ("  " ++ b) with (String " " (String " " b)).
    rewrite !trim_space, (trim_trimmed b Ht).
    apply (replace_lacks " "); [exact Hs | reflexivity].
Qed.

Lemma mergedNames_output (current : string) (branches : list string) :
  forallb branch_name branches = true ->
  mergedNames (merged_output current branches)
  = filter (fun b => negb (protected b)) branches.
Proof.
  unfold merged_output, mergedNames.
  induction branches as [| b branches IH]; intros H; [reflexivity |].
  simpl in H. apply andb_prop in H as [Hb H].
  destruct (branch_name_parts b Hb) as (Hne & Ht & Hs & Hl).
  assert (Hc : String.concat "" (map (branch_line current) (b :: branches))
               = ((if String.eqb b current then "* " else "  ") ++ b)
                 ++ String Js.LF
                      (String.concat "" (map (branch_line current) branches))).
  { cbn [map]. rewrite concat_cons. unfold branch_line at 1. unfold Js.lf.
    rewrite !string_app_assoc'. reflexivity. }
  rewrite Hc, split_app.
  - cbn [map filter]. rewrite (merged_line current b Hb).
    apply truthy_true in Hne. rewrite Hne. cbn [andb].
    rewrite (IH H). unfold protected. reflexivity.
  - rewrite lacks_app, Hl. destruct (String.eqb b current); reflexivity.
Qed.

(** X4.  Given the listing [git branch --merged] prints (one branch per
    line, two spaces or the marker of the current branch in front),
    [getMergedBranches] returns the listed branches in order, without the
    marker, leaving out exactly [main], [master] and [develop]: the target
    branch and the current branch stay in the result when they are listed
    under another name. *)
Theorem getMergedBranches_keeps_unprotected :
  forall (W : Type) (h : Handler W) (w w' : W)
         (targetBranch dir current : string) (branches : list string),
    forallb branch_name branches = true ->
    h (GitRaw dir ["branch"; "--merged"; targetBranch]) w
      = (Ok (merged_output current branches), w') ->
    outcome (run h (getMergedBranches targetBranch dir) w)
      = Returned (filter (fun b => negb (protected b)) branches).
Proof.
  intros W h w w' targetBranch dir current branches Hb Hr.
  unfold getMergedBranches. cbn. rewrite Hr. cbn.
  rewrite (mergedNames_output current branches Hb). reflexivity.
Qed.

(** ** Registered paths *)

Lemma existsb_includes (p line : string) (lines : list string) :
  In line lines -> JsStr.includes p line = true ->
  existsb (fun l => JsStr.includes p l) lines = true.
Proof.
  intros Hin Hp. apply existsb_exists. exists line. auto.
Qed.

(** X5.  [isRegisteredSubmodule] tests whether the path occurs inside a
    line of the listing, not whether a line names it: it answers [true] for
    every path that is part of a non-blank line, so for a prefix of a
    registered path as for the path itself; when git rejects the query it
    answers [false]. *)
Theorem isRegisteredSubmodule_matches_substrings :
  forall (W : Type) (h : Handler W) (w : W) (path : string),
    (forall result before after,
        fst (h (GitRaw "." registered_paths_query) w) = Ok result ->
        In (before ++ path ++ after) (Js.split Js.LF result) ->
        Js.trim (before ++ path ++ after) <> "" ->
        outcome (run h (isRegisteredSubmodule path) w) = Returned true) /\
    (forall e,
        fst (h (GitRaw "." registered_paths_query) w) = Err e ->
        outcome (run h (isRegisteredSubmodule path) w) = Returned false).
Proof.
  intros W h w path. unfold isRegisteredSubmodule. cbn. split.
  - intros result before after Hr Hin Hne.
    destruct (h (GitRaw "." registered_paths_query) w) as [r w'].
    cbn in Hr. subst r. cbn.
    rewrite (existsb_includes path (before ++ path ++ after));
      [reflexivity | | apply includes_app].
    unfold statusLines. apply filter_In. split; [exact Hin |].
    apply truthy_true; exact Hne.
  - intros e Hr.
    destruct (h (GitRaw "." registered_paths_query) w) as [r w'].
    cbn in Hr. subst r. reflexivity.
Qed.

Lemma getMergedBranches_keeps_unprotected_witness :
  outcome (run (Scripted.raw_prints
                  (merged_output "feature/login"
                     ["develop"; "feature/login"; "main"; "release"]))
               (getMergedBranches "release" "services/api") tt)
  = Returned ["feature/login"; "release"].
Proof.
  exact (getMergedBranches_keeps_unprotected
           unit
           (Scripted.raw_prints
              (merged_output "feature/login"
                 ["develop"; "feature/login"; "main"; "release"]))
           tt tt "release" "services/api" "feature/login"
           ["develop"; "feature/login"; "main"; "release"]
           eq_refl eq_refl).
Defined.

Lemma isRegisteredSubmodule_matches_substrings_witness :
  outcome (run (Scripted.raw_prints
                  ("submodule.services/api-gateway.path services/api-gateway"
                   ++ Js.lf))
               (isRegisteredSubmodule "services/api") tt)
  = Returned true.
Proof.
  refine (proj1 (isRegisteredSubmodule_matches_substrings
                   unit
                   (Scripted.raw_prints
                      ("submodule.services/api-gateway.path services/api-gateway"
                       ++ Js.lf))
                   tt "services/api")
                _ "submodule." "-gateway.path services/api-gateway"
                eq_refl _ _).
  - left. reflexivity.
  - intros H. discriminate H.
Defined.

(** ** Pull requests *)

Lemma match_hash_number_lacks (s : string) :
  lacks "#" s = true -> Js.match_hash_number s = None.
Proof.
  induction s as [| c s IH]; intros H; [reflexivity |].
  change (lacks "#" (String c s))
    with (negb (Ascii.eqb "#" c) && lacks "#" s) in H.
  apply andb_prop in H as [Hc H].
  unfold Js.match_hash_number; fold Js.match_hash_number.
  rewrite Ascii.eqb_sym in Hc. destruct (Ascii.eqb c "#"); [discriminate |].
  apply IH; exact H.
Qed.

Lemma take_non_space_free (s : string) :
  free_of Js.whitespace s = true -> Js.take_non_space s = s.
Proof.
  induction s as [| c s IH]; intros H; [reflexivity |].
  apply free_of_head in H as [H1 H2].
  unfold Js.take_non_space; fold Js.take_non_space.
  rewrite H1, (IH H2). reflexivity.
Qed.

(** X6.  When [gh pr create] prints the address of the new pull request and
    nothing else, [createPR] returns that address as [url] and leaves
    [number] undefined: the number is read after a [#], which such an
    address does not hold. *)
Theorem createPR_reads_printed_url :
  forall (W : Type) (h : Handler W) (w : W)
         (title body : string) (base : option string) (draft : bool)
         (dir rest : string),
    rest <> "" ->
    free_of Js.whitespace rest = true ->
    lacks "#" rest = true ->
    (forall args, fst (h (Gh dir args) w) = Ok ("https://" ++ rest)) ->
    outcome (run h (createPR title body base draft dir) w)
      = Returned (mkPR PRUndefined (Some ("https://" ++ rest))).
Proof.
  intros W h w title body base draft dir rest Hne Hf Hl Hgh.
  unfold createPR. cbn.
  match goal with
  | |- context [h (Gh dir ?args) w] =>
      specialize (Hgh args); destruct (h (Gh dir args) w) as [r w']
  end.
  cbn in Hgh. subst r. cbn.
  rewrite match_hash_number_lacks by exact Hl.
  rewrite (take_non_space_free rest Hf).
  destruct rest; [contradiction | reflexivity].
Qed.

Lemma createPR_reads_printed_url_witness :
  outcome (run (Scripted.gh_prints "https://github.com/acme/api/pull/7")
               (createPR "api : login" "What changed" (Some "main") false
                         "services/api") tt)
  = Returned (mkPR PRUndefined (Some "https://github.com/acme/api/pull/7")).
Proof.
  refine (createPR_reads_printed_url
            unit (Scripted.gh_prints "https://github.com/acme/api/pull/7")
            tt "api : login" "What changed" (Some "main") false
            "services/api" "github.com/acme/api/pull/7" _ eq_refl eq_refl _).
  - intros H. discriminate H.
  - intros args. reflexivity.
Defined.

(** X7.  [getPRForBranch] never rejects and never exits, whatever [gh] and
    [JSON.parse] do: it makes one call, the read-only [gh pr list] for the
    branch, and returns a pull request only when [gh] printed a non-empty
    text that [JSON.parse] read as that pull request; a rejection by [gh],
    an empty output or an output that does not parse all give [null]. *)
Theorem getPRForBranch_never_rejects :
  forall (W : Type) (h : Handler W) (w : W)
         (json_parse : string -> Result (option PullRequest))
         (branch dir : string),
    let r := run h (getPRForBranch json_parse branch dir) w in
    exists found,
      outcome r = Returned found /\
      calls (trace r) = [Gh dir (pr_list_args branch)] /\
      forallb read_only (calls (trace r)) = true /\
      (forall pr, found = Some pr ->
         exists stdout,
           fst (h (Gh dir (pr_list_args branch)) w) = Ok stdout /\
           stdout <> "" /\ json_parse stdout = Ok (Some pr)).
Proof.
  intros W h w json_parse branch dir r. subst r.
  unfold getPRForBranch. cbn.
  destruct (h (Gh dir (pr_list_args branch)) w) as [[stdout | e] w'] eqn:E;
    cbn.
  - destruct (Js.truthy stdout) eqn:T; cbn.
    + destruct (json_parse stdout) as [v | e] eqn:J; cbn.
      * exists v. repeat split. intros pr ->. exists stdout.
        split; [reflexivity | split; [apply truthy_true; exact T | exact J]].
      * exists None. repeat split. intros pr Hx; discriminate Hx.
    + exists None. repeat split. intros pr Hx; discriminate Hx.
  - exists None. repeat split. intros pr Hx; discriminate Hx.
Qed.

(** ** What a program can do *)

Lemma always_run {W A : Type} (h : Handler W) (C : Call -> bool)
      (throws exits : bool) (p : Prog A) :
  always C throws exits p ->
  forall w,
    forallb C (calls (trace (run h p w))) = true /\
    ends throws exits (outcome (run h p w)) = true.
Proof.
  induction 1 as [a | e Ht | Hx | l k Hk IH | c k Hc Hk IH]; intros w; cbn.
  - auto.
  - auto.
  - rewrite Hx. auto.
  - apply IH.
  - rewrite Hc. apply IH.
Qed.

Lemma always_bind {A B : Type} (C : Call -> bool) (throws exits : bool)
      (p : Prog A) (f : A -> Prog B) :
  always C throws exits p -> (forall a, always C throws exits (f a)) ->
  always C throws exits (bind p f).
Proof.
  intros Hp Hf.
  induction Hp as [a | e Ht | Hx | l k Hk IH | c k Hc Hk IH]; cbn.
  - apply Hf.
  - apply always_Throw; exact Ht.
  - apply always_Exit; exact Hx.
  - apply always_Out; exact IH.
  - apply always_Do; [exact Hc | exact IH].
Qed.

Lemma always_try_catch {A : Type} (C : Call -> bool) (throws exits : bool)
      (p : Prog A) (f : Error -> Prog A) :
  always C true exits p -> (forall e, always C throws exits (f e)) ->
  always C throws exits (try_catch p f).
Proof.
  intros Hp Hf. remember true as t eqn:Et.
  induction Hp as [a | e Ht | Hx | l k Hk IH | c k Hc Hk IH]; cbn.
  - apply always_Ret.
  - apply Hf.
  - apply always_Exit; exact Hx.
  - apply always_Out; apply IH; exact Et.
  - apply always_Do; [exact Hc | intros r; apply IH; exact Et].
Qed.

Lemma always_weaken {A : Type} (C C' : Call -> bool) (t x t' x' : bool)
      (p : Prog A) :
  (forall c, C c = true -> C' c = true) ->
  (t = true -> t' = true) -> (x = true -> x' = true) ->
  always C t x p -> always C' t' x' p.
Proof.
  intros HC Ht Hx Hp.
  induction Hp as [a | e He | He | l k Hk IH | c k Hc Hk IH].
  - apply always_Ret.
  - apply always_Throw; auto.
  - apply always_Exit; auto.
  - apply always_Out; exact IH.
  - apply always_Do; [auto | exact IH].
Qed.

Lemma always_sayAll (C : Call -> bool) (t x : bool) (ls : list Line) :
  always C t x (sayAll ls).
Proof.
  induction ls as [| l ls IH]; cbn;
    [apply always_Ret | apply always_Out; exact IH].
Qed.

Ltac head_of t :=
  match t with
  | ?f _ => head_of f
  | _ => t
  end.

(** Walks a program: every call is checked, every answer considered;
    [known] closes the parts that were walked before. *)
Ltac static_with known :=
  repeat
    (cbn;
     first
       [ known
       | match goal with
         | |- always _ _ _ (Ret _) => apply always_Ret
         | |- always _ _ _ (Throw _) => apply always_Throw; reflexivity
         | |- always _ _ _ (Exit _) => apply always_Exit; reflexivity
         | |- always _ _ _ (Out _ _) => apply always_Out
         | |- always _ _ _ (Do _ _) =>
             apply always_Do; [reflexivity | intros [? | ?]]
         | |- always _ _ _ (sayAll _) => apply always_sayAll
         | |- context [or_null (Some (stash_message ?n))] =>
             change (or_null (Some (stash_message n)))
               with (Some (stash_message n))
         | |- always _ _ _ (bind _ _) => apply always_bind; [| intros ?]
         | |- always _ _ _ (try_catch _ _) =>
             apply always_try_catch; [| intros ?]
         | |- always _ _ _ (if ?b then _ else _) => destruct b
         | |- always _ _ _ (match ?x with _ => _ end) => destruct x
         | |- always _ _ _ ?p => let f := head_of p in progress unfold f
         end ]).

Ltac static := static_with fail.

(** ** sync: what the command keeps to *)

Lemma syncSubmodule_within (force : bool) (path name : string) :
  always (sync_calls force) true false (syncSubmodule path name force).
Proof. destruct force; static. Qed.

Lemma syncEach_within (force : bool) (submodules : list Submodule) :
  forall results,
    always (sync_calls force) true false (syncEach force submodules results).
Proof.
  induction submodules as [| s rest IH]; intros results.
  - apply always_Ret.
  - unfold syncEach; fold syncEach. apply always_bind.
    + apply syncSubmodule_within.
    + intros success. apply IH.
Qed.

Lemma syncSubmodules_within (force : bool) :
  always (sync_calls force) true true (syncSubmodules force).
Proof.
  pose proof (fun submodules results =>
                always_weaken _ (sync_calls force) true false true true _
                  (fun c H => H) (fun H => H) (fun H => eq_refl)
                  (syncEach_within force submodules results)) as Heach.
  unfold syncSubmodules.
  destruct force; static_with ltac:(apply Heach).
Qed.

Lemma sync_calls_reach (force : bool) (c : Call) :
  sync_calls force c = true -> negb (out_of_reach c) = true.
Proof.
  destruct c; cbn; try discriminate; try reflexivity.
  intros H.
  destruct (Sim.same_args args ["submodule"; "sync"]) eqn:E; [| reflexivity].
  exfalso. destruct args as [| a [| b [| x rest]]]; cbn in E;
    try discriminate E;
    apply andb_prop in E as [Ea E]; try discriminate E;
    apply andb_prop in E as [Eb E]; try discriminate E.
  apply String.eqb_eq in Ea, Eb. subst. cbn in H. discriminate.
Qed.

Lemma sync_calls_stash (c : Call) :
  sync_calls false c = true -> negb (is_stash c) = true.
Proof. destruct c; cbn; try discriminate; reflexivity. Qed.

Lemma forallb_impl {A : Type} (P Q : A -> bool) (l : list A) :
  (forall a, P a = true -> Q a = true) ->
  forallb P l = true -> forallb Q l = true.
Proof.
  intros H. induction l as [| a l IH]; cbn; [reflexivity |].
  intros Hl. apply andb_prop in Hl as [Ha Hl].
  rewrite (H a Ha), (IH Hl). reflexivity.
Qed.

(** X8.  Whatever its calls resolve with, [syncSubmodules] calls nothing
    but file tests, status, fetch, pull, checkout, the two queries of
    [getDefaultBranch], the registry and its initialisation, [add('.')] in
    the parent and the submodule listing, plus the clock and a stash under
    [--force].  So it never commits and never asks whether to: reading
    [status] off [gitHelpers.git] throws before the prompt; it never runs
    [git submodule sync], for the same reason; without [--force] it
    never stashes, and under [--force] every stash is a [push -m] whose
    message starts with "Auto-stash before sync ".  It ends by returning,
    by an uncaught rejection, or by [process.exit(1)]. *)
Theorem syncSubmodules_keeps_to_its_calls :
  forall (W : Type) (h : Handler W) (w : W) (force : bool),
    let r := run h (syncSubmodules force) w in
    forallb (sync_calls force) (calls (trace r)) = true /\
    forallb (fun c => negb (out_of_reach c)) (calls (trace r)) = true /\
    (force = false ->
     forallb (fun c => negb (is_stash c)) (calls (trace r)) = true) /\
    (forall n, outcome r = Exited n -> n = 1).
Proof.
  intros W h w force r. subst r.
  destruct (always_run h _ _ _ _ (syncSubmodules_within force) w)
    as [Hc He].
  split; [exact Hc |]. split; [| split].
  - revert Hc. apply forallb_impl. apply sync_calls_reach.
  - intros ->. revert Hc. apply forallb_impl. apply sync_calls_stash.
  - intros n Hn. rewrite Hn in He. cbn in He.
    apply Nat.eqb_eq. exact He.
Qed.

(** ** new-feature: what the command keeps to *)

Section FeatureStatic.
Variable path_join : string -> string -> string.

Lemma keepSubmodules_fs (servicesDir : list string) :
  forall services,
    always is_fs false false (keepSubmodules path_join servicesDir services).
Proof.
  induction servicesDir as [| s rest IH]; intros services.
  - apply always_Ret.
  - unfold keepSubmodules; fold keepSubmodules.
    static_with ltac:(apply IH).
Qed.

Lemma getAvailableServices_fs :
  always is_fs false false (getAvailableServices path_join).
Proof.
  pose proof (fun l s =>
                always_weaken _ is_fs false false true false _
                  (fun c H => H) (fun H => eq_refl) (fun H => H)
                  (keepSubmodules_fs l s)) as Hk.
  unfold getAvailableServices. static_with ltac:(apply Hk).
Qed.

Lemma is_fs_feature (c : Call) : is_fs c = true -> feature_calls c = true.
Proof. destruct c; cbn; try discriminate; reflexivity. Qed.

Lemma newFeature_within (serviceName featureName : string) :
  always feature_calls true false
         (newFeature path_join serviceName featureName).
Proof.
  pose proof (always_weaken _ feature_calls false false true false _
                is_fs_feature (fun H => eq_refl) (fun H => H)
                getAvailableServices_fs) as Ha.
  unfold newFeature. static_with ltac:(exact Ha).
Qed.

End FeatureStatic.

Lemma feature_calls_record (c : Call) :
  feature_calls c = true -> negb (records_work c) = true.
Proof. destruct c; cbn; try discriminate; reflexivity. Qed.

(** X9.  Whatever its calls resolve with, [newFeature] (and with it
    [createFeatureBranch]) calls nothing but file tests, status, branch
    listings, the query for the symbolic default, fetch, pull, checkout,
    branch creation and the prompt: it never stashes, stages, commits or
    pushes, and it never ends the process by itself. *)
Theorem newFeature_keeps_to_its_calls :
  forall (W : Type) (h : Handler W) (path_join : string -> string -> string)
         (serviceName featureName : string) (w : W),
    let r := run h (newFeature path_join serviceName featureName) w in
    forallb feature_calls (calls (trace r)) = true /\
    forallb (fun c => negb (records_work c)) (calls (trace r)) = true /\
    (forall n, outcome r <> Exited n).
Proof.
  intros W h pj s f w r. subst r.
  destruct (always_run h _ _ _ _ (newFeature_within pj s f) w) as [Hc He].
  split; [exact Hc |]. split.
  - revert Hc. apply forallb_impl. apply feature_calls_record.
  - intros n Hn. rewrite Hn in He. discriminate He.
Qed.

(** X10.  With a service name or a feature name missing, [newFeature]
    returns [false] after "Invalid arguments" and the usage line; it looks
    at the [services] directory to list what is there and calls nothing
    else. *)
Theorem newFeature_refuses_missing_arguments :
  forall (W : Type) (h : Handler W) (path_join : string -> string -> string)
         (serviceName featureName : string) (w : W),
    serviceName = "" \/ featureName = "" ->
    let r := run h (newFeature path_join serviceName featureName) w in
    outcome r = Returned false /\
    forallb is_fs (calls (trace r)) = true /\
    firstn 3 (outs (trace r))
    = [ (LError, "Invalid arguments");
        (LConsole, "Usage: npm run new-feature <service-name> <feature-name>");
        (LConsole, "") ].
Proof.
  intros W h pj s f w Hmiss r. subst r.
  assert (Hb : negb (Js.truthy s) || negb (Js.truthy f) = true).
  { destruct Hmiss as [-> | ->]; [reflexivity | apply orb_true_r]. }
  unfold newFeature. rewrite Hb. cbn. rewrite !run_bind.
  destruct (always_run h _ _ _ _ (getAvailableServices_fs pj) w) as [Hc He].
  destruct (run h (getAvailableServices pj) w) as [[l | e | n] w1 t1];
    cbn in Hc, He; try discriminate He.
  cbn. destruct l as [| a l]; cbn.
  - rewrite calls_app, forallb_app, Hc. repeat split.
  - unfold listServices. cbn. rewrite run_bind, run_sayAll. cbn.
    rewrite calls_app, forallb_app, Hc. cbn.
    rewrite calls_app. cbn.
    assert (Hm : forall ls, calls (map EvOut ls) = [])
      by (induction ls as [| x ls IH]; cbn; auto).
    rewrite Hm. repeat split.
Qed.

Lemma newFeature_refuses_missing_arguments_witness :
  let r := run Sim.handler (newFeature Sim.join_path "api" "")
               Scenario.pinned in
  outcome r = Returned false /\
  calls (trace r)
  = [FsReaddir "services"; FsAccess "services/api/.git";
     FsAccess "services/ui/.git"].
Proof.
  intros r. split.
  - exact (proj1 (newFeature_refuses_missing_arguments
                    Sim.World Sim.handler Sim.join_path "api" ""
                    Scenario.pinned (or_intror eq_refl))).
  - reflexivity.
Defined.

(** ** The services that can be worked on *)

Lemma isSubmodule_inspecting {W : Type} (h : Handler W)
      (path_join : string -> string -> string) (dir : string) (w : W) :
  inspects_only h ->
  run h (isSubmodule path_join dir) w
  = mkRun (Returned (is_ok (fst (h (FsAccess (path_join dir ".git")) w)))) w
          [EvCall (FsAccess (path_join dir ".git"))
                  (is_ok (fst (h (FsAccess (path_join dir ".git")) w)))].
Proof.
  intros Hi. unfold isSubmodule. cbn.
  pose proof (Hi (FsAccess (path_join dir ".git")) w eq_refl) as Hw.
  destruct (h (FsAccess (path_join dir ".git")) w) as [[[] | e] w'];
    cbn in *; subst w'; reflexivity.
Qed.

Lemma keepSubmodules_filters {W : Type} (h : Handler W)
      (path_join : string -> string -> string) (w : W)
      (servicesDir : list string) :
  inspects_only h ->
  forall services,
    outcome (run h (keepSubmodules path_join servicesDir services) w)
    = Returned
        (services
         ++ filter (fun service =>
                      is_ok (fst (h (FsAccess
                                       (path_join (path_join "services" service)
                                                  ".git")) w)))
                   servicesDir)%list /\
    final (run h (keepSubmodules path_join servicesDir services) w) = w.
Proof.
  intros Hi. induction servicesDir as [| s rest IH]; intros services.
  - cbn. rewrite app_nil_r. split; reflexivity.
  - change (keepSubmodules path_join (s :: rest) services)
      with (bind (isSubmodule path_join (path_join "services" s))
                 (fun isSub =>
                    keepSubmodules path_join rest
                      (if isSub then (services ++ [s])%list else services))).
    rewrite run_bind, (isSubmodule_inspecting h path_join _ w Hi).
    cbn -[keepSubmodules].
    match goal with
    | |- context [if ?b then _ else _] => destruct b
    end.
    + destruct (IH (services ++ [s])%list) as [Ho Hf].
      split; [| exact Hf]. rewrite Ho, <- app_assoc. reflexivity.
    + destruct (IH services) as [Ho Hf]. split; assumption.
Qed.

(** X11.  Under a handler whose file tests leave the world alone,
    [getAvailableServices] returns, in directory order, exactly the entries
    of [services] in which a [.git] can be accessed, and changes nothing;
    when the directory cannot be read it returns the empty list.  It never
    throws. *)
Theorem getAvailableServices_lists_initialised :
  forall (W : Type) (h : Handler W) (path_join : string -> string -> string)
         (w : W),
    inspects_only h ->
    let r := run h (getAvailableServices path_join) w in
    final r = w /\
    match fst (h (FsReaddir "services") w) with
    | Ok servicesDir =>
        outcome r
        = Returned
            (filter (fun service =>
                       is_ok (fst (h (FsAccess
                                        (path_join
                                           (path_join "services" service)
                                           ".git")) w)))
                    servicesDir)
    | Err _ => outcome r = Returned []
    end.
Proof.
  intros W h pj w Hi r. subst r. unfold getAvailableServices.
  rewrite run_try_catch. cbn.
  pose proof (Hi (FsReaddir "services") w eq_refl) as Hw.
  destruct (h (FsReaddir "services") w) as [[l | e] w']; cbn in *; subst w'.
  - destruct (keepSubmodules_filters h pj w l Hi []) as [Ho Hf].
    destruct (run h (keepSubmodules pj l []) w) as [o wf t]; cbn in *.
    subst o wf. cbn. split; reflexivity.
  - split; reflexivity.
Qed.

Lemma getAvailableServices_lists_initialised_witness :
  outcome (run Sim.handler (getAvailableServices Sim.join_path)
               checked_out_world)
  = Returned ["api"] /\
  final (run Sim.handler (getAvailableServices Sim.join_path)
             checked_out_world)
  = checked_out_world.
Proof.
  destruct (getAvailableServices_lists_initialised
              Sim.World Sim.handler Sim.join_path checked_out_world
              sim_inspects_only) as [Hf Ho].
  split; [exact Ho | exact Hf].
Defined.

(** ** Nothing moves before the fetch *)

Lemma gated_fetched (dir : string) (danger : Call -> bool) (t : list Event) :
  gated (fetched dir) danger (EvCall (GitFetch dir "origin") true :: t) = true.
Proof. cbn. rewrite String.eqb_refl. reflexivity. Qed.

Lemma gated_out (gate : Event -> bool) (danger : Call -> bool) (l : Line)
      (t : list Event) :
  gated gate danger t = true -> gated gate danger (EvOut l :: t) = true.
Proof. intros H. cbn. rewrite H. apply orb_true_r. Qed.

Lemma gated_call (gate : Event -> bool) (danger : Call -> bool) (c : Call)
      (b : bool) (t : list Event) :
  danger c = false -> gated gate danger t = true ->
  gated gate danger (EvCall c b :: t) = true.
Proof. intros Hc H. cbn. rewrite Hc, H. apply orb_true_r. Qed.

Lemma gated_app (gate : Event -> bool) (danger : Call -> bool)
      (t1 t2 : list Event) :
  forallb (fun c => negb (danger c)) (calls t1) = true ->
  gated gate danger t2 = true -> gated gate danger (t1 ++ t2) = true.
Proof.
  intros H1 H2. induction t1 as [| [c b | l] t1 IH]; cbn in *.
  - exact H2.
  - apply andb_prop in H1 as [Hc H1]. rewrite Hc, (IH H1).
    apply orb_true_r.
  - rewrite (IH H1). apply orb_true_r.
Qed.

(** Closes a goal on a trace that is known up to a resolved fetch, or to
    its end. *)
Ltac gate_closed :=
  cbn; rewrite ?String.eqb_refl; cbn;
  repeat first
    [ reflexivity
    | apply gated_fetched
    | apply gated_out
    | apply gated_call; [reflexivity |] ].

(** X12.  In every run of [syncSubmodule], whatever the calls resolve with,
    no pull and no checkout is made before a fetch from origin has
    resolved: a repository whose directory is missing, whose changes could
    not be stashed or whose remote cannot be fetched stays on the commit it
    was on. *)
Theorem syncSubmodule_moves_only_after_fetch :
  forall (W : Type) (h : Handler W) (w : W) (path name : string)
         (force : bool),
    gated (fetched path) moves_head
          (trace (run h (syncSubmodule path name force) w)) = true.
Proof.
  intros W h w path name force.
  unfold syncSubmodule, hasUncommittedChanges, stash, syncBranch,
    getCurrentBranch, fetch.
  cbn. next_call h; [| gate_closed].
  next_call h; [| gate_closed].
  match goal with |- context [isClean ?x] => destruct (isClean x) end; cbn.
  - next_call h; [| gate_closed].
    next_call h; gate_closed.
  - destruct force; cbn; [| gate_closed].
    next_call h; [| gate_closed].
    match goal with
    | |- context [or_null (Some (stash_message ?n))] =>
        change (or_null (Some (stash_message n))) with (Some (stash_message n))
    end.
    cbn. next_call h; [| gate_closed].
    next_call h; [| gate_closed].
    next_call h; gate_closed.
Qed.

Lemma gated_safe (gate : Event -> bool) (danger : Call -> bool)
      (t : list Event) :
  forallb (fun c => negb (danger c)) (calls t) = true ->
  gated gate danger t = true.
Proof.
  intros H. rewrite <- (app_nil_r t). apply gated_app; [exact H | reflexivity].
Qed.

Lemma is_fs_stays (c : Call) : is_fs c = true -> negb (moves_head c) = true.
Proof. destruct c; cbn; try discriminate; reflexivity. Qed.

(** What [createFeatureBranch] and [newFeature] do once they have to list
    the services. *)
Lemma listing_services_fs (path_join : string -> string -> string)
      (ifNone : Prog unit) :
  always is_fs false false ifNone ->
  always is_fs false false
    (availableServices <- getAvailableServices path_join;;
     match availableServices with
     | [] => ifNone
     | _ => listServices availableServices
     end;;
     Ret false).
Proof.
  intros Hn. pose proof (getAvailableServices_fs path_join) as Ha.
  static_with ltac:(first [exact Ha | exact Hn]).
Qed.

(** X13.  In every run of [createFeatureBranch], whatever the calls
    resolve with, no checkout, pull or branch creation is made before a
    fetch from origin has resolved: a service that is missing, is no
    repository, has uncommitted changes, or whose remote cannot be fetched
    keeps the branch it was on. *)
Theorem createFeatureBranch_moves_only_after_fetch :
  forall (W : Type) (h : Handler W) (path_join : string -> string -> string)
         (serviceName featureName : string) (w : W),
    gated (fetched (path_join "services" serviceName)) moves_head
          (trace (run h (createFeatureBranch path_join serviceName featureName)
                      w)) = true.
Proof.
  intros W h pj svc feat w.
  unfold createFeatureBranch, branchFromDefault, isGitRepo,
    hasUncommittedChanges, getCurrentBranch, fetch.
  set (path := pj "services" svc).
  cbn. next_call h.
  2: { apply gated_safe.
       eapply forallb_impl; [apply is_fs_stays |].
       exact (proj1 (always_run h _ _ _ _
                       (listing_services_fs pj (Ret tt) (always_Ret _ _ _ tt))
                       w0)). }
  next_call h; [| gate_closed].
  next_call h; [| gate_closed].
  match goal with |- context [isClean ?x] => destruct (isClean x) end; cbn;
    [| gate_closed].
  next_call h; [| gate_closed].
  rewrite !run_bind, getDefaultBranch_run. cbn zeta.
  unfold symbolic_ref, branch_listing.
  destruct (h (GitRaw path ["symbolic-ref"; "refs/remotes/origin/HEAD"]) w3)
    as [[raw | e] w4]; cbn.
  - next_call h; gate_closed.
  - destruct (h (GitBranch path []) w4) as [[branches | e'] w5]; cbn;
      [| gate_closed].
    destruct (Js.includes "origin/main" branches);
      [| destruct (Js.includes "origin/master" branches)];
      cbn; next_call h; gate_closed.
Qed.

Lemma listing_services_returns {W : Type} (h : Handler W)
      (path_join : string -> string -> string) (ifNone : Prog unit) (w : W) :
  (forall w', outcome (run h ifNone w') = Returned tt) ->
  outcome (run h (availableServices <- getAvailableServices path_join;;
                  match availableServices with
                  | [] => ifNone
                  | _ => listServices availableServices
                  end;;
                  Ret false) w)
  = Returned false.
Proof.
  intros Hn. rewrite run_bind.
  pose proof (proj2 (always_run h _ _ _ _
                       (getAvailableServices_fs path_join) w)) as He.
  destruct (outcome (run h (getAvailableServices path_join) w))
    as [l | e | n]; try discriminate He.
  cbn. rewrite run_bind. destruct l as [| a l].
  - rewrite Hn. reflexivity.
  - unfold listServices. cbn. rewrite run_sayAll. reflexivity.
Qed.

(** X14.  [createFeatureBranch] gives up before any git command when the
    service cannot be used.  If the directory of the service cannot be
    accessed it returns [false] after "Service '<name>' not found", having
    called only file tests (to list the services there are).  If the
    directory is there but [status()] is rejected in it, it returns [false]
    after "'<name>' is not a git repository", having called nothing but
    that file test and that status query. *)
Theorem createFeatureBranch_refuses_unusable_service :
  forall (W : Type) (h : Handler W) (path_join : string -> string -> string)
         (serviceName featureName : string) (w : W),
    let servicePath := path_join "services" serviceName in
    let r := run h (createFeatureBranch path_join serviceName featureName) w in
    (is_ok (fst (h (FsAccess servicePath) w)) = false ->
     outcome r = Returned false /\
     forallb is_fs (calls (trace r)) = true /\
     In (LError, "Service '" ++ serviceName ++ "' not found")
        (outs (trace r))) /\
    (is_ok (fst (h (FsAccess servicePath) w)) = true ->
     is_ok (fst (h (GitStatus servicePath) (snd (h (FsAccess servicePath) w))))
       = false ->
     outcome r = Returned false /\
     calls (trace r) = [FsAccess servicePath; GitStatus servicePath] /\
     In (LError, "'" ++ serviceName ++ "' is not a git repository")
        (outs (trace r))).
Proof.
  intros W h pj svc feat w path r. subst r.
  unfold createFeatureBranch, isGitRepo. fold path. cbn.
  destruct (h (FsAccess path) w) as [[[] | e] w0]; cbn.
  - split; [discriminate |]. intros _.
    destruct (h (GitStatus path) w0) as [[st | e] w1]; cbn;
      [discriminate |].
    intros _. split; [reflexivity |]. split; [reflexivity |].
    cbn. tauto.
  - split; [| discriminate]. intros _. split; [| split].
    + exact (listing_services_returns h pj (Ret tt) w0 (fun _ => eq_refl)).
    + exact (proj1 (always_run h _ _ _ _
                      (listing_services_fs pj (Ret tt) (always_Ret _ _ _ tt))
                      w0)).
    + right. right. right. right. left. reflexivity.
Qed.

Lemma createFeatureBranch_refuses_unusable_service_witness :
  let r := run Sim.handler (createFeatureBranch Sim.join_path "ui" "login")
               checked_out_world in
  outcome r = Returned false /\
  calls (trace r)
  = [FsAccess "services/ui"; FsReaddir "services";
     FsAccess "services/api/.git"; FsAccess "services/ui/.git"].
Proof.
  intros r. split.
  - exact (proj1 (proj1 (createFeatureBranch_refuses_unusable_service
                           Sim.World Sim.handler Sim.join_path "ui" "login"
                           checked_out_world) eq_refl)).
  - reflexivity.
Defined.

(** ** sync: the ways out before any repository is visited *)

(** X15.  Run where [.gitmodules] cannot be accessed, [syncSubmodules]
    prints ".gitmodules not found. Please run from project root." and ends
    the process with code 1; that file test is its only call. *)
Theorem syncSubmodules_needs_gitmodules :
  forall (W : Type) (h : Handler W) (w w1 : W) (force : bool) (e : Error),
    h (FsAccess ".gitmodules") w = (Err e, w1) ->
    let r := run h (syncSubmodules force) w in
    outcome r = Exited 1 /\
    calls (trace r) = [FsAccess ".gitmodules"] /\
    final r = w1 /\
    last (outs (trace r)) (LConsole, "")
    = (LError, ".gitmodules not found. Please run from project root.").
Proof.
  intros W h w w1 force e Ha r. subst r.
  unfold syncSubmodules. destruct force; cbn; rewrite Ha; cbn;
    repeat split.
Qed.

Lemma syncSubmodules_needs_gitmodules_witness :
  let r := run (Scripted.raw_prints "") (syncSubmodules false) tt in
  outcome r = Exited 1 /\ calls (trace r) = [FsAccess ".gitmodules"].
Proof.
  intros r.
  destruct (syncSubmodules_needs_gitmodules
              unit (Scripted.raw_prints "") tt tt false "not available"
              eq_refl) as (Ho & Hc & _).
  split; [exact Ho | exact Hc].
Defined.

(** X16.  With [.gitmodules] in place and a registry that is empty or
    cannot be read, [syncSubmodules] warns "No submodules found" and
    returns: after the file test, the initialisation of the submodules and
    the read of the registry it calls nothing, so nothing is staged in the
    parent and no summary is printed. *)
Theorem syncSubmodules_without_registry :
  forall (W : Type) (h : Handler W) (w w1 : W) (force : bool),
    h (FsAccess ".gitmodules") w = (Ok tt, w1) ->
    match fst (h ReadRegistry (snd (h GitSubmoduleInit w1))) with
    | Ok [] | Err _ => True
    | Ok _ => False
    end ->
    let r := run h (syncSubmodules force) w in
    outcome r = Returned tt /\
    calls (trace r) = [FsAccess ".gitmodules"; GitSubmoduleInit; ReadRegistry] /\
    last (outs (trace r)) (LConsole, "") = (LWarning, "No submodules found") /\
    ~ In (LSection, "Summary") (outs (trace r)).
Proof.
  intros W h w w1 force Ha Hr r. subst r.
  unfold syncSubmodules, initSubmodules, getSubmodules.
  destruct force; cbn; rewrite Ha; cbn;
    destruct (h GitSubmoduleInit w1) as [[[] | e] w2]; cbn in *;
    destruct (h ReadRegistry w2) as [[[| s l] | e'] w3]; cbn in *;
    try contradiction;
    (split; [reflexivity |]; split; [reflexivity |]; split; [reflexivity |];
     intros Hin;
     repeat (destruct Hin as [Hin | Hin]; [discriminate Hin |]);
     exact Hin).
Qed.

Lemma syncSubmodules_without_registry_witness :
  let w := Sim.mkWorld [".gitmodules"] [] [] [] "" 0 [] [] in
  let r := run Sim.handler (syncSubmodules true) w in
  outcome r = Returned tt /\
  calls (trace r) = [FsAccess ".gitmodules"; GitSubmoduleInit; ReadRegistry].
Proof.
  intros w r.
  destruct (syncSubmodules_without_registry
              Sim.World Sim.handler w w true eq_refl I) as (Ho & Hc & _).
  split; [exact Ho | exact Hc].
Defined.

(** ** new-feature: a branch that is there already *)

(** X17.  When the feature branch exists locally, [createFeatureBranch]
    does not switch to it by itself: it asks "Do you want to switch to it?"
    and checks the branch out only after the answer yes, succeeding exactly
    when that checkout resolves; after the answer no it returns [false],
    nothing more is called and the world is left as the prompt left it. *)
Theorem finishFeature_asks_before_switching :
  forall (W : Type) (h : Handler W) (w w1 w2 w3 : W)
         (serviceName servicePath featureBranch : string)
         (locals remotes : list string) (yes : bool),
    h (GitBranchLocal servicePath) w = (Ok locals, w1) ->
    h (GitBranch servicePath ["-r"]) w1 = (Ok remotes, w2) ->
    Js.includes featureBranch locals = true ->
    h (Confirm "Do you want to switch to it?") w2 = (Ok yes, w3) ->
    let r := run h (finishFeature serviceName servicePath featureBranch) w in
    let asked := [GitBranchLocal servicePath; GitBranch servicePath ["-r"];
                  Confirm "Do you want to switch to it?"] in
    if yes
    then calls (trace r) = (asked ++ [GitCheckout servicePath featureBranch])%list
         /\ outcome r
            = Returned (is_ok (fst (h (GitCheckout servicePath featureBranch)
                                      w3)))
    else calls (trace r) = asked /\ outcome r = Returned false /\
         final r = w3 /\
         last (outs (trace r)) (LConsole, "")
         = (LInfo, "Staying on current branch").
Proof.
  intros W h w w1 w2 w3 svc path fb locals remotes yes Hl Hr Hin Hc r asked.
  subst r asked.
  unfold finishFeature, enterFeatureBranch, branchExists, remoteBranchExists,
    getLocalBranches, getRemoteBranches, checkout.
  answer. destruct yes; cbn.
  - destruct (h (GitCheckout path fb) w3) as [[[] | e] w4]; cbn;
      split; reflexivity.
  - repeat split.
Qed.

Lemma finishFeature_asks_before_switching_witness :
  let w := Scenario.feature_work in
  let r := run Sim.handler
               (finishFeature "api" "services/api" "feature/login") w in
  calls (trace r)
  = [GitBranchLocal "services/api"; GitBranch "services/api" ["-r"];
     Confirm "Do you want to switch to it?"] /\
  outcome r = Returned false.
Proof.
  intros w r.
  destruct (finishFeature_asks_before_switching
              Sim.World Sim.handler w w w (Sim.answered w)
              "api" "services/api" "feature/login"
              ["main"; "feature/login"] ["origin/main"] false
              eq_refl eq_refl eq_refl eq_refl) as (Hc & Ho & _).
  split; [exact Hc | exact Ho].
Defined.

(** ** index.js *)

Lemma statusEach_inspects (path_join : string -> string -> string)
      (submodules : list Submodule) :
  always read_only true false (statusEach path_join submodules).
Proof.
  induction submodules as [| s rest IH].
  - apply always_Ret.
  - unfold statusEach; fold statusEach. static_with ltac:(exact IH).
Qed.

Lemma statusAction_inspects (path_join : string -> string -> string) :
  always read_only false false (statusAction path_join).
Proof.
  pose proof (statusEach_inspects path_join) as He.
  unfold statusAction. static_with ltac:(apply He).
Qed.

(** X18.  The [status] action only looks: whatever its calls resolve with,
    every call it makes is a file test, a status query or the read of the
    registry, so under a handler whose inspecting calls leave the world
    alone the world after it is the world before it; and it always returns,
    a rejection being caught and reported as "Status check failed". *)
Theorem statusAction_only_inspects :
  forall (W : Type) (h : Handler W) (path_join : string -> string -> string)
         (w : W),
    let r := run h (statusAction path_join) w in
    outcome r = Returned tt /\
    forallb read_only (calls (trace r)) = true /\
    (inspects_only h -> final r = w).
Proof.
  intros W h pj w r. subst r.
  destruct (always_run h _ _ _ _ (statusAction_inspects pj) w) as [Hc He].
  split; [| split; [exact Hc |]].
  - destruct (outcome (run h (statusAction pj) w)) as [[] | e | n];
      [reflexivity | discriminate He | discriminate He].
  - intros Hi. apply run_inspecting; assumption.
Qed.

(** X19.  A submodule of the registry whose directory holds no [.git] is
    reported by the [status] action as "<name>: not initialized" after that
    one file test: no git query is made in it, and the action goes on with
    the submodules that follow. *)
Theorem statusEach_skips_uninitialised :
  forall (W : Type) (h : Handler W) (path_join : string -> string -> string)
         (w w1 : W) (s : Submodule) (rest : list Submodule) (e : Error),
    h (FsAccess (path_join (sm_path s) ".git")) w = (Err e, w1) ->
    run h (statusEach path_join (s :: rest)) w
    = after_all [ EvCall (FsAccess (path_join (sm_path s) ".git")) false;
                  EvOut (LItem, sm_name s ++ ": not initialized") ]
                (run h (statusEach path_join rest) w1).
Proof.
  intros W h pj w w1 s rest e Ha.
  change (statusEach pj (s :: rest))
    with (bind (isSubmodule pj (sm_path s))
               (fun isSub =>
                  bind (if isSub then
                          subBranch <- getCurrentBranch (sm_path s);;
                          subHasChanges <- hasUncommittedChanges (sm_path s);;
                          let status := if subHasChanges then "has changes"
                                        else "clean" in
                          say LItem (sm_name s ++ ": "
                                     ++ show_branch subBranch "null"
                                     ++ " (" ++ status ++ ")")
                        else say LItem (sm_name s ++ ": not initialized"))
                       (fun _ => statusEach pj rest))).
  unfold isSubmodule. cbn -[statusEach]. rewrite Ha. cbn -[statusEach].
  destruct (run h (statusEach pj rest) w1); reflexivity.
Qed.

Lemma statusEach_skips_uninitialised_witness :
  calls (trace (run Sim.handler
                    (statusEach Sim.join_path [Scenario.ui; Scenario.api])
                    checked_out_world))
  = [ FsAccess "services/ui/.git"; FsAccess "services/api/.git";
      GitStatus "services/api"; GitStatus "services/api" ].
Proof.
  rewrite (statusEach_skips_uninitialised
             Sim.World Sim.handler Sim.join_path
             checked_out_world checked_out_world
             Scenario.ui [Scenario.api] "ENOENT: no such file or directory"
             eq_refl).
  reflexivity.
Defined.

(** X20.  The [new-feature] action turns the result of [newFeature] into
    the exit status: it returns when [newFeature] returned [true], and
    ends the process with code 1 when [newFeature] returned [false] or
    threw, in the latter case after "New feature failed: " and the
    message; it makes no call of its own. *)
Theorem newFeatureAction_exit_status :
  forall (W : Type) (h : Handler W) (path_join : string -> string -> string)
         (service feature : string) (w : W),
    let r0 := run h (newFeature path_join service feature) w in
    let r := run h (newFeatureAction path_join service feature) w in
    calls (trace r) = calls (trace r0) /\
    match outcome r0 with
    | Returned true => outcome r = Returned tt
    | Returned false => outcome r = Exited 1 /\ outs (trace r) = outs (trace r0)
    | Thrown e =>
        outcome r = Exited 1 /\
        outs (trace r)
        = (outs (trace r0) ++ [(LError, ("New feature failed: " ++ e)%string)])%list
    | Exited _ => False
    end.
Proof.
  intros W h pj s f w r0 r. subst r0 r.
  pose proof (proj2 (always_run h _ _ _ _ (newFeature_within pj s f) w))
    as He.
  unfold newFeatureAction. rewrite run_try_catch, run_bind.
  destruct (run h (newFeature pj s f) w) as [[[|] | e | n] w1 t1];
    cbn in *; try discriminate He;
    rewrite ?calls_app, ?outs_app, ?app_nil_r; cbn;
    rewrite ?app_nil_r; repeat split.
Qed.

(** X21.  The [sync] action never ends with an uncaught rejection: it
    returns when [syncSubmodules] returns, and ends the process with code 1
    when [syncSubmodules] did so itself or threw, in the latter case after
    "Sync failed: " and the message.  So a registered directory in which
    [status()] is rejected ends the whole command with code 1. *)
Theorem syncAction_exit_status :
  forall (W : Type) (h : Handler W) (w : W) (force : bool),
    let r0 := run h (syncSubmodules force) w in
    let r := run h (syncAction force) w in
    calls (trace r) = calls (trace r0) /\
    match outcome r0 with
    | Returned _ => outcome r = Returned tt
    | Thrown e =>
        outcome r = Exited 1 /\
        outs (trace r)
        = (outs (trace r0) ++ [(LError, ("Sync failed: " ++ e)%string)])%list
    | Exited n => n = 1 /\ outcome r = Exited 1
    end.
Proof.
  intros W h w force r0 r. subst r0 r.
  pose proof (proj2 (always_run h _ _ _ _ (syncSubmodules_within force) w))
    as He.
  unfold syncAction. rewrite run_try_catch.
  destruct (run h (syncSubmodules force) w) as [[[] | e | n] w1 t1];
    cbn in *; rewrite ?calls_app, ?outs_app, ?app_nil_r; cbn.
  - split; reflexivity.
  - repeat split.
  - apply Nat.eqb_eq in He. subst n. repeat split.
Qed.

(** ** init: repository names *)

Lemma string_length_app (a b : string) :
  String.length (a ++ b) = String.length a + String.length b.
Proof. induction a as [| c a IH]; simpl; [| rewrite IH]; reflexivity. Qed.

Lemma substring_prefix (a b : string) :
  String.substring 0 (String.length a) (a ++ b) = a.
Proof.
  induction a as [| c a IH]; simpl.
  - destruct b; reflexivity.
  - rewrite IH. reflexivity.
Qed.

Lemma endsWith_app (a suffix : string) :
  JsStr.endsWith suffix (a ++ suffix) = true.
Proof.
  unfold JsStr.endsWith, JsStr.startsWith.
  rewrite rev_string_app, strip_prefix_self. reflexivity.
Qed.

(** X22.  [generateRepoName] takes one trailing "-service" off a folder
    name, whatever stands before it, and leaves every other name as it is:
    the repository of [billing-service] is [billing], that of [gateway] is
    [gateway]. *)
Theorem generateRepoName_strips_suffix :
  forall name : string,
    Init.generateRepoName (name ++ "-service") = name /\
    (JsStr.endsWith "-service" name = false ->
     Init.generateRepoName name = name).
Proof.
  intros name. unfold Init.generateRepoName. split.
  - rewrite endsWith_app, string_length_app.
    replace (String.length name + String.length "-service" - 8)
      with (String.length name) by (simpl; lia).
    apply substring_prefix.
  - intros ->. reflexivity.
Qed.

Lemma generateRepoName_strips_suffix_witness :
  Init.generateRepoName "billing-service" = "billing" /\
  Init.generateRepoName "gateway" = "gateway".
Proof.
  split.
  - exact (proj1 (generateRepoName_strips_suffix "billing")).
  - exact (proj2 (generateRepoName_strips_suffix "gateway") eq_refl).
Defined.

(** ** init: running its programs *)

Section IRunLemmas.
Context {W : Type} (h : Init.IHandler W).

Lemma irun_bind {A B : Type} (p : Init.IProg A) (f : A -> Init.IProg B)
      (w : W) :
  Init.irun h (Init.ibind p f) w =
  match Init.ioutcome (Init.irun h p w) with
  | Returned a =>
      Init.iafter_all (Init.itrace (Init.irun h p w))
                      (Init.irun h (f a) (Init.ifinal (Init.irun h p w)))
  | Thrown e =>
      Init.mkIRun (Thrown e) (Init.ifinal (Init.irun h p w))
                  (Init.itrace (Init.irun h p w))
  | Exited n =>
      Init.mkIRun (Exited n) (Init.ifinal (Init.irun h p w))
                  (Init.itrace (Init.irun h p w))
  end.
Proof.
  revert w; induction p as [a | e | n | l k IH | c k IH]; intro w; simpl.
  - destruct (Init.irun h (f a) w); reflexivity.
  - reflexivity.
  - reflexivity.
  - rewrite IH. destruct (Init.ioutcome (Init.irun h k w)); reflexivity.
  - rewrite IH.
    destruct (Init.ioutcome
                (Init.irun h (k (fst (h c w))) (snd (h c w))));
      reflexivity.
Qed.

Lemma always_irun {A : Type} (C : Init.ICall -> bool) (Q : A -> Prop)
      (throws exits : bool) (p : Init.IProg A) :
  Init.always C Q throws exits p ->
  forall w,
    forallb C (Init.icalls (Init.itrace (Init.irun h p w))) = true /\
    match Init.ioutcome (Init.irun h p w) with
    | Returned a => Q a
    | Thrown _ => throws = true
    | Exited n => exits = true /\ n = 1
    end.
Proof.
  induction 1 as [a Ha | e Ht | Hx | l k Hk IH | c k Hc Hk IH];
    intros w; cbn.
  - auto.
  - auto.
  - auto.
  - apply IH.
  - rewrite Hc. apply IH.
Qed.

End IRunLemmas.

Lemma icalls_app (t1 t2 : list Init.IEvent) :
  Init.icalls (t1 ++ t2) = (Init.icalls t1 ++ Init.icalls t2)%list.
Proof.
  induction t1 as [| [c b | l] t1 IH]; simpl; [| rewrite IH |]; auto.
Qed.

Lemma ialways_bind {A B : Type} (C : Init.ICall -> bool)
      (Qp : A -> Prop) (Q : B -> Prop) (throws exits : bool)
      (p : Init.IProg A) (f : A -> Init.IProg B) :
  Init.always C Qp throws exits p ->
  (forall a, Qp a -> Init.always C Q throws exits (f a)) ->
  Init.always C Q throws exits (Init.ibind p f).
Proof.
  intros Hp Hf.
  induction Hp as [a Ha | e Ht | Hx | l k Hk IH | c k Hc Hk IH]; cbn.
  - apply Hf; exact Ha.
  - apply Init.always_Throw; exact Ht.
  - apply Init.always_Exit; exact Hx.
  - apply Init.always_Out; exact IH.
  - apply Init.always_Do; [exact Hc | exact IH].
Qed.

Lemma ialways_try_catch {A : Type} (C : Init.ICall -> bool) (Q : A -> Prop)
      (throws exits : bool) (p : Init.IProg A) (f : Error -> Init.IProg A) :
  Init.always C Q true exits p ->
  (forall e, Init.always C Q throws exits (f e)) ->
  Init.always C Q throws exits (Init.itry_catch p f).
Proof.
  intros Hp Hf. remember true as t eqn:Et.
  induction Hp as [a Ha | e Ht | Hx | l k Hk IH | c k Hc Hk IH]; cbn.
  - apply Init.always_Ret; exact Ha.
  - apply Hf.
  - apply Init.always_Exit; exact Hx.
  - apply Init.always_Out; apply IH; exact Et.
  - apply Init.always_Do; [exact Hc | intros r; apply IH; exact Et].
Qed.

Lemma ialways_weaken {A : Type} (C C' : Init.ICall -> bool)
      (Q Q' : A -> Prop) (t x t' x' : bool) (p : Init.IProg A) :
  (forall c, C c = true -> C' c = true) -> (forall a, Q a -> Q' a) ->
  (t = true -> t' = true) -> (x = true -> x' = true) ->
  Init.always C Q t x p -> Init.always C' Q' t' x' p.
Proof.
  intros HC HQ Ht Hx Hp.
  induction Hp as [a Ha | e He | He | l k Hk IH | c k Hc Hk IH].
  - apply Init.always_Ret; auto.
  - apply Init.always_Throw; auto.
  - apply Init.always_Exit; auto.
  - apply Init.always_Out; exact IH.
  - apply Init.always_Do; [auto | exact IH].
Qed.

Lemma ialways_sayAll (C : Init.ICall -> bool) (t x : bool)
      (ls : list Init.ILine) :
  Init.always C (fun _ => True) t x (Init.isayAll ls).
Proof.
  induction ls as [| l ls IH]; cbn;
    [apply Init.always_Ret; exact I | apply Init.always_Out; exact IH].
Qed.

(** Walks a program of the [init] command. *)
Ltac istatic_with known :=
  repeat
    (cbn;
     first
       [ known
       | match goal with
         | |- Init.always _ _ _ _ (Init.IRet _) =>
             apply Init.always_Ret; first [exact I | reflexivity]
         | |- Init.always _ _ _ _ (Init.IThrow _) =>
             apply Init.always_Throw; reflexivity
         | |- Init.always _ _ _ _ (Init.IExit _) =>
             apply Init.always_Exit; reflexivity
         | |- Init.always _ _ _ _ (Init.IOut _ _) => apply Init.always_Out
         | |- Init.always _ _ _ _ (Init.IDo _ _) =>
             apply Init.always_Do; [reflexivity | intros [? | ?]]
         | |- Init.always _ _ _ _ (Init.isayAll _) => apply ialways_sayAll
         | |- Init.always _ _ _ _ (Init.ibind _ _) =>
             apply ialways_bind with (Qp := fun _ => True); [| intros ? _]
         | |- Init.always _ _ _ _ (Init.itry_catch _ _) =>
             apply ialways_try_catch; [| intros ?]
         | |- Init.always _ _ _ _ (if ?b then _ else _) => destruct b
         | |- Init.always _ _ _ _ (match ?x with _ => _ end) => destruct x
         | |- Init.always _ _ _ _ ?p =>
             let f := head_of p in progress unfold f
         end ]).

Ltac istatic := istatic_with fail.

Lemma processServiceFolder_total (path_join : string -> string -> string)
      (name : string) :
  Init.always (fun _ => true) (fun r => Init.folderName r = name) false false
              (Init.processServiceFolder path_join name).
Proof. unfold Init.processServiceFolder. istatic. Qed.

(** ** init: one folder *)

Lemma processServiceFolder_returns_named {W : Type}
      (h : Init.IHandler W) (path_join : string -> string -> string)
      (name : string) (w : W) :
  exists result,
    Init.ioutcome (Init.irun h (Init.processServiceFolder path_join name) w)
    = Returned result /\
    Init.folderName result = name.
Proof.
  destruct (always_irun h _ _ _ _ _
              (processServiceFolder_total path_join name) w) as [_ Ho].
  destruct (Init.ioutcome
              (Init.irun h (Init.processServiceFolder path_join name) w))
    as [r | e | n].
  - exists r. split; [reflexivity | exact Ho].
  - discriminate Ho.
  - destruct Ho as [Hx _]. discriminate Hx.
Qed.

(** X23.  [processServiceFolder] never throws and never ends the process:
    whatever its calls resolve with, it returns a result that carries the
    name of the folder it was given; a rejection anywhere inside it ends up
    as that result's [error]. *)
Theorem processServiceFolder_always_returns :
  forall (W : Type) (h : Init.IHandler W)
         (path_join : string -> string -> string) (name : string) (w : W),
    exists result,
      Init.ioutcome (Init.irun h (Init.processServiceFolder path_join name) w)
      = Returned result /\
      Init.folderName result = name.
Proof.
  intros W h pj name w.
  exact (processServiceFolder_returns_named h pj name w).
Qed.

(** Closes a goal about the rest of a run by walking the rest of the
    program. *)
Ltac rest_walked h :=
  match goal with
  | |- context [Init.irun h ?p ?w] =>
      let H := fresh "H" in
      assert (H : Init.always (fun c => negb (Init.asks_remote c))
                              (fun r => Init.took_remote r = false)
                              false false p) by istatic;
      let Hc := fresh "Hc" in
      let Ho := fresh "Ho" in
      destruct (always_irun h _ _ _ _ _ H w) as [Hc Ho];
      split; [exact Hc |];
      destruct (Init.ioutcome (Init.irun h p w));
      [ intros r E; injection E as <-; exact Ho
      | intros r E; discriminate E
      | intros r E; discriminate E ]
  end.

(** X24.  Under a handler whose looking calls leave the world alone,
    [processServiceFolder] never asks git for the remote of a folder and
    never reports "existing remote" or "new repo": the test that leads
    there, [hasGitRepo], is the file test [isSubmodule] has already made,
    and a folder that passes it was skipped as "already a submodule"
    before.  A folder that holds a [.git] is skipped after that one file
    test, registered or not. *)
Theorem processServiceFolder_skips_every_repository :
  forall (W : Type) (h : Init.IHandler W)
         (path_join : string -> string -> string) (name : string) (w : W),
    let dotGit := path_join (path_join "services" name) ".git" in
    let r := Init.irun h (Init.processServiceFolder path_join name) w in
    (Init.looks_only h ->
     forallb (fun c => negb (Init.asks_remote c)) (Init.icalls (Init.itrace r))
       = true /\
     forall result,
       Init.ioutcome r = Returned result -> Init.took_remote result = false) /\
    (is_ok (fst (h (Init.Base (FsAccess dotGit)) w)) = true ->
     Init.ioutcome r = Returned (Init.mkFolderResult name Init.Skipped) /\
     Init.icalls (Init.itrace r) = [Init.Base (FsAccess dotGit)]).
Proof.
  intros W h pj name w dotGit r. subst r.
  unfold Init.processServiceFolder, isSubmodule, isRegisteredSubmodule,
    Init.isFolderEmpty, Init.hasGitRepo.
  fold dotGit. cbn. split.
  - intros Hl.
    pose proof (Hl (Init.Base (FsAccess dotGit)) w eq_refl) as H1.
    destruct (h (Init.Base (FsAccess dotGit)) w) as [[[] | e1] w1] eqn:E1;
      cbn in *; subst w1.
    + split; [reflexivity |]. intros r [= <-]. reflexivity.
    + pose proof (Hl (Init.Base (GitRaw "." registered_paths_query)) w
                     eq_refl) as H2.
      destruct (h (Init.Base (GitRaw "." registered_paths_query)) w)
        as [[out | e2] w2] eqn:E2; cbn in *; subst w2.
      * destruct (existsb _ (statusLines out)); cbn.
        { split; [reflexivity |]. intros r [= <-]. reflexivity. }
        pose proof (Hl (Init.Base (FsReaddir (pj "services" name))) w
                       eq_refl) as H3.
        destruct (h (Init.Base (FsReaddir (pj "services" name))) w)
          as [[[| f files] | e3] w3] eqn:E3; cbn in *; subst w3.
        { rest_walked h. }
        { rewrite E1. cbn. rest_walked h. }
        { rest_walked h. }
      * pose proof (Hl (Init.Base (FsReaddir (pj "services" name))) w
                       eq_refl) as H3.
        destruct (h (Init.Base (FsReaddir (pj "services" name))) w)
          as [[[| f files] | e3] w3] eqn:E3; cbn in *; subst w3.
        { rest_walked h. }
        { rewrite E1. cbn. rest_walked h. }
        { rest_walked h. }
  - destruct (h (Init.Base (FsAccess dotGit)) w) as [[[] | e1] w1]; cbn.
    + intros _. split; reflexivity.
    + discriminate.
Qed.

Lemma disk_looks_only : Init.looks_only Init.disk.
Proof.
  intros c d Hl. destruct c as [c | p | p | a b | p | a b | f args cwd | | |];
    cbn in Hl; try discriminate.
  - destruct c; cbn; try reflexivity.
    destruct (Init.entries path d); reflexivity.
  - cbn. destruct (Init.entries p d); reflexivity.
  - apply andb_prop in Hl as [Hf Ha]. cbn. rewrite Hf.
    destruct args as [| a [| b [| x [| y rest]]]]; cbn in Ha;
      rewrite ?andb_false_r, ?orb_false_r in Ha; try discriminate Ha;
      reflexivity.
Qed.

Lemma processServiceFolder_skips_every_repository_witness :
  let d := Init.mkDisk [("services/billing-service", ["README.md"])] [] 0 in
  let r := Init.irun Init.disk
             (Init.processServiceFolder Sim.join_path "billing-service") d in
  Init.ioutcome r
  = Returned (Init.mkFolderResult "billing-service"
                                  (Init.Initialized "billing")) /\
  forallb (fun c => negb (Init.asks_remote c)) (Init.icalls (Init.itrace r))
  = true.
Proof.
  intros d r. split; [reflexivity |].
  exact (proj1 (proj1 (processServiceFolder_skips_every_repository
                         Init.Disk Init.disk Sim.join_path "billing-service" d)
                      disk_looks_only)).
Defined.

(** X25.  A folder that is not a submodule and whose entries cannot be
    read counts as empty: [processServiceFolder] then takes it out of the
    index and removes it, recursively and by force, before anything else
    is done for it. *)
Theorem processServiceFolder_removes_unreadable_folder :
  forall (W : Type) (h : Init.IHandler W)
         (path_join : string -> string -> string) (name : string)
         (w w1 w2 w3 : W) (e1 e3 : Error)
         (listing : Result string),
    let folderPath := path_join "services" name in
    let dotGit := path_join folderPath ".git" in
    h (Init.Base (FsAccess dotGit)) w = (Err e1, w1) ->
    h (Init.Base (GitRaw "." registered_paths_query)) w1 = (listing, w2) ->
    match listing with
    | Ok result =>
        existsb (fun line => JsStr.includes folderPath line)
                (statusLines result) = false
    | Err _ => True
    end ->
    h (Init.Base (FsReaddir folderPath)) w2 = (Err e3, w3) ->
    firstn 5 (Init.icalls
                (Init.itrace
                   (Init.irun h (Init.processServiceFolder path_join name) w)))
    = [ Init.Base (FsAccess dotGit);
        Init.Base (GitRaw "." registered_paths_query);
        Init.Base (FsReaddir folderPath);
        Init.Execa "git" ["rm"; "--cached"; "-r"; folderPath] None;
        Init.FsRm folderPath ].
Proof.
  intros W h pj name w w1 w2 w3 e1 e3 listing folderPath dotGit
         H1 H2 Hreg H3.
  unfold Init.processServiceFolder, isSubmodule, isRegisteredSubmodule,
    Init.isFolderEmpty, Init.gitRmCached.
  fold folderPath. fold dotGit. cbn. rewrite H1. cbn. rewrite H2.
  destruct listing as [result | e2]; cbn.
  - rewrite Hreg. cbn. rewrite H3. cbn.
    destruct (h (Init.Execa "git" ["rm"; "--cached"; "-r"; folderPath] None)
                w3) as [[out | e] w4]; reflexivity.
  - rewrite H3. cbn.
    destruct (h (Init.Execa "git" ["rm"; "--cached"; "-r"; folderPath] None)
                w3) as [[out | e] w4]; reflexivity.
Qed.

Lemma processServiceFolder_removes_unreadable_folder_witness :
  let d := Init.mkDisk [] [] 0 in
  firstn 5 (Init.icalls
              (Init.itrace
                 (Init.irun Init.disk
                    (Init.processServiceFolder Sim.join_path "vault") d)))
  = [ Init.Base (FsAccess "services/vault/.git");
      Init.Base (GitRaw "." registered_paths_query);
      Init.Base (FsReaddir "services/vault");
      Init.Execa "git" ["rm"; "--cached"; "-r"; "services/vault"] None;
      Init.FsRm "services/vault" ].
Proof.
  intros d.
  exact (processServiceFolder_removes_unreadable_folder
           Init.Disk Init.disk Sim.join_path "vault" d d d d
           "ENOENT: no such file or directory" "EACCES: permission denied"
           (Ok "") eq_refl eq_refl eq_refl eq_refl).
Defined.

(** ** init: the repository on the host *)

(** Case analysis on the answer to the next call of a run of [init]. *)
Ltac inext h :=
  match goal with
  | |- context [h ?c ?w] =>
      is_var w;
      let r := fresh "r" in
      let w' := fresh "w" in
      destruct (h c w) as [r w']; destruct r; cbn in *
  end.


(** X26.  When [createGitHubRepo] returns, [gh repo create <name>
    --private] has resolved for the very name it returns; that name is the
    one asked for, or the one asked for with a dash and the reading of the
    clock behind it; and the URL is [git@github.com:<login>/<name>.git]
    for the trimmed output of the login query. *)
Theorem createGitHubRepo_returns_what_it_created :
  forall (W : Type) (h : Init.IHandler W) (repoName : string) (w : W)
         (info : Init.RepoInfo),
    let r := Init.irun h (Init.createGitHubRepo repoName) w in
    Init.ioutcome r = Returned info ->
    In (Init.created (Init.repo_name info)) (Init.itrace r) /\
    (Init.repo_name info = repoName \/
     exists timestamp,
       Init.repo_name info = repoName ++ "-" ++ Init.decimal timestamp) /\
    exists username,
      Init.repo_url info
      = "git@github.com:" ++ Js.trim username ++ "/" ++ Init.repo_name info
        ++ ".git".
Proof.
  intros W h repoName w info r. subst r.
  unfold Init.createGitHubRepo. cbn.
  repeat inext h;
    try (intros Hx; discriminate Hx);
    intros [= <-]; cbn; (split; [| split]);
    try (unfold Init.created; tauto);
    try (left; reflexivity);
    try (right; eexists; reflexivity);
    eexists; reflexivity.
Qed.

Lemma createGitHubRepo_returns_what_it_created_witness :
  let d := Init.mkDisk [] ["billing"] 1700 in
  let r := Init.irun Init.disk (Init.createGitHubRepo "billing") d in
  Init.ioutcome r
  = Returned (Init.mkRepoInfo "billing-1700"
                              "git@github.com:acme/billing-1700.git") /\
  In (Init.created "billing-1700") (Init.itrace r).
Proof.
  intros d r. split; [reflexivity |].
  exact (proj1 (createGitHubRepo_returns_what_it_created
                  Init.Disk Init.disk "billing" d
                  (Init.mkRepoInfo "billing-1700"
                                   "git@github.com:acme/billing-1700.git")
                  eq_refl)).
Defined.

(** ** init: the command *)

Lemma processEach_total (path_join : string -> string -> string)
      (serviceFolders : list string) :
  forall results,
    Init.always (fun _ => true) (fun _ => True) false false
                (Init.processEach path_join serviceFolders results).
Proof.
  induction serviceFolders as [| name rest IH]; intros results.
  - apply Init.always_Ret. exact I.
  - change (Init.processEach path_join (name :: rest) results)
      with (Init.ibind (Init.processServiceFolder path_join name)
                       (fun result =>
                          Init.processEach path_join rest
                                           (results ++ [result])%list)).
    apply ialways_bind with (Qp := fun r => Init.folderName r = name).
    + apply processServiceFolder_total.
    + intros r _. apply IH.
Qed.

Lemma processFolders_total (path_join : string -> string -> string)
      (serviceFolders : list string) :
  Init.always (fun _ => true) (fun _ => True) false false
              (Init.processFolders path_join serviceFolders).
Proof.
  pose proof (processEach_total path_join serviceFolders) as He.
  unfold Init.processFolders. istatic_with ltac:(apply He).
Qed.

(** X27.  [initSubmodules] changes nothing before its four checks have
    passed: in every run, whatever the calls resolve with, no call other
    than file tests, [status()] and the two queries on [gh] is made before
    [gh auth status] has resolved.  When it ends the process it does so
    with code 1, and then it has only looked.  It never ends with an
    uncaught rejection: what goes wrong for a folder, for the update of the
    submodules or for the backup of [.gitmodules] is reported and the
    command goes on. *)
Theorem initSubmodules_checks_before_it_changes :
  forall (W : Type) (h : Init.IHandler W)
         (path_join : string -> string -> string) (w : W),
    let r := Init.irun h (Init.initSubmodules path_join) w in
    Init.gated Init.authenticated (Init.itrace r) = true /\
    (forall n, Init.ioutcome r = Exited n ->
               n = 1 /\
               forallb Init.looks (Init.icalls (Init.itrace r)) = true) /\
    (forall e, Init.ioutcome r <> Thrown e).
Proof.
  intros W h pj w r. subst r.
  unfold Init.initSubmodules, Init.checkProjectRoot, isGitRepo,
    Init.isGhInstalled, Init.isAuthenticated.
  cbn.
  inext h.
  2: { split; [reflexivity |]. split; [| discriminate].
       intros n [= <-]. split; reflexivity. }
  inext h.
  2: { split; [reflexivity |]. split; [| discriminate].
       intros n [= <-]. split; reflexivity. }
  inext h.
  2: { split; [reflexivity |]. split; [| discriminate].
       intros n [= <-]. split; reflexivity. }
  inext h.
  2: { split; [reflexivity |]. split; [| discriminate].
       intros n [= <-]. split; reflexivity. }
  inext h.
  2: { split; [reflexivity |]. split; [| discriminate].
       intros n [= <-]. split; reflexivity. }
  split; [reflexivity |].
  match goal with
  | |- context [Init.irun h ?p ?w0] =>
      assert (Hd : Init.always (fun _ => true) (fun _ : unit => True)
                               false false p)
        by (pose proof (processFolders_total pj) as Hp;
            istatic_with ltac:(apply Hp));
      pose proof (proj2 (always_irun h _ _ _ _ _ Hd w0)) as Ho;
      destruct (Init.ioutcome (Init.irun h p w0)) as [u | e | n]
  end.
  - split; [intros n Hx; discriminate Hx | intros e Hx; discriminate Hx].
  - discriminate Ho.
  - destruct Ho as [Hx _]. discriminate Hx.
Qed.

(** X28.  The loop of [initSubmodules] over the folders returns one result
    per folder, in the order of the folders and each under its folder's
    name, whatever happens while a folder is processed: a failure for one
    folder does not end the loop. *)
Theorem processEach_one_result_per_folder :
  forall (W : Type) (h : Init.IHandler W)
         (path_join : string -> string -> string)
         (serviceFolders : list string) (results : list Init.FolderResult)
         (w : W),
    exists added,
      Init.ioutcome
        (Init.irun h (Init.processEach path_join serviceFolders results) w)
      = Returned (results ++ added)%list /\
      map Init.folderName added = serviceFolders.
Proof.
  intros W h pj serviceFolders.
  induction serviceFolders as [| name rest IH]; intros results w.
  - exists []. cbn. rewrite app_nil_r. split; reflexivity.
  - change (Init.processEach pj (name :: rest) results)
      with (Init.ibind (Init.processServiceFolder pj name)
                       (fun result =>
                          Init.processEach pj rest
                                           (results ++ [result])%list)).
    rewrite irun_bind.
    destruct (processServiceFolder_returns_named h pj name w)
      as (r & Ho & Hn).
    rewrite Ho.
    set (w1 := Init.ifinal (Init.irun h (Init.processServiceFolder pj name) w)).
    set (t1 := Init.itrace (Init.irun h (Init.processServiceFolder pj name) w)).
    destruct (IH (results ++ [r])%list w1) as (added & Ha & Hm).
    exists (r :: added). cbv beta iota. unfold Init.iafter_all.
    cbn [Init.ioutcome]. rewrite Ha, <- app_assoc. cbn [app map].
    rewrite Hn, Hm. split; reflexivity.
Qed.

(** ** The default branch, from what git prints *)

Lemma trim_line (s : string) :
  s <> "" -> trimmed s = true -> Js.trim (s ++ Js.lf) = s.
Proof.
  unfold trimmed. intros Hne Ht.
  destruct (Js.drop_token Js.whitespace s) eqn:E1; [discriminate |].
  destruct (Js.drop_token (map Js.rev_string Js.whitespace) (Js.rev_string s))
    eqn:E2; [discriminate |].
  unfold Js.trim, Js.trimStart.
  rewrite (drop_tokens_none _ _ (s ++ Js.lf))
    by (apply drop_token_app_low;
        [apply whitespace_high_tail | exact Hne | exact E1 | reflexivity]).
  unfold Js.trimEnd. rewrite rev_string_app.
  destruct (String.length (s ++ Js.lf)) as [| n] eqn:El.
  - rewrite string_length_app in El. cbn in El. lia.
  - change (Js.rev_string Js.lf ++ Js.rev_string s)
      with (String Js.LF (Js.rev_string s)).
    change (Js.drop_tokens (S n) (map Js.rev_string Js.whitespace)
                           (String Js.LF (Js.rev_string s)))
      with (Js.drop_tokens n (map Js.rev_string Js.whitespace)
                           (Js.rev_string s)).
    rewrite (drop_tokens_none _ _ _ E2). apply rev_string_involutive.
Qed.

Lemma replace_prefix (p rep s : string) :
  Js.replace p rep (p ++ s) = rep ++ s.
Proof.
  destruct (p ++ s) as [| c t] eqn:E; unfold Js.replace; fold Js.replace;
    rewrite <- E, strip_prefix_self; reflexivity.
Qed.

(** X29.  When [git symbolic-ref refs/remotes/origin/HEAD] prints what git
    prints, the full name of the ref and a line feed, [getDefaultBranch]
    returns the branch name behind "refs/remotes/origin/", slashes in it
    included, and makes no other call. *)
Theorem getDefaultBranch_reads_symbolic_ref :
  forall (W : Type) (h : Handler W) (w w' : W) (dir branch : string),
    branch <> "" ->
    trimmed branch = true ->
    h (symbolic_ref dir) w
      = (Ok ("refs/remotes/origin/" ++ branch ++ Js.lf), w') ->
    outcome (run h (getDefaultBranch dir) w) = Returned branch /\
    calls (trace (run h (getDefaultBranch dir) w)) = [symbolic_ref dir].
Proof.
  intros W h w w' dir branch Hne Ht Hs.
  rewrite getDefaultBranch_run. cbn zeta. rewrite Hs. cbn [fst snd].
  assert (Htrim : Js.trim ("refs/remotes/origin/" ++ branch ++ Js.lf)
                  = "refs/remotes/origin/" ++ branch).
  { rewrite <- string_app_assoc'. apply trim_line.
    - discriminate.
    - apply trimmed_behind; [exact Hne | exact Ht | reflexivity
                            | reflexivity]. }
  rewrite Htrim. split; [| reflexivity].
  rewrite replace_prefix. reflexivity.
Qed.

Lemma getDefaultBranch_reads_symbolic_ref_witness :
  outcome (run Sim.handler (getDefaultBranch "services/api") Scenario.pinned)
  = Returned "main".
Proof.
  refine (proj1 (getDefaultBranch_reads_symbolic_ref
                   Sim.World Sim.handler Scenario.pinned Scenario.pinned
                   "services/api" "main" _ eq_refl eq_refl)).
  intros H. discriminate H.
Defined.

(** * The parent repository and the pull request, once more

    What needs the lemmas above on what a program can do and on text. *)

(** ** sync: what is staged *)

Lemma syncSubmodule_stages_nothing (force : bool) (path name : string) :
  always (fun c => negb (is_add c)) true false (syncSubmodule path name force).
Proof. destruct force; static. Qed.

Lemma syncEach_stages_nothing (force : bool) (submodules : list Submodule) :
  forall results,
    always (fun c => negb (is_add c)) true false
           (syncEach force submodules results).
Proof.
  induction submodules as [| s rest IH]; intros results.
  - apply always_Ret.
  - unfold syncEach; fold syncEach. apply always_bind.
    + apply syncSubmodule_stages_nothing.
    + intros success. apply IH.
Qed.

Lemma filter_none {A : Type} (P : A -> bool) (l : list A) :
  forallb (fun a => negb (P a)) l = true -> filter P l = [].
Proof.
  induction l as [| a l IH]; cbn; [reflexivity |].
  intros H. apply andb_prop in H as [Ha H].
  destruct (P a); [discriminate Ha | exact (IH H)].
Qed.

Lemma updateParent_calls {W : Type} (h : Handler W) (w : W) :
  calls (trace (run h updateParent w)) = [GitAdd "." "."] \/
  calls (trace (run h updateParent w)) = [GitAdd "." "."; GitStatus "."].
Proof.
  unfold updateParent, add, hasUncommittedChanges.
  split_cases h; cbn; auto.
Qed.

Lemma showStatus_calls {W : Type} (h : Handler W) (w : W) :
  calls (trace (run h showStatus w)) = [GitRaw "." ["submodule"; "status"]].
Proof.
  unfold showStatus, getSubmoduleStatus. cbn.
  next_call h; [| reflexivity].
  rewrite run_try_catch, run_sayAll. cbn.
  induction (statusLines a) as [| l ls IH]; cbn; [reflexivity | exact IH].
Qed.

Lemma says_call_nothing (ls : list Line) : calls (map EvOut ls) = [].
Proof. induction ls as [| l ls IH]; cbn; [reflexivity | exact IH]. Qed.

(** C3, as the code has it.  The parent-side step of [syncSubmodules]
    stages with one call, [add('.')] in the parent directory: the whole
    working tree of the parent, not a list of the submodules that moved.
    That call opens the step, and the step makes no other staging call; in a
    run of [syncSubmodules] whose loop over the repositories came to its end
    it follows the calls of the loop, and it is the only staging call of
    the run. *)
Theorem updateParent_stages_whole_tree :
  forall (W : Type) (h : Handler W) (w : W) (force : bool)
         (submodules : list Submodule),
    let loop := run h (syncEach force submodules []) w in
    let r := run h (syncRegistered force submodules) w in
    (exists rest,
        calls (trace (run h updateParent (final loop)))
          = GitAdd "." "." :: rest /\
        existsb is_add rest = false) /\
    (forall results,
        outcome loop = Returned results ->
        filter is_add (calls (trace r)) = [GitAdd "." "."] /\
        exists rest,
          calls (trace r) =
            (calls (trace loop) ++ GitAdd "." "." :: rest)%list /\
          existsb is_add rest = false).
Proof.
  intros W h w force subs loop r. split.
  - destruct (updateParent_calls h (final loop)) as [-> | ->];
      eexists; split; reflexivity.
  - intros results Ho. subst r. unfold syncRegistered.
    rewrite run_bind. fold loop. rewrite Ho. cbn.
    rewrite !run_bind, !updateParent_returns. cbn.
    rewrite !showSummary_run. cbn. rewrite !showStatus_returns. cbn.
    repeat (progress (rewrite ?calls_app, ?says_call_nothing,
                        ?showStatus_calls; cbn)).
    assert (Hl : filter is_add (calls (trace loop)) = []).
    { apply filter_none.
      exact (proj1 (always_run h _ _ _ _
                      (syncEach_stages_nothing force subs []) w)). }
    rewrite filter_app, Hl. cbn.
    destruct (updateParent_calls h (final loop)) as [-> | ->]; cbn;
      (split; [reflexivity |]); eexists; split; reflexivity.
Qed.

(** ** Addresses and the JSON of a pull request *)

Lemma address_text_app (a b : string) :
  address_text (a ++ b) = address_text a && address_text b.
Proof.
  induction a as [| c a IH]; cbn; [reflexivity |].
  rewrite IH, andb_assoc. reflexivity.
Qed.

Lemma address_char_cases (c : ascii) :
  address_char c = true ->
  Ascii.eqb c (ascii_of_nat 34) = false /\
  Ascii.eqb "#" c = false /\
  forall s, Js.drop_token Js.whitespace (String c s) = None.
Proof.
  destruct c as [[] [] [] [] [] [] [] []]; intros H;
    try discriminate H; repeat split.
Qed.

Lemma address_text_free (s : string) :
  address_text s = true -> free_of Js.whitespace s = true.
Proof.
  induction s as [| c s IH]; intros H; [reflexivity |].
  cbn in H. apply andb_prop in H as [Hc H].
  unfold free_of; fold free_of.
  rewrite (proj2 (proj2 (address_char_cases c Hc)) s). exact (IH H).
Qed.

Lemma address_text_lacks_hash (s : string) :
  address_text s = true -> lacks "#" s = true.
Proof.
  induction s as [| c s IH]; intros H; [reflexivity |].
  cbn in H. apply andb_prop in H as [Hc H].
  change (lacks "#" (String c s))
    with (negb (Ascii.eqb "#" c) && lacks "#" s).
  rewrite (proj1 (proj2 (address_char_cases c Hc))), (IH H). reflexivity.
Qed.

Lemma take_unquoted_address (s rest : string) :
  address_text s = true ->
  Sim.take_unquoted (s ++ Js.dquote ++ rest) = s.
Proof.
  induction s as [| c s IH]; intros H; [reflexivity |].
  cbn in H. apply andb_prop in H as [Hc H].
  change ((String c s) ++ Js.dquote ++ rest)
    with (String c (s ++ Js.dquote ++ rest)).
  unfold Sim.take_unquoted; fold Sim.take_unquoted.
  rewrite (proj1 (address_char_cases c Hc)), (IH H). reflexivity.
Qed.

Lemma decimal_all_digits (n : nat) : all_digits (Sim.decimal n) = true.
Proof.
  unfold Sim.decimal. induction (Nat.to_uint n) as [| d IH | d IH | d IH
    | d IH | d IH | d IH | d IH | d IH | d IH | d IH]; cbn;
    [reflexivity | exact IH ..].
Qed.

Lemma decimal_nonempty (n : nat) : Sim.decimal n <> "".
Proof.
  unfold Sim.decimal.
  assert (H : Nat.to_uint n <> Decimal.Nil).
  { pose proof (DecimalNat.Unsigned.to_of (Nat.to_uint n)) as E.
    rewrite DecimalNat.Unsigned.of_to in E. rewrite E.
    apply DecimalFacts.unorm_nonnil. }
  destruct (Nat.to_uint n); [contradiction | discriminate ..].
Qed.

Lemma all_digits_address (s : string) :
  all_digits s = true -> address_text s = true.
Proof.
  induction s as [| c s IH]; intros H; [reflexivity |].
  cbn in H |- *. apply andb_prop in H as [Hc H]. rewrite (IH H), andb_true_r.
  revert Hc. destruct c as [[] [] [] [] [] [] [] []]; intros Hc;
    try discriminate Hc; reflexivity.
Qed.

Lemma take_digits_until (ds rest : string) (c : ascii) :
  all_digits ds = true -> Js.is_digit c = false ->
  Js.take_digits (ds ++ String c rest) = ds.
Proof.
  intros H Hc. induction ds as [| d ds IH]; cbn.
  - rewrite Hc. reflexivity.
  - cbn in H. apply andb_prop in H as [Hd H]. rewrite Hd, (IH H). reflexivity.
Qed.

Lemma parse_render (n : nat) (url : string) :
  address_text url = true ->
  Sim.parse (Sim.render (n, url)) = Ok (Some (mkPR (PRJson n) (Some url))).
Proof.
  intros Hu. unfold Sim.parse, Sim.render. cbn [fst snd].
  pose proof (decimal_all_digits n) as Hd.
  pose proof (decimal_nonempty n) as Hne.
  assert (Hp : DecimalString.NilEmpty.uint_of_string (Sim.decimal n)
               = Some (Nat.to_uint n))
    by apply DecimalString.NilEmpty.usu.
  revert Hd Hne Hp. generalize (Sim.decimal n) as ds. intros ds Hd Hne Hp.
  set (opening := "{" ++ Js.dquote ++ "number" ++ Js.dquote ++ ":").
  set (field := Js.dquote ++ "url" ++ Js.dquote ++ ":" ++ Js.dquote).
  change ("{" ++ Js.dquote ++ "number" ++ Js.dquote ++ ":" ++ ds ++ ","
          ++ Js.dquote ++ "url" ++ Js.dquote ++ ":" ++ Js.dquote
          ++ url ++ Js.dquote ++ "}")
    with (opening ++ ds ++ String "," (field ++ url ++ Js.dquote ++ "}")).
  replace (String.eqb (opening ++ ds
                       ++ String "," (field ++ url ++ Js.dquote ++ "}"))
                      "null")
    with false by reflexivity.
  rewrite strip_prefix_self.
  rewrite (take_digits_until ds _ "," Hd eq_refl).
  change (ds ++ "," ++ field) with (ds ++ String "," field).
  change (ds ++ String "," (field ++ url ++ Js.dquote ++ "}"))
    with (ds ++ (String "," field) ++ url ++ Js.dquote ++ "}").
  rewrite <- (string_app_assoc ds (String "," field)), strip_prefix_self.
  rewrite Hp, take_unquoted_address by exact Hu.
  apply truthy_true in Hne. rewrite Hne, String.eqb_refl.
  cbn [andb]. rewrite DecimalNat.Unsigned.of_to. reflexivity.
Qed.

Lemma sim_address (svc : string) (n : nat) :
  address_text svc = true ->
  exists rest,
    Sim.address (Sim.join_path "services" svc) n = "https://" ++ rest /\
    rest <> "" /\ address_text rest = true.
Proof.
  intros Hs. exists ("github.com/acme/" ++ svc ++ "/pull/" ++ Sim.decimal n).
  split; [| split].
  - unfold Sim.address, Sim.join_path.
    change ("services" ++ "/" ++ svc) with ("services/" ++ svc).
    rewrite replace_prefix. reflexivity.
  - discriminate.
  - rewrite !address_text_app, Hs,
      (all_digits_address _ (decimal_all_digits n)). reflexivity.
Qed.

(** ** The link-PR operation, call by call *)

(** When the lookup reports no pull request for the branch, one creation is
    requested, and what [createPR] reads off its output is returned. *)
Lemma createLinkPR_creates {W : Type} (h : Handler W)
      (path_join : string -> string -> string)
      (json_parse : string -> Result (option PullRequest))
      (link_body : string -> string -> string)
      (w w1 w2 w3 w4 w5 : W) (serviceName branch rest : string)
      (draft : bool) (st : StatusResult) (ahead : nat) :
  let dir := path_join "services" serviceName in
  let d := run h (getDefaultBranch dir) w1 in
  h (GitStatus dir) w = (Ok st, w1) ->
  on_branch (or_null (current st)) = Some branch ->
  forall defaultBranch,
  outcome d = Returned defaultBranch ->
  defaultBranch <> "" ->
  branch <> defaultBranch ->
  h (CommitsAhead dir defaultBranch branch) (final d) = (Ok (S ahead), w2) ->
  h (GitPush dir true "origin" (Some branch)) w2 = (Ok tt, w3) ->
  h (Gh dir (pr_list_args branch)) w3 = (Ok "", w4) ->
  h (Gh dir (pr_create_args (link_title serviceName branch)
                            (link_body serviceName branch)
                            defaultBranch draft)) w4
    = (Ok ("https://" ++ rest), w5) ->
  rest <> "" -> address_text rest = true ->
  let r := run h (createLinkPR path_join json_parse link_body
                               serviceName draft) w in
  outcome r = Returned (inr (mkPR PRUndefined (Some ("https://" ++ rest)))) /\
  final r = w5 /\
  filter is_pr_create (calls (trace r))
    = [Gh dir (pr_create_args (link_title serviceName branch)
                              (link_body serviceName branch)
                              defaultBranch draft)].
Proof.
  intros dir d Hs Hb db Hd Hdb Hne Ha Hp Hl Hc Hr Ht r. subst r.
  assert (Hbne : branch <> "") by (apply on_branch_some in Hb; tauto).
  pose proof (getDefaultBranch_calls h dir w1) as Hdc. fold d in Hdc.
  assert (Hdf : filter is_pr_create (calls (trace d)) = []).
  { revert Hdc. generalize (calls (trace d)) as l.
    induction l as [| c l IH]; cbn; [reflexivity |].
    destruct (is_pr_create c); [discriminate | exact IH]. }
  unfold createLinkPR, getCurrentBranch, push, getPRForBranch, createPR.
  fold dir.
  answer. rewrite !run_bind. fold d. rewrite Hd. cbn. rewrite Hb.
  destruct (String.eqb_spec branch db) as [| _]; [contradiction |].
  answer. rewrite (or_null_some branch Hbne). answer.
  rewrite (or_null_some db Hdb).
  unfold pr_create_args in Hc.
  change (Js.truthy "") with false.
  destruct draft; cbn in Hc |- *; rewrite Hc; cbn;
    rewrite (match_hash_number_lacks _ (address_text_lacks_hash rest Ht)),
      (take_non_space_free rest (address_text_free rest Ht));
    (destruct rest; [contradiction |]);
    rewrite !calls_app, !filter_app, Hdf; cbn; repeat split.
Qed.

(** When the lookup reports a pull request, it is returned as it is, no
    creation is requested, and the lookup is the last call. *)
Lemma createLinkPR_finds {W : Type} (h : Handler W)
      (path_join : string -> string -> string)
      (json_parse : string -> Result (option PullRequest))
      (link_body : string -> string -> string)
      (w w1 w2 w3 w4 : W) (serviceName branch stdout : string) (draft : bool)
      (st : StatusResult) (ahead : nat) (pr : PullRequest) :
  let dir := path_join "services" serviceName in
  let d := run h (getDefaultBranch dir) w1 in
  h (GitStatus dir) w = (Ok st, w1) ->
  on_branch (or_null (current st)) = Some branch ->
  forall defaultBranch,
  outcome d = Returned defaultBranch ->
  branch <> defaultBranch ->
  h (CommitsAhead dir defaultBranch branch) (final d) = (Ok (S ahead), w2) ->
  h (GitPush dir true "origin" (Some branch)) w2 = (Ok tt, w3) ->
  h (Gh dir (pr_list_args branch)) w3 = (Ok stdout, w4) ->
  stdout <> "" ->
  json_parse stdout = Ok (Some pr) ->
  let r := run h (createLinkPR path_join json_parse link_body
                               serviceName draft) w in
  outcome r = Returned (inr pr) /\
  final r = w4 /\
  existsb is_pr_create (calls (trace r)) = false.
Proof.
  intros dir d Hs Hb db Hd Hne Ha Hp Hl Hout Hj r. subst r.
  assert (Hbne : branch <> "") by (apply on_branch_some in Hb; tauto).
  unfold createLinkPR, getCurrentBranch, push, getPRForBranch. fold dir.
  answer. rewrite !run_bind. fold d. rewrite Hd. cbn. rewrite Hb.
  destruct (String.eqb_spec branch db) as [| _]; [contradiction |].
  answer. rewrite (or_null_some branch Hbne). answer.
  apply truthy_true in Hout. rewrite Hout, Hj. cbn.
  pose proof (getDefaultBranch_calls h dir w1) as Hdc. fold d in Hdc.
  rewrite !calls_app, !existsb_app, Hdc. cbn. repeat split.
Qed.

(** ** The simulated host, step by step *)

Lemma symbolic_output_read (b : string) :
  b <> "" -> trimmed b = true ->
  Js.replace "refs/remotes/origin/" ""
             (Js.trim ("refs/remotes/origin/" ++ b ++ Js.lf)) = b.
Proof.
  intros Hne Ht. rewrite <- string_app_assoc', trim_line.
  - apply replace_prefix.
  - discriminate.
  - apply trimmed_behind; [exact Hne | exact Ht | reflexivity | reflexivity].
Qed.

Lemma sim_root (dir : string) (w : Sim.World) (r : Sim.Repo) :
  Sim.find dir (Sim.repos w) = Some r -> Sim.root dir w = dir.
Proof. intros H. unfold Sim.root. rewrite H. reflexivity. Qed.

Lemma sim_put_find (dir : string) (w : Sim.World) (r r' : Sim.Repo) :
  Sim.find dir (Sim.repos w) = Some r ->
  Sim.find dir (Sim.repos (Sim.put dir r' w)) = Some r'.
Proof.
  intros H. unfold Sim.put. cbn. rewrite sim_find_store, H, String.eqb_refl.
  reflexivity.
Qed.

(** The calls of the link-PR operation up to the lookup, in a repository
    with a branch checked out that is ahead of the default branch. *)
Lemma sim_link_steps (w : Sim.World) (dir branch db : string)
      (r : Sim.Repo) (k : nat) :
  Sim.find dir (Sim.repos w) = Some r ->
  Sim.head r = Some branch ->
  Sim.origin_head r = Some db -> db <> "" -> trimmed db = true ->
  Sim.ahead r = S k -> Sim.online r = true ->
  Sim.handler (GitStatus dir) w
    = (Ok (mkStatus (Some branch) (Sim.clean r)), w) /\
  run Sim.handler (getDefaultBranch dir) w
    = mkRun (Returned db) w [EvCall (symbolic_ref dir) true] /\
  Sim.handler (CommitsAhead dir db branch) w = (Ok (S k), w) /\
  Sim.handler (GitPush dir true "origin" (Some branch)) w
    = (Ok tt, Sim.put dir (Sim.pushed branch r) w).
Proof.
  intros Hf Hh Ho Hne Ht Ha Hon.
  pose proof (sim_root dir w r Hf) as Hr.
  split; [| split; [| split]].
  - cbn. unfold Sim.in_repo. rewrite Hr, Hf, Hh. reflexivity.
  - assert (Hs : Sim.handler (symbolic_ref dir) w
                 = (Ok ("refs/remotes/origin/" ++ db ++ Js.lf), w))
      by (cbn; unfold Sim.in_repo; rewrite Hr, Hf, Ho; reflexivity).
    rewrite getDefaultBranch_run. cbn zeta. rewrite Hs. cbn [fst snd].
    rewrite (symbolic_output_read db Hne Ht). reflexivity.
  - cbn. unfold Sim.in_repo. rewrite Hr, Hf, Ha. reflexivity.
  - cbn. unfold Sim.in_repo. rewrite Hr, Hf, Hon. reflexivity.
Qed.

Lemma sim_lookup (w : Sim.World) (dir branch : string) (r : Sim.Repo) :
  Sim.find dir (Sim.repos w) = Some r -> Sim.online r = true ->
  Sim.handler (Gh dir (pr_list_args branch)) w
    = (Ok (match Sim.find_pr dir branch (Sim.open_prs w) with
           | Some pr => Sim.render pr
           | None => ""
           end), w).
Proof.
  intros Hf Hon. cbn. unfold Sim.in_repo.
  rewrite (sim_root dir w r Hf), Hf, Hon. cbn.
  destruct (Sim.find_pr dir branch (Sim.open_prs w)); reflexivity.
Qed.

Lemma sim_create (w : Sim.World) (dir branch title body base : string)
      (draft : bool) (r : Sim.Repo) :
  Sim.find dir (Sim.repos w) = Some r -> Sim.online r = true ->
  Sim.head r = Some branch ->
  Sim.find_pr dir branch (Sim.open_prs w) = None ->
  let n := S (List.length (Sim.open_prs w)) in
  Sim.handler (Gh dir (pr_create_args title body base draft)) w
    = (Ok (Sim.address dir n),
       Sim.opened dir branch (n, Sim.address dir n) w).
Proof.
  intros Hf Hon Hh Hn n. subst n. unfold pr_create_args.
  cbn. unfold Sim.in_repo.
  rewrite (sim_root dir w r Hf), Hf, Hon, Hh, Hn. reflexivity.
Qed.

Lemma find_pr_hosted (dir branch : string)
      (l : list (string * string * (nat * string))) :
  Sim.find_pr dir branch l
  = hd_error (map snd
                  (filter (fun p => String.eqb (fst (fst p)) dir
                                    && String.eqb (snd (fst p)) branch) l)).
Proof.
  induction l as [| [[d b] p] l IH]; cbn; [reflexivity |].
  destruct (String.eqb d dir && String.eqb b branch); [reflexivity | exact IH].
Qed.

Lemma hosted_opened (dir branch : string) (p : nat * string)
      (w : Sim.World) :
  hosted dir branch w = [] ->
  hosted dir branch (Sim.opened dir branch p w) = [p].
Proof.
  unfold hosted, Sim.opened. cbn. intros H.
  rewrite filter_app, map_app, H. cbn. rewrite !String.eqb_refl. reflexivity.
Qed.

Lemma hosted_put (dir branch d : string) (r : Sim.Repo) (w : Sim.World) :
  hosted dir branch (Sim.put d r w) = hosted dir branch w.
Proof. reflexivity. Qed.

(** A call that finds a pull request open on the simulated host. *)
Lemma sim_finds_open (w : Sim.World) (link_body : string -> string -> string)
      (serviceName branch defaultBranch : string) (draft : bool)
      (repo : Sim.Repo) (k n : nat) (url : string) :
  let dir := Sim.join_path "services" serviceName in
  let link := createLinkPR Sim.join_path Sim.parse link_body
                           serviceName draft in
  let r := run Sim.handler link w in
  Sim.find dir (Sim.repos w) = Some repo ->
  Sim.head repo = Some branch -> branch <> "" -> branch <> "HEAD" ->
  Sim.origin_head repo = Some defaultBranch ->
  defaultBranch <> "" -> trimmed defaultBranch = true ->
  branch <> defaultBranch ->
  Sim.ahead repo = S k -> Sim.online repo = true ->
  Sim.find_pr dir branch (Sim.open_prs w) = Some (n, url) ->
  address_text url = true ->
  outcome r = Returned (inr (mkPR (PRJson n) (Some url))) /\
  final r = Sim.put dir (Sim.pushed branch repo) w /\
  existsb is_pr_create (calls (trace r)) = false.
Proof.
  intros dir link r0 Hf Hh Hne Hhead Ho Hdne Ht Hdb Ha Hon Hfp Hu.
  destruct (sim_link_steps w dir branch defaultBranch repo k
              Hf Hh Ho Hdne Ht Ha Hon) as (H1 & H2 & H3 & H4).
  set (w3 := Sim.put dir (Sim.pushed branch repo) w) in *.
  pose proof (sim_put_find dir w repo (Sim.pushed branch repo) Hf) as Hf3.
  fold w3 in Hf3.
  pose proof (sim_lookup w3 dir branch _ Hf3 Hon) as H5.
  change (Sim.open_prs w3) with (Sim.open_prs w) in H5. rewrite Hfp in H5.
  assert (Hst : on_branch (or_null (Some branch)) = Some branch)
    by (apply on_branch_some; auto).
  assert (H3' : Sim.handler (CommitsAhead dir defaultBranch branch)
                  (final (run Sim.handler (getDefaultBranch dir) w))
                = (Ok (S k), w))
    by (rewrite H2; exact H3).
  assert (Hout : Sim.render (n, url) <> "") by discriminate.
  exact (createLinkPR_finds Sim.handler Sim.join_path Sim.parse link_body
           w w w w3 w3 serviceName branch _ draft
           (mkStatus (Some branch) (Sim.clean repo)) k
           (mkPR (PRJson n) (Some url))
           H1 Hst defaultBranch (f_equal outcome H2) Hdb H3' H4 H5 Hout
           (parse_render n url Hu)).
Qed.

(** C9, on the operation as the spec describes it.  Whenever the lookup
    for the branch reports an open pull request, [createLinkPR] returns that
    pull request as the lookup gave it and requests no creation.  And on the
    simulated host, where [gh pr create] prints the address of the pull
    request it opened and [gh pr list] prints the JSON of the one that is
    open for the head, two calls in a row in the repository of a service
    that has a feature branch checked out, ahead of the default branch,
    both return the pull request the host holds for that branch.  If there
    was none, the first call creates it, once, and returns it as [createPR]
    reads it from what [gh] printed, by its address; the second finds it,
    requests no creation and returns it as [JSON.parse] reads it, under the
    same address and with its number; the host holds that one pull request
    for the branch after either call.  If one was open, both calls return
    it, the same record, neither requests a creation, and the host holds
    what it held. *)
Theorem createLinkPR_idempotent :
  (forall (W : Type) (h : Handler W)
          (path_join : string -> string -> string)
          (json_parse : string -> Result (option PullRequest))
          (link_body : string -> string -> string)
          (w w1 w2 w3 w4 : W) (serviceName branch stdout : string)
          (draft : bool) (st : StatusResult) (ahead : nat)
          (listed : PullRequest),
      let dir := path_join "services" serviceName in
      let d := run h (getDefaultBranch dir) w1 in
      let r := run h (createLinkPR path_join json_parse link_body
                                   serviceName draft) w in
      h (GitStatus dir) w = (Ok st, w1) ->
      current st = Some branch -> branch <> "" -> branch <> "HEAD" ->
      forall defaultBranch,
      outcome d = Returned defaultBranch ->
      branch <> defaultBranch ->
      h (CommitsAhead dir defaultBranch branch) (final d)
        = (Ok (S ahead), w2) ->
      h (GitPush dir true "origin" (Some branch)) w2 = (Ok tt, w3) ->
      h (Gh dir (pr_list_args branch)) w3 = (Ok stdout, w4) ->
      stdout <> "" ->
      json_parse stdout = Ok (Some listed) ->
      outcome r = Returned (inr listed) /\
      existsb is_pr_create (calls (trace r)) = false) /\
  (forall (w : Sim.World) (link_body : string -> string -> string)
          (serviceName branch defaultBranch : string) (draft : bool)
          (repo : Sim.Repo) (k : nat),
      let dir := Sim.join_path "services" serviceName in
      let link := createLinkPR Sim.join_path Sim.parse link_body
                               serviceName draft in
      let first := run Sim.handler link w in
      let second := run Sim.handler link (final first) in
      Sim.find dir (Sim.repos w) = Some repo ->
      Sim.head repo = Some branch -> branch <> "" -> branch <> "HEAD" ->
      Sim.origin_head repo = Some defaultBranch ->
      defaultBranch <> "" -> trimmed defaultBranch = true ->
      branch <> defaultBranch ->
      Sim.ahead repo = S k -> Sim.online repo = true ->
      (address_text serviceName = true ->
       hosted dir branch w = [] ->
       let n := S (List.length (Sim.open_prs w)) in
       let url := Sim.address dir n in
       outcome first = Returned (inr (mkPR PRUndefined (Some url))) /\
       outcome second = Returned (inr (mkPR (PRJson n) (Some url))) /\
       List.length (filter is_pr_create (calls (trace first))) = 1 /\
       existsb is_pr_create (calls (trace second)) = false /\
       hosted dir branch (final first) = [(n, url)] /\
       hosted dir branch (final second) = [(n, url)]) /\
      (forall n url,
          Sim.find_pr dir branch (Sim.open_prs w) = Some (n, url) ->
          address_text url = true ->
          outcome first = Returned (inr (mkPR (PRJson n) (Some url))) /\
          outcome second = outcome first /\
          existsb is_pr_create (calls (trace first)) = false /\
          existsb is_pr_create (calls (trace second)) = false /\
          hosted dir branch (final second) = hosted dir branch w)).
Proof.
  split.
  - intros W h pj jp body w w1 w2 w3 w4 svc branch stdout draft st ahead
           listed dir d r Hs Hc Hne Hh db Hd Hdb Ha Hp Hl Hout Hj.
    assert (Hb : on_branch (or_null (current st)) = Some branch)
      by (apply on_branch_some; auto).
    destruct (createLinkPR_finds h pj jp body w w1 w2 w3 w4 svc branch
                stdout draft st ahead listed Hs Hb db Hd Hdb Ha Hp Hl Hout Hj)
      as (Ho & _ & Hn).
    split; assumption.
  - intros w body svc branch db draft r k dir link first second
           Hf Hh Hne Hhead Ho Hdne Ht Hdb Ha Hon.
    set (w3 := Sim.put dir (Sim.pushed branch r) w).
    pose proof (sim_put_find dir w r (Sim.pushed branch r) Hf) as Hf3.
    fold w3 in Hf3.
    split.
    + (* no pull request yet: the first call creates it *)
      intros Hsvc Hnone n url.
      destruct (sim_address svc n Hsvc) as (rest & Hurl & Hrne & Hrest).
      fold dir in Hurl. fold url in Hurl.
      assert (Hfp : Sim.find_pr dir branch (Sim.open_prs w) = None)
        by (rewrite find_pr_hosted; unfold hosted in Hnone; rewrite Hnone;
            reflexivity).
      destruct (sim_link_steps w dir branch db r k Hf Hh Ho Hdne Ht Ha Hon)
        as (H1 & H2 & H3 & H4).
      fold w3 in H4.
      pose proof (sim_lookup w3 dir branch _ Hf3 Hon) as H5.
      change (Sim.open_prs w3) with (Sim.open_prs w) in H5. rewrite Hfp in H5.
      pose proof (sim_create w3 dir branch (link_title svc branch)
                    (body svc branch) db draft _ Hf3 Hon Hh Hfp) as H6.
      cbn zeta in H6. change (Sim.open_prs w3) with (Sim.open_prs w) in H6.
      fold n in H6. fold url in H6. rewrite Hurl in H6.
      set (w5 := Sim.opened dir branch (n, "https://" ++ rest) w3) in *.
      assert (Hst : on_branch (or_null (Some branch)) = Some branch)
        by (apply on_branch_some; auto).
      assert (H3' : Sim.handler (CommitsAhead dir db branch)
                      (final (run Sim.handler (getDefaultBranch dir) w))
                    = (Ok (S k), w))
        by (rewrite H2; exact H3).
      destruct (createLinkPR_creates Sim.handler Sim.join_path Sim.parse body
                  w w w w3 w3 w5 svc branch rest draft
                  (mkStatus (Some branch) (Sim.clean r)) k
                  H1 Hst db
                  (f_equal outcome H2) Hdne Hdb H3' H4 H5 H6 Hrne Hrest)
        as (Ho1 & Hfin1 & Hc1).
      fold link in Ho1, Hfin1, Hc1. fold first in Ho1, Hfin1, Hc1.
      assert (Hh5 : hosted dir branch w5 = [(n, "https://" ++ rest)])
        by (apply hosted_opened; exact Hnone).
      assert (Hfp5 : Sim.find_pr dir branch (Sim.open_prs w5)
                     = Some (n, "https://" ++ rest)).
      { rewrite find_pr_hosted.
        change (hd_error (hosted dir branch w5)
                = Some (n, "https://" ++ rest)).
        rewrite Hh5. reflexivity. }
      assert (Haddr : address_text ("https://" ++ rest) = true)
        by (rewrite address_text_app, Hrest; reflexivity).
      destruct (sim_finds_open w5 body svc branch db draft
                  (Sim.pushed branch r) k n _
                  Hf3 Hh Hne Hhead Ho Hdne Ht Hdb Ha Hon Hfp5 Haddr)
        as (Ho2 & Hfin2 & Hc2).
      rewrite <- Hfin1 in Ho2, Hfin2, Hc2.
      fold link in Ho2, Hfin2, Hc2. fold second in Ho2, Hfin2, Hc2.
      rewrite Hurl.
      split; [exact Ho1 |]. split; [exact Ho2 |].
      split; [rewrite Hc1; reflexivity |]. split; [exact Hc2 |].
      split; [rewrite Hfin1; exact Hh5 |].
      rewrite Hfin2, hosted_put, Hfin1. exact Hh5.
    + (* a pull request is open: both calls find it *)
      intros n url Hfp Hu.
      destruct (sim_finds_open w body svc branch db draft r k n url
                  Hf Hh Hne Hhead Ho Hdne Ht Hdb Ha Hon Hfp Hu)
        as (Ho1 & Hfin1 & Hc1).
      fold dir in Hfin1. fold link in Ho1, Hfin1, Hc1.
      fold first in Ho1, Hfin1, Hc1. fold w3 in Hfin1.
      destruct (sim_finds_open w3 body svc branch db draft
                  (Sim.pushed branch r) k n url
                  Hf3 Hh Hne Hhead Ho Hdne Ht Hdb Ha Hon Hfp Hu)
        as (Ho2 & Hfin2 & Hc2).
      rewrite <- Hfin1 in Ho2, Hfin2, Hc2.
      fold link in Ho2, Hfin2, Hc2. fold second in Ho2, Hfin2, Hc2.
      split; [exact Ho1 |]. split; [rewrite Ho1; exact Ho2 |].
      split; [exact Hc1 |]. split; [exact Hc2 |].
      rewrite Hfin2, hosted_put, Hfin1. apply hosted_put.
Qed.

Lemma createLinkPR_idempotent_witness :
  let link := createLinkPR Sim.join_path Sim.parse Scenario.body "api" false in
  let first := run Sim.handler link Scenario.feature_work in
  let second := run Sim.handler link (final first) in
  outcome first = Returned (inr Scenario.created_pr) /\
  outcome second = Returned (inr Scenario.listed_pr) /\
  pr_url Scenario.created_pr = pr_url Scenario.listed_pr /\
  List.length (filter is_pr_create (calls (trace first))) = 1 /\
  existsb is_pr_create (calls (trace second)) = false /\
  hosted "services/api" "feature/login" (final second)
    = [(1, "https://github.com/acme/api/pull/1")].
Proof.
  intros link first second.
  assert (H : "feature/login" <> "" /\ "feature/login" <> "HEAD" /\
              "main" <> "" /\ "feature/login" <> "main")
    by (repeat split; discriminate).
  destruct H as (H1 & H2 & H3 & H4).
  destruct (proj1 (proj2 createLinkPR_idempotent
                     Scenario.feature_work Scenario.body "api"
                     "feature/login" "main" false
                     (Scenario.on_feature "feature/login" 2 Scenario.repo) 1
                     eq_refl eq_refl H1 H2 eq_refl H3 eq_refl H4
                     eq_refl eq_refl)
                  eq_refl eq_refl)
    as (Ho1 & Ho2 & Hc1 & Hc2 & _ & Hh).
  split; [exact Ho1 |]. split; [exact Ho2 |]. split; [reflexivity |].
  split; [exact Hc1 |]. split; [exact Hc2 | exact Hh].
Defined.
